(** * Axis control loop of the robotic-arm controller GUI

    A shallow embedding of the control core of
    [GUI for Robotic Arm Control.py]: the [PIDController] class, the
    hold-mode toggles of [App], the event handling and command
    dispatch of [App.controller_listener], the telemetry decoding of
    [App.process_gui_queue], and the data side of [GraphWindow] (the
    deques, the pause button and the export); and of the tables and axis
    limits of [Workspace Visualization.py].

    Numbers.  Python [int]s are [Z].  Python [float]s are rationals [Q];
    every float operation that can round is wrapped in a function
    [rnd : Q -> Q] that is left arbitrary, so that a theorem proved for
    every [rnd] does not depend on how binary64 rounds (exact arithmetic
    is [rnd := fun q => q]).  Comparisons, [abs], [min], [max] and [int()]
    are exact on floats and are modelled exactly.  Infinities and NaN are
    outside the model.

    Effects.  [time.time()] is an input of the function that reads it.
    [send_command] appends to the list of strings written to the serial
    port when the port is open.  The messages put on [gui_queue] (labels,
    colours, log lines) are left out.

    Dictionaries.  The dictionaries keyed by the fixed motor and control
    names are total functions on an enumeration; [S1] is not a key of the
    hold-mode dictionaries and its entry there is never read.

    Threads.  The decoding of a telemetry line and an iteration of the
    control loop are modelled as atomic steps on the shared state. *)

From Stdlib Require Import ZArith QArith Qabs Qround Lqa Lia.
From Stdlib Require Import String Ascii List Bool DecimalString.
From Stdlib Require Decimal DecimalPos DecimalZ.
Import ListNotations.

Open Scope Z_scope.

(** ** Python primitives *)

Module Py.

(** [a < b] on floats. *)
Definition ltb (a b : Q) : bool := negb (Qle_bool b a).

(** [min(a, b)]: the first argument unless the second is smaller. *)
Definition min (a b : Q) : Q := if ltb b a then b else a.

(** [max(a, b)]: the first argument unless the second is larger. *)
Definition max (a b : Q) : Q := if ltb a b then b else a.

(** [int(x)] of a float: truncation toward zero. *)
Definition int_of_float (x : Q) : Z := Z.quot (Qnum x) (Zpos (Qden x)).

(** [str(n)] of an int, as an f-string prints it. *)
Definition str (n : Z) : string := NilZero.string_of_int (Z.to_int n).

(** Whitespace as [str.strip] and [int] see it, within ASCII. *)
Definition is_space (c : ascii) : bool :=
  let n := nat_of_ascii c in
  ((9 <=? n) && (n <=? 13) || (28 <=? n) && (n <=? 32))%nat.

Fixpoint lstrip (s : string) : string :=
  match s with
  | String c s' => if is_space c then lstrip s' else s
  | EmptyString => EmptyString
  end.

Fixpoint rstrip (s : string) : string :=
  match s with
  | String c s' =>
      match rstrip s' with
      | EmptyString => if is_space c then EmptyString else String c EmptyString
      | t => String c t
      end
  | EmptyString => EmptyString
  end.

(** [s.strip()] *)
Definition strip (s : string) : string := rstrip (lstrip s).

(** [s.split(sep)] for a one-character separator: never empty. *)
Fixpoint split (sep : ascii) (s : string) : list string :=
  match s with
  | EmptyString => [EmptyString]
  | String c s' =>
      if Ascii.eqb c sep then EmptyString :: split sep s'
      else match split sep s' with
           | [] => [String c EmptyString]
           | h :: t => String c h :: t
           end
  end.

(** [s[1:]] *)
Definition tail (s : string) : string :=
  match s with
  | String _ s' => s'
  | EmptyString => EmptyString
  end.

Definition digit_value (c : ascii) : option Z :=
  let n := nat_of_ascii c in
  if ((48 <=? n) && (n <=? 57))%nat then Some (Z.of_nat n - 48) else None.

(** The digits of an integer literal; single underscores may separate
    digits. *)
Fixpoint digits (acc : Z) (after_digit : bool) (s : string) : option Z :=
  match s with
  | EmptyString => if after_digit then Some acc else None
  | String c s' =>
      match digit_value c with
      | Some d => digits (10 * acc + d) true s'
      | None =>
          if Ascii.eqb c "_" && after_digit then digits acc false s' else None
      end
  end.

(** [int(s)] of a string in base 10; [None] is [ValueError].  ASCII
    only: digits of other scripts are not modelled. *)
Definition int_of_str (s : string) : option Z :=
  match strip s with
  | String "-" t => option_map Z.opp (digits 0 false t)
  | String "+" t => digits 0 false t
  | t => digits 0 false t
  end.

(** The assignment [l[i] = v] on a list; a negative index counts from
    the end and [None] is [IndexError]. *)
Definition list_set (l : list Z) (i : Z) (v : Z) : option (list Z) :=
  let n := Z.of_nat (length l) in
  let j := if i <? 0 then i + n else i in
  if (0 <=? j) && (j <? n)
  then Some (firstn (Z.to_nat j) l ++ v :: skipn (S (Z.to_nat j)) l)
  else None.

End Py.

(** ** The PID controller *)

Module PID.

(** The fields of a [PIDController] object; [last_time = None] is
    Python's [self.last_time is None]. *)
Record PIDController := mkPID {
  kp : Q; ki : Q; kd : Q;
  output_limits : Q * Q;
  setpoint : Q;
  last_error : Q;
  integral_error : Q;
  last_time : option Q
}.

(** [PIDController.__init__] *)
Definition init (kp ki kd : Q) (output_limits : Q * Q) : PIDController :=
  {| kp := kp; ki := ki; kd := kd;
     output_limits := output_limits;
     setpoint := 0; last_error := 0; integral_error := 0;
     last_time := None |}.

(** The default [output_limits=(-255, 255)]. *)
Definition default_limits : Q * Q := (-(255 # 1), 255 # 1)%Q.

(** [PIDController.set_setpoint] *)
Definition set_setpoint (p : PIDController) (sp : Q) : PIDController :=
  {| kp := kp p; ki := ki p; kd := kd p;
     output_limits := output_limits p;
     setpoint := sp; last_error := 0; integral_error := 0;
     last_time := None |}.

(** The assignment [self.last_time = t]. *)
Definition prime (p : PIDController) (t : Q) : PIDController :=
  {| kp := kp p; ki := ki p; kd := kd p;
     output_limits := output_limits p;
     setpoint := setpoint p; last_error := last_error p;
     integral_error := integral_error p;
     last_time := Some t |}.

(** One call on a controller object. *)
Inductive call :=
| SetSetpoint (sp : Q)
| Update (current_time current_value : Q).

Section Rounding.

Variable rnd : Q -> Q.

(** [PIDController.update]; [current_time] is what [time.time()]
    returns inside the call.  The result is the object after the call
    and the returned value. *)
Definition update (p : PIDController) (current_time current_value : Q)
  : PIDController * Q :=
  match last_time p with
  | None => (prime p current_time, 0%Q)
  | Some lt =>
      let dt := rnd (current_time - lt) in
      if Qeq_bool dt 0 then (p, 0%Q)
      else
        let error := rnd (setpoint p - current_value) in
        let integral := rnd (integral_error p + rnd (error * dt)) in
        let derivative_error := rnd (rnd (error - last_error p) / dt) in
        let output :=
          rnd (rnd (rnd (kp p * error) + rnd (ki p * integral))
               + rnd (kd p * derivative_error)) in
        ({| kp := kp p; ki := ki p; kd := kd p;
            output_limits := output_limits p;
            setpoint := setpoint p;
            last_error := error;
            integral_error := integral;
            last_time := Some current_time |},
         Py.max (fst (output_limits p)) (Py.min (snd (output_limits p)) output))
  end.

(** A sequence of calls on one object: the object at the end and the
    values the [update] calls returned, in order. *)
Fixpoint run (p : PIDController) (cs : list call) : PIDController * list Q :=
  match cs with
  | [] => (p, [])
  | SetSetpoint sp :: cs' => run (set_setpoint p sp) cs'
  | Update t v :: cs' =>
      let '(p', y) := update p t v in
      let '(p'', ys) := run p' cs' in
      (p'', y :: ys)
  end.

End Rounding.

(** No [update] since construction or since the last [set_setpoint]. *)
Definition fresh (cs : list call) : bool :=
  match last cs (SetSetpoint 0) with
  | SetSetpoint _ => true
  | Update _ _ => false
  end.

(** [y] lies within the limits pair. *)
Definition within (limits : Q * Q) (y : Q) : Prop :=
  (fst limits <= y)%Q /\ (y <= snd limits)%Q.

End PID.

(** ** Motors, commands and the application state *)

(** The keys of [MOTOR_MAP]. *)
Inductive motor := M1 | M2 | M3 | M4 | S1 | S2 | S3.

Definition motor_eqb (a b : motor) : bool :=
  match a, b with
  | M1, M1 | M2, M2 | M3, M3 | M4, M4 | S1, S1 | S2, S2 | S3, S3 => true
  | _, _ => false
  end.

(** [MOTOR_MAP = {'M1': 1, 'M2': 2, 'M3': 3, 'M4': 4, 'S1': 5, 'S2': 6, 'S3': 7}] *)
Definition MOTOR_MAP (m : motor) : Z :=
  match m with
  | M1 => 1 | M2 => 2 | M3 => 3 | M4 => 4 | S1 => 5 | S2 => 6 | S3 => 7
  end.

(** The keys of [self.pid_controllers] (and of [self.pid_states]), in
    the order in which a [for] loop over the dictionary visits them. *)
Definition pid_motors : list motor := [M1; M2; M3; M4; S2; S3].

(** A dictionary over the motor names, and the assignment [d[m] = v]. *)
Definition upd {T : Type} (d : motor -> T) (m : motor) (v : T) : motor -> T :=
  fun m' => if motor_eqb m' m then v else d m'.

(** One entry of [self.pid_states]: [{'enabled': ..., 'target': ...}]. *)
Record pid_state := mkState { enabled : bool; target : Z }.

(** The keys of [self.last_press_times]. *)
Inductive control :=
| dpad_down | dpad_up | dpad_right | dpad_left
| A | B | X | Y | L_STICK | R_STICK | BACK | LB | RB.

Definition control_eqb (a b : control) : bool :=
  match a, b with
  | dpad_down, dpad_down | dpad_up, dpad_up | dpad_right, dpad_right
  | dpad_left, dpad_left | A, A | B, B | X, X | Y, Y | L_STICK, L_STICK
  | R_STICK, R_STICK | BACK, BACK | LB, LB | RB, RB => true
  | _, _ => false
  end.

(** [BTN_MAP]; the directional pad is not a button and has no entry. *)
Definition BTN_MAP (c : control) : option Z :=
  match c with
  | A => Some 0 | B => Some 1 | X => Some 2 | Y => Some 3
  | LB => Some 4 | RB => Some 5 | BACK => Some 6
  | L_STICK => Some 8 | R_STICK => Some 9
  | _ => None
  end.

(** Float literals denote their decimal values. *)
Definition DPAD_DEBOUNCE_DELAY : Q := 5 # 10.
Definition BUTTON_DEBOUNCE_DELAY : Q := 3 # 10.
Definition JOYSTICK_DEADZONE : Q := 15 # 100.
Definition PID_TARGET_THRESHOLD : Z := 5.

(** The newline that ends every command. *)
Definition LF : string := String "010"%char EmptyString.

(** The f-string [f"{channel}:{direction}:{speed}\n"]. *)
Definition fmt_cmd (channel : Z) (direction : string) (speed : Z) : string :=
  (Py.str channel ++ ":" ++ direction ++ ":" ++ Py.str speed ++ LF)%string.

(** The stop command of a motor, ["<channel>:s:0\n"]. *)
Definition stop_cmd (m : motor) : string := fmt_cmd (MOTOR_MAP m) "s" 0.

(** The part of the [App] object that the control loop reads and writes.
    [serial_open] is [self.serial_port and self.serial_port.is_open];
    [serial_out] lists what [self.serial_port.write] has received. *)
Record App := mkApp {
  pid_controllers : motor -> PID.PIDController;
  pid_states : motor -> pid_state;
  current_encoders : motor -> Z;
  last_press_times : control -> Q;
  all_motors_zero_active : bool;
  serial_open : bool;
  serial_out : list string
}.

Definition set_pid_controller (a : App) (m : motor) (p : PID.PIDController) : App :=
  mkApp (upd (pid_controllers a) m p) (pid_states a) (current_encoders a)
        (last_press_times a) (all_motors_zero_active a)
        (serial_open a) (serial_out a).

Definition set_pid_state (a : App) (m : motor) (st : pid_state) : App :=
  mkApp (pid_controllers a) (upd (pid_states a) m st) (current_encoders a)
        (last_press_times a) (all_motors_zero_active a)
        (serial_open a) (serial_out a).

Definition set_current_encoder (a : App) (m : motor) (v : Z) : App :=
  mkApp (pid_controllers a) (pid_states a) (upd (current_encoders a) m v)
        (last_press_times a) (all_motors_zero_active a)
        (serial_open a) (serial_out a).

Definition set_last_press_time (a : App) (c : control) (t : Q) : App :=
  mkApp (pid_controllers a) (pid_states a) (current_encoders a)
        (fun c' => if control_eqb c' c then t else last_press_times a c')
        (all_motors_zero_active a) (serial_open a) (serial_out a).

Definition set_all_motors_zero_active (a : App) (b : bool) : App :=
  mkApp (pid_controllers a) (pid_states a) (current_encoders a)
        (last_press_times a) b (serial_open a) (serial_out a).

(** [App.__init__], with the gains of the six controllers; [opened] says
    whether [connect] has opened the port. *)
Definition init_app (opened : bool) : App :=
  {| pid_controllers := fun m =>
       match m with
       | M1 => PID.init (60 # 100) (5 # 1000) (1 # 10000) PID.default_limits
       | M2 => PID.init (8 # 10) (5 # 1000) (1 # 10) PID.default_limits
       | M3 => PID.init (5 # 10) (5 # 1000) (1 # 10) PID.default_limits
       | M4 => PID.init (8 # 10) (5 # 1000) (1 # 10) PID.default_limits
       | S2 => PID.init (80 # 100) (5 # 1000) (1 # 10) PID.default_limits
       | S3 => PID.init (95 # 100) (5 # 1000) (1 # 100) PID.default_limits
       | S1 => PID.init 0 0 0 PID.default_limits
       end;
     pid_states := fun _ => mkState false 0;
     current_encoders := fun _ => 0;
     last_press_times := fun _ => 0%Q;
     all_motors_zero_active := false;
     serial_open := opened;
     serial_out := [] |}.

(** [App.send_command]: a write when the port is open, nothing
    otherwise. *)
Definition send_command (a : App) (command : string) : App :=
  if serial_open a then
    mkApp (pid_controllers a) (pid_states a) (current_encoders a)
          (last_press_times a) (all_motors_zero_active a)
          (serial_open a) (serial_out a ++ [command])
  else a.

(** ** Hold-mode toggles *)

(** [App._update_pid_ui]: besides the labels it refreshes, it sends the
    stop command of the motor when the motor is not enabled. *)
Definition _update_pid_ui (a : App) (motor_name : motor) : App :=
  if enabled (pid_states a motor_name) then a
  else send_command a (fmt_cmd (MOTOR_MAP motor_name) "s" 0).

(** [App._toggle_pid] *)
Definition _toggle_pid (a : App) (motor_name : motor) (set_to_zero : bool) : App :=
  let state := pid_states a motor_name in
  let en := negb (enabled state) in
  if en then
    let tgt := if set_to_zero then 0 else target state in
    let a1 := set_pid_state a motor_name (mkState en tgt) in
    let a2 := set_pid_controller a1 motor_name
                (PID.set_setpoint (pid_controllers a1 motor_name) (inject_Z tgt)) in
    _update_pid_ui a2 motor_name
  else
    let a1 := set_pid_state a motor_name (mkState en (target state)) in
    _update_pid_ui a1 motor_name.

(** [App._toggle_save_pos_pid] *)
Definition _toggle_save_pos_pid (a : App) (motor_name : motor) : App :=
  let state := pid_states a motor_name in
  let a' :=
    if enabled state then
      set_pid_state a motor_name (mkState false (target state))
    else
      let tgt := current_encoders a motor_name in
      let a1 := set_pid_state a motor_name (mkState true tgt) in
      set_pid_controller a1 motor_name
        (PID.set_setpoint (pid_controllers a1 motor_name) (inject_Z tgt)) in
  _update_pid_ui a' motor_name.

(** The body of the [for motor in self.pid_controllers] loop of
    [App.toggle_all_pid_zero_mode]. *)
Definition toggle_all_body (a : App) (motor : motor) : App :=
  let state := pid_states a motor in
  let should_be_enabled := all_motors_zero_active a in
  if negb (Bool.eqb (enabled state) should_be_enabled) then
    let a1 := set_pid_state a motor (mkState should_be_enabled (target state)) in
    let a2 :=
      if should_be_enabled then
        let a' := set_pid_state a1 motor (mkState should_be_enabled 0) in
        set_pid_controller a' motor
          (PID.set_setpoint (pid_controllers a' motor) 0)
      else a1 in
    _update_pid_ui a2 motor
  else a.

(** [App.toggle_all_pid_zero_mode] *)
Definition toggle_all_pid_zero_mode (a : App) : App :=
  let a0 := set_all_motors_zero_active a (negb (all_motors_zero_active a)) in
  fold_left toggle_all_body pid_motors a0.

(** ** The control loop of [App.controller_listener] *)

(** The pygame events the loop reacts to. *)
Inductive event :=
| QUIT
| JOYBUTTONDOWN (button : Z)
| JOYBUTTONUP (button : Z)
| JOYHATMOTION (hat : Z) (value : Z * Z)
| OTHER.

(** [event.button == BTN_MAP[c]] *)
Definition is_button (button : Z) (c : control) : bool :=
  match BTN_MAP c with
  | Some index => button =? index
  | None => false
  end.

(** The loop keeps [last_commands] in a local variable next to the
    [App] object [self]. *)
Record loop := mkLoop { self : App; last_commands : motor -> string }.

(** [last_commands = {motor: "" for motor in MOTOR_MAP}] *)
Definition init_loop (a : App) : loop := mkLoop a (fun _ => EmptyString).

(** What one iteration of the [while] loop reads from outside: the clock
    at the top of the iteration, the pending events, the clock inside the
    [update] call of each motor, and the joystick. *)
Record inputs := mkInputs {
  current_time : Q;
  events : list event;
  pid_time : motor -> Q;
  get_axis : Z -> Q;
  get_button : Z -> bool
}.

(** [AXIS_MAP = {'LX': 0, 'LY': 1, 'RX': 2, 'RY': 3}] *)
Definition AXIS_LX : Z := 0.
Definition AXIS_LY : Z := 1.
Definition AXIS_RX : Z := 2.
Definition AXIS_RY : Z := 3.

(** The command resolved for an enabled motor from the output of its
    controller (the [if abs(...) > PID_TARGET_THRESHOLD] statement and the
    f-string after it). *)
Definition hold_speed (pid_output : Q) : Z :=
  Py.int_of_float (Py.min (Qabs pid_output) 255).

Definition hold_direction (m : motor) (pid_output : Q) : string :=
  if motor_eqb m S2 || motor_eqb m S3
  then (if Py.ltb 0 pid_output then "f" else "b")
  else (if Py.ltb 0 pid_output then "b" else "f").

Definition hold_command (m : motor) (state : pid_state) (current : Z) (pid_output : Q)
  : string :=
  let '(speed, direction) :=
    if Z.abs (target state - current) >? PID_TARGET_THRESHOLD
    then (hold_speed pid_output, hold_direction m pid_output)
    else (0, "s"%string) in
  fmt_cmd (MOTOR_MAP m) direction speed.

(** The recurring statement
    [if cmd != last_commands[m]: self.send_command(cmd); last_commands[m] = cmd]. *)
Definition send_if_new (s : loop) (m : motor) (cmd : string) : loop :=
  if negb (String.eqb cmd (last_commands s m))
  then mkLoop (send_command (self s) cmd) (upd (last_commands s) m cmd)
  else s.

(** The [elif cmd != "stop" and cmd != last_commands.get(motor_text)]
    branch of a pair: the stop of the other member, then the command. *)
Definition pair_drive (s : loop) (motor_text other : motor) (cmd : string) : loop :=
  if negb (String.eqb cmd (last_commands s motor_text))
  then
    let a1 := send_command (self s) (stop_cmd other) in
    let a2 := send_command a1 cmd in
    mkLoop a2 (upd (upd (last_commands s) motor_text cmd) other (stop_cmd other))
  else s.

(** The [if cmd == "stop" and (...)] branch of a pair. *)
Definition pair_stop (s : loop) (neg pos : motor) : loop :=
  if negb (String.eqb (last_commands s neg) (stop_cmd neg))
     || negb (String.eqb (last_commands s pos) (stop_cmd pos))
  then
    let a1 := send_command (self s) (stop_cmd neg) in
    let a2 := send_command a1 (stop_cmd pos) in
    mkLoop a2 (upd (upd (last_commands s) neg (stop_cmd neg)) pos (stop_cmd pos))
  else s.

(** The S1 block: the two bumpers. *)
Definition actuator (s : loop) (lb rb : bool) : loop :=
  let cmd :=
    if lb then fmt_cmd (MOTOR_MAP S1) "f" 255
    else if rb then fmt_cmd (MOTOR_MAP S1) "b" 255
    else fmt_cmd (MOTOR_MAP S1) "s" 0 in
  send_if_new s S1 cmd.

Section Loop.

Variable rnd : Q -> Q.

(** [current_time - self.last_press_times[c] > delay] *)
Definition debounced (a : App) (now : Q) (c : control) (delay : Q) : bool :=
  Py.ltb delay (rnd (now - last_press_times a c)).

(** The [if event.type == pygame.JOYBUTTONDOWN] block. *)
Definition on_button_down (a : App) (now : Q) (button : Z) : App :=
  if is_button button Y && debounced a now Y BUTTON_DEBOUNCE_DELAY then
    _toggle_save_pos_pid (set_last_press_time a Y now) M2
  else if is_button button B && debounced a now B BUTTON_DEBOUNCE_DELAY then
    _toggle_save_pos_pid (set_last_press_time a B now) S3
  else if is_button button X && debounced a now X BUTTON_DEBOUNCE_DELAY then
    _toggle_save_pos_pid (set_last_press_time a X now) M3
  else if is_button button A && debounced a now A BUTTON_DEBOUNCE_DELAY then
    _toggle_save_pos_pid (set_last_press_time a A now) M1
  else if is_button button R_STICK && debounced a now R_STICK BUTTON_DEBOUNCE_DELAY then
    _toggle_pid (set_last_press_time a R_STICK now) M2 true
  else if is_button button L_STICK && debounced a now L_STICK BUTTON_DEBOUNCE_DELAY then
    _toggle_pid (set_last_press_time a L_STICK now) M1 true
  else if is_button button BACK && debounced a now BACK DPAD_DEBOUNCE_DELAY then
    toggle_all_pid_zero_mode (set_last_press_time a BACK now)
  else a.

(** The [if event.type == pygame.JOYHATMOTION and event.hat == 0]
    block. *)
Definition on_hat_motion (a : App) (hat : Z) (value : Z * Z) : App :=
  if hat =? 0 then
    match value with
    | (1, 0) => _toggle_pid a S2 true
    | (-1, 0) => _toggle_pid a M4 true
    | (0, 1) => _toggle_pid a S3 true
    | (0, -1) => _toggle_pid a M3 true
    | _ => a
    end
  else a.

(** One event of [for event in pygame.event.get()], the QUIT event
    apart. *)
Definition on_event (a : App) (now : Q) (e : event) : App :=
  match e with
  | JOYBUTTONDOWN button => on_button_down a now button
  | JOYHATMOTION hat value => on_hat_motion a hat value
  | _ => a
  end.

(** The event loop; the flag is [true] when a QUIT event made the thread
    return. *)
Fixpoint process_events (a : App) (now : Q) (es : list event) : App * bool :=
  match es with
  | [] => (a, false)
  | QUIT :: _ => (a, true)
  | e :: es' => process_events (on_event a now e) now es'
  end.

(** The body of [for motor, state in self.pid_states.items()]. *)
Definition hold_motor (clock : motor -> Q) (s : loop) (m : motor) : loop :=
  let state := pid_states (self s) m in
  if enabled state then
    let '(p, pid_output) :=
      PID.update rnd (pid_controllers (self s) m) (clock m)
        (inject_Z (current_encoders (self s) m)) in
    let a1 := set_pid_controller (self s) m p in
    send_if_new (mkLoop a1 (last_commands s)) m
      (hold_command m state (current_encoders a1 m) pid_output)
  else s.

(** [speed = int(abs(v)*255)] *)
Definition manual_speed (v : Q) : Z := Py.int_of_float (rnd (Qabs v * 255)).

(** ['f' if v > JOYSTICK_DEADZONE else 'b' if v < -JOYSTICK_DEADZONE else 's'] *)
Definition manual_direction (v : Q) : string :=
  if Py.ltb JOYSTICK_DEADZONE v then "f"
  else if Py.ltb v (- JOYSTICK_DEADZONE) then "b"
  else "s".

(** The command of the M1 and M2 blocks. *)
Definition manual_command (m : motor) (v : Q) : string :=
  fmt_cmd (MOTOR_MAP m) (manual_direction v) (manual_speed v).

(** The M1 block ([v] is [ly]) and the M2 block ([v] is [ry]). *)
Definition manual_motor (s : loop) (m : motor) (v : Q) : loop :=
  if negb (enabled (pid_states (self s) m))
  then send_if_new s m (manual_command m v)
  else s.

(** The M4/S2 block ([neg = M4], [pos = S2], [x] is [lx]) and the M3/S3
    block ([neg = M3], [pos = S3], [x] is [rx]). *)
Definition exclusive_pair (s : loop) (neg pos : motor) (x : Q) : loop :=
  if negb (enabled (pid_states (self s) neg)) && negb (enabled (pid_states (self s) pos))
  then
    let speed := manual_speed x in
    if Py.ltb JOYSTICK_DEADZONE x then
      pair_drive s pos neg (fmt_cmd (MOTOR_MAP pos) "f" speed)
    else if Py.ltb x (- JOYSTICK_DEADZONE) then
      pair_drive s neg pos (fmt_cmd (MOTOR_MAP neg) "f" speed)
    else pair_stop s neg pos
  else s.

(** The part of an iteration after the event loop. *)
Definition dispatch (i : inputs) (s : loop) : loop :=
  let s1 := fold_left (hold_motor (pid_time i)) pid_motors s in
  let lx := get_axis i AXIS_LX in
  let ly := (- get_axis i AXIS_LY)%Q in
  let rx := get_axis i AXIS_RX in
  let ry := (- get_axis i AXIS_RY)%Q in
  let s2 := manual_motor s1 M1 ly in
  let s3 := exclusive_pair s2 M4 S2 lx in
  let s4 := manual_motor s3 M2 ry in
  let s5 := exclusive_pair s4 M3 S3 rx in
  let lb := match BTN_MAP LB with Some b => get_button i b | None => false end in
  let rb := match BTN_MAP RB with Some b => get_button i b | None => false end in
  actuator s5 lb rb.

(** One iteration of the [while] loop; the flag is [true] when the
    thread returned on a QUIT event. *)
Definition tick (i : inputs) (s : loop) : loop * bool :=
  let '(a, quit) := process_events (self s) (current_time i) (events i) in
  let s0 := mkLoop a (last_commands s) in
  if quit then (s0, true) else (dispatch i s0, false).

End Loop.

(** ** Telemetry *)

(** [encoder_map = {'E1':'M1', 'E2':'M2', 'E3':'M3', 'E4':'M4', 'E5':'S2', 'E6':'S3'}],
    looked up with [.get]. *)
Definition encoder_map (key : string) : option motor :=
  if String.eqb key "E1" then Some M1
  else if String.eqb key "E2" then Some M2
  else if String.eqb key "E3" then Some M3
  else if String.eqb key "E4" then Some M4
  else if String.eqb key "E5" then Some S2
  else if String.eqb key "E6" then Some S3
  else None.

(** The body of [for part in data.split('|')] in
    [App.process_gui_queue]: the [try] block, with [continue] on
    [ValueError], [KeyError] and [IndexError].  The state is the local list
    [encoder_values] and [self.current_encoders]. *)
Definition update_encoders_part (st : list Z * (motor -> Z)) (part : string)
  : list Z * (motor -> Z) :=
  let '(encoder_values, encoders) := st in
  match Py.split ":" part with
  | [key; val_str] =>
      match Py.int_of_str (Py.tail key) with
      | None => st
      | Some n =>
          let encoder_index := n - 1 in
          match Py.int_of_str val_str with
          | None => st
          | Some v =>
              match Py.list_set encoder_values encoder_index v with
              | None => st
              | Some encoder_values' =>
                  match encoder_map key with
                  | Some motor => (encoder_values', upd encoders motor v)
                  | None => (encoder_values', encoders)
                  end
              end
          end
      end
  | _ => st
  end.

(** The loop over the parts of a frame. *)
Definition update_encoders_parts (parts : list string) (encoders : motor -> Z)
  : list Z * (motor -> Z) :=
  fold_left update_encoders_part parts ([0; 0; 0; 0; 0; 0], encoders).

(** The ["update_encoders"] message of [App.process_gui_queue]. *)
Definition update_encoders (a : App) (data : string) : App :=
  let '(_, encoders) := update_encoders_parts (Py.split "|" data) (current_encoders a) in
  mkApp (pid_controllers a) (pid_states a) encoders
        (last_press_times a) (all_motors_zero_active a)
        (serial_open a) (serial_out a).

(** One line of [App.read_from_serial], queued when it starts with the
    marker and then processed by the message loop. *)
Definition read_line (a : App) (raw : string) : App :=
  let line := Py.strip raw in
  if String.prefix "E1:" line then update_encoders a line else a.

(** ** The graph window *)

Module Graph.

(** [self.data_points = 200] *)
Definition data_points : nat := 200.

(** [d.append(x)] on a [collections.deque] with [maxlen]: when the
    deque is full the oldest entry is dropped. *)
Definition deque_append (maxlen : nat) (d : list Z) (x : Z) : list Z :=
  let d' := d ++ [x] in
  skipn (length d' - maxlen) d'.

(** The state of a [GraphWindow]: [encoder_data] holds the deques of the
    keys [E1] to [E6], in this order. *)
Record GraphWindow := mkGraph {
  is_running : bool;
  encoder_data : list (list Z);
  time_data : list Z;
  time_step : Z
}.

(** [GraphWindow.__init__] *)
Definition init : GraphWindow := mkGraph true (repeat [] 6) [] 0.

(** [GraphWindow.toggle_run] *)
Definition toggle_run (g : GraphWindow) : GraphWindow :=
  mkGraph (negb (is_running g)) (encoder_data g) (time_data g) (time_step g).

(** [for i in range(6): self.encoder_data[f'E{i+1}'].append(new_data[i])],
    from index [i] on; the flag is [false] when [new_data[i]] raised
    [IndexError], the deques after it being left as they were. *)
Fixpoint append_each (i : nat) (ds : list (list Z)) (new_data : list Z)
  : list (list Z) * bool :=
  match ds with
  | [] => ([], true)
  | d :: ds' =>
      match nth_error new_data i with
      | None => (d :: ds', false)
      | Some x =>
          let '(r, ok) := append_each (S i) ds' new_data in
          (deque_append data_points d x :: r, ok)
      end
  end.

(** [GraphWindow.update_data] *)
Definition update_data (g : GraphWindow) (new_data : list Z) : GraphWindow * bool :=
  if negb (is_running g) then (g, true)
  else
    let time_data' := deque_append data_points (time_data g) (time_step g) in
    let time_step' := time_step g + 1 in
    let '(encoder_data', ok) := append_each 0 (encoder_data g) new_data in
    (mkGraph (is_running g) encoder_data' time_data' time_step', ok).

(** [zip] over the unpacked [rows]: the columns of [rows], as many as
    the shortest row has entries. *)
Definition zip_star (rows : list (list Z)) : list (list Z) :=
  match rows with
  | [] => []
  | r :: rs =>
      let n := fold_left Nat.min (map (@length Z) rs) (length r) in
      map (fun k => map (fun row => nth k row 0) rows) (seq 0 n)
  end.

(** ["Time," + ",".join([f"E{i+1}" for i in range(6)]) + "\n"] *)
Definition header : string :=
  ("Time," ++ String.concat "," (map (fun i => "E" ++ Py.str (Z.of_nat i + 1)) (seq 0 6))
   ++ LF)%string.

(** [','.join(map(str, row)) + '\n'] *)
Definition row_text (row : list Z) : string :=
  (String.concat "," (map Py.str row) ++ LF)%string.

(** [GraphWindow.export_data]: what is written to the chosen file, one
    string for each [f.write]; [None] when the dialog was cancelled.  Errors
    of the file system are outside the model. *)
Definition export_data (g : GraphWindow) (filepath : string) : option (list string) :=
  if String.eqb filepath EmptyString then None
  else Some (header :: map row_text (zip_star (time_data g :: encoder_data g))).

(** A user of the window: telemetry values and presses of the pause
    button. *)
Inductive op :=
| Data (new_data : list Z)
| ToggleRun.

(** The window after a sequence of operations; the flag is [true] when
    no [update_data] raised. *)
Fixpoint run (g : GraphWindow) (ops : list op) : GraphWindow * bool :=
  match ops with
  | [] => (g, true)
  | Data new_data :: ops' =>
      let '(g', ok) := update_data g new_data in
      let '(g'', ok') := run g' ops' in (g'', ok && ok')
  | ToggleRun :: ops' => run (toggle_run g) ops'
  end.

End Graph.

(** The ["update_encoders"] message of [App.process_gui_queue] with the
    graph window, if one is open; the flag is [false] when [update_data]
    raised. *)
Definition process_update_encoders (a : App) (graph_window : option Graph.GraphWindow)
           (data : string) : App * option Graph.GraphWindow * bool :=
  let '(encoder_values, encoders) :=
    update_encoders_parts (Py.split "|" data) (current_encoders a) in
  let a' := mkApp (pid_controllers a) (pid_states a) encoders
                  (last_press_times a) (all_motors_zero_active a)
                  (serial_open a) (serial_out a) in
  match graph_window with
  | Some g =>
      let '(g', ok) := Graph.update_data g encoder_values in (a', Some g', ok)
  | None => (a', None, true)
  end.

(** ** The workspace visualization *)

Module Workspace.

(** A measured position, the list [[x, y, z]] of the tables. *)
Definition point : Type := (Q * Q * Q)%type.

(** The three joints of one configuration of the arm. *)
Record config := mkConfig { end_effector : point; link1 : point; base : point }.

(** [max_length_points], in the order of the dictionary; a decimal
    literal stands for its decimal value. *)
Definition max_length_points : list (string * config) :=
  [("Zero-Zero"%string,
    mkConfig (65 # 10, -(13 # 10), 2) (65 # 10, 172 # 10, 14 # 10) (65 # 10, 325 # 10, 4));
   ("Up-Up"%string,
    mkConfig (65 # 10, 20, 19) (65 # 10, 165 # 10, 10) (65 # 10, 325 # 10, 4));
   ("Up-Right"%string,
    mkConfig (10, 24, 17) (65 # 10, 175 # 10, 75 # 10) (65 # 10, 325 # 10, 4));
   ("Up-Left"%string,
    mkConfig (125 # 100, 20, 165 # 10) (45 # 10, 16, 45 # 10) (65 # 10, 325 # 10, 4));
   ("Right-Right"%string,
    mkConfig (-(11), 7, -(35 # 10)) (3, 17, 14 # 10) (65 # 10, 325 # 10, 4));
   ("Left-Left"%string,
    mkConfig (21, 4, -(35 # 10)) (845 # 100, 165 # 10, 14 # 10) (65 # 10, 325 # 10, 4))]%Q.

Section Rounding.

Variable rnd : Q -> Q.

(** [[p[0], p[1] + 10, p[2]]] *)
Definition shorten (p : point) : point :=
  let '(x, y, z) := p in (x, rnd (y + 10), z).

(** The loop that fills [min_length_points] from a table. *)
Definition min_length_of (table : list (string * config)) : list (string * config) :=
  map (fun entry =>
         let '(name, c) := entry in
         (name, mkConfig (shorten (end_effector c)) (shorten (link1 c)) (shorten (base c))))
      table.

Definition min_length_points : list (string * config) := min_length_of max_length_points.

(** The positions that [plot_arm] draws for a configuration: the ends of
    its two segments and the anchors of its three labels. *)
Definition joints (c : config) : list point := [base c; link1 c; end_effector c].

(** Every position drawn by the two loops over [plot_arm], the
    maximal-length configurations first. *)
Definition plotted (table : list (string * config)) : list point :=
  flat_map (fun entry => joints (snd entry)) (table ++ min_length_of table).

(** [all_end_effectors] after the two loops. *)
Definition all_end_effectors (table : list (string * config)) : list point :=
  map (fun entry => end_effector (snd entry)) (table ++ min_length_of table).

End Rounding.

(** Inside the axis limits [set_xlim(-15, 25)], [set_ylim(-5, 55)],
    [set_zlim(-5, 25)]. *)
Definition in_view (p : point) : Prop :=
  let '(x, y, z) := p in
  (-(15) <= x /\ x <= 25 /\ -(5) <= y /\ y <= 55 /\ -(5) <= z /\ z <= 25)%Q.

(** Inside the limits with 10 cm to spare along y. *)
Definition in_view_extended (p : point) : Prop :=
  let '(x, y, z) := p in
  (-(15) <= x /\ x <= 25 /\ -(5) <= y /\ y <= 45 /\ -(5) <= z /\ z <= 25)%Q.

End Workspace.

(** ** Closed forms of the dispatch *)

(** The command that the hold block resolves for [m] in state [s]. *)
Definition hold_resolved rnd (clock : motor -> Q) (s : loop) (m : motor) : string :=
  hold_command m (pid_states (self s) m) (current_encoders (self s) m)
    (snd (PID.update rnd (pid_controllers (self s) m) (clock m)
            (inject_Z (current_encoders (self s) m)))).

(** What the hold block of [m] writes. *)
Definition hold_writes rnd (clock : motor -> Q) (s : loop) (m : motor) : list string :=
  if serial_open (self s) && enabled (pid_states (self s) m)
     && negb (String.eqb (hold_resolved rnd clock s m) (last_commands s m))
  then [hold_resolved rnd clock s m] else [].

(** What the M1 or M2 block writes. *)
Definition manual_writes rnd (s : loop) (m : motor) (v : Q) : list string :=
  if serial_open (self s) && negb (enabled (pid_states (self s) m))
     && negb (String.eqb (manual_command rnd m v) (last_commands s m))
  then [manual_command rnd m v] else [].

(** What the block of a pair writes. *)
Definition pair_writes rnd (s : loop) (neg pos : motor) (x : Q) : list string :=
  if serial_open (self s)
     && negb (enabled (pid_states (self s) neg))
     && negb (enabled (pid_states (self s) pos))
  then
    if Py.ltb JOYSTICK_DEADZONE x then
      let cmd := fmt_cmd (MOTOR_MAP pos) "f" (manual_speed rnd x) in
      if negb (String.eqb cmd (last_commands s pos)) then [stop_cmd neg; cmd] else []
    else if Py.ltb x (- JOYSTICK_DEADZONE) then
      let cmd := fmt_cmd (MOTOR_MAP neg) "f" (manual_speed rnd x) in
      if negb (String.eqb cmd (last_commands s neg)) then [stop_cmd pos; cmd] else []
    else
      if negb (String.eqb (last_commands s neg) (stop_cmd neg))
         || negb (String.eqb (last_commands s pos) (stop_cmd pos))
      then [stop_cmd neg; stop_cmd pos] else []
  else [].

(** The command of the S1 block. *)
Definition actuator_command (lb rb : bool) : string :=
  if lb then fmt_cmd (MOTOR_MAP S1) "f" 255
  else if rb then fmt_cmd (MOTOR_MAP S1) "b" 255
  else fmt_cmd (MOTOR_MAP S1) "s" 0.

(** What the S1 block writes. *)
Definition actuator_writes (s : loop) (lb rb : bool) : list string :=
  if serial_open (self s)
     && negb (String.eqb (actuator_command lb rb) (last_commands s S1))
  then [actuator_command lb rb] else [].

(** The joystick readings of an iteration. *)
Definition lx (i : inputs) : Q := get_axis i AXIS_LX.
Definition ly (i : inputs) : Q := - get_axis i AXIS_LY.
Definition rx (i : inputs) : Q := get_axis i AXIS_RX.
Definition ry (i : inputs) : Q := - get_axis i AXIS_RY.
Definition lb (i : inputs) : bool := get_button i 4.
Definition rb (i : inputs) : bool := get_button i 5.

(** What the dispatch of one iteration writes, block after block, each
    block read off the state at the start of the dispatch. *)
Definition dispatch_writes rnd (i : inputs) (s : loop) : list string :=
  concat (map (hold_writes rnd (pid_time i) s) pid_motors)
  ++ manual_writes rnd s M1 (ly i)
  ++ pair_writes rnd s M4 S2 (lx i)
  ++ manual_writes rnd s M2 (ry i)
  ++ pair_writes rnd s M3 S3 (rx i)
  ++ actuator_writes s (lb i) (rb i).

(** The command that the block of a pair in manual mode resolves for
    one member: the forward command when the stick selects the member,
    nothing otherwise (the stops of a pair are sent along, not resolved
    per channel). *)
Definition pair_resolved rnd (s : loop) (neg pos : motor) (x : Q) (member : motor)
  : option string :=
  if enabled (pid_states (self s) neg) || enabled (pid_states (self s) pos) then None
  else if Py.ltb JOYSTICK_DEADZONE x then
    if motor_eqb member pos
    then Some (fmt_cmd (MOTOR_MAP pos) "f" (manual_speed rnd x)) else None
  else if Py.ltb x (- JOYSTICK_DEADZONE) then
    if motor_eqb member neg
    then Some (fmt_cmd (MOTOR_MAP neg) "f" (manual_speed rnd x)) else None
  else None.

(** The command that the dispatch resolves for the channel of [m] and
    compares with [last_commands[m]]. *)
Definition resolved rnd (i : inputs) (s : loop) (m : motor) : option string :=
  if existsb (motor_eqb m) pid_motors && enabled (pid_states (self s) m)
  then Some (hold_resolved rnd (pid_time i) s m)
  else
    match m with
    | S1 => Some (actuator_command (lb i) (rb i))
    | M1 => Some (manual_command rnd M1 (ly i))
    | M2 => Some (manual_command rnd M2 (ry i))
    | M4 | S2 => pair_resolved rnd s M4 S2 (lx i) m
    | M3 | S3 => pair_resolved rnd s M3 S3 (rx i) m
    end.

(** The motors of the two exclusive pairs. *)
Definition pair_motors : list motor := [M3; M4; S2; S3].

(** The record of motor [m] says that it is at rest: its stop command,
    or the empty record that the loop starts with. *)
Definition idle (m : motor) (c : string) : Prop := c = stop_cmd m \/ c = EmptyString.

(** At least one member of the pair is at rest by the records. *)
Definition pair_settled (s : loop) (neg pos : motor) : Prop :=
  idle neg (last_commands s neg) \/ idle pos (last_commands s pos).

(** A run of iterations without events. *)
Definition dispatches rnd (ins : list inputs) (s : loop) : loop :=
  fold_left (fun s' i => dispatch rnd i s') ins s.

(** [s'] differs from [s] only in what was written, and in the last
    command and the controller of the motors in [C]. *)
Definition untouched (C : motor -> Prop) (s s' : loop) : Prop :=
  pid_states (self s') = pid_states (self s) /\
  current_encoders (self s') = current_encoders (self s) /\
  serial_open (self s') = serial_open (self s) /\
  forall m, ~ C m ->
    last_commands s' m = last_commands s m /\
    pid_controllers (self s') m = pid_controllers (self s) m.

(** The channel of a command: the text before its first colon. *)
Fixpoint channel_of (cmd : string) : string :=
  match cmd with
  | EmptyString => EmptyString
  | String c t => if Ascii.eqb c ":" then EmptyString else String c (channel_of t)
  end.

(** The command is addressed to motor [m]. *)
Definition on_channel (m : motor) (cmd : string) : bool :=
  String.eqb (channel_of cmd) (Py.str (MOTOR_MAP m)).

(** No command of the stream repeats the previous command of its
    channel; [sent] maps the channels seen so far to their last command. *)
Fixpoint deduplicated_from (sent : list (string * string)) (w : list string) : bool :=
  match w with
  | [] => true
  | c :: w' =>
      match find (fun p => String.eqb (fst p) (channel_of c)) sent with
      | Some (_, prev) =>
          if String.eqb prev c then false
          else deduplicated_from ((channel_of c, c) :: sent) w'
      | None => deduplicated_from ((channel_of c, c) :: sent) w'
      end
  end.

Definition deduplicated (w : list string) : bool := deduplicated_from [] w.

(** ** Statements of the specification *)

(** The direction that the specification gives for the hold mode: on a
    positive output the two reversed axes go backward and the others
    forward. *)
Definition claimed_hold_direction (m : motor) (pid_output : Q) : string :=
  match m with
  | S2 | S3 => if Py.ltb 0 pid_output then "b" else "f"
  | _ => if Py.ltb 0 pid_output then "f" else "b"
  end.

(** [round(x)] as the specification uses it for the joystick speed: the
    nearest integer, a tie going to the even one. *)
Definition claimed_round (x : Q) : Z :=
  let f := Qfloor x in
  let r := (x - inject_Z f)%Q in
  if Py.ltb r (1 # 2) then f
  else if Py.ltb (1 # 2) r then f + 1
  else if Z.even f then f else f + 1.

(** A well-formed token in the words of the specification: two fields,
    a known key and a numeric value. *)
Definition well_formed_token (part : string) : option (motor * Z) :=
  match Py.split ":" part with
  | [key; val_str] =>
      match encoder_map key, Py.int_of_str val_str with
      | Some m, Some v => Some (m, v)
      | _, _ => None
      end
  | _ => None
  end.

(** The axis table after a list of parts, as a fold of the
    specification's reading of each token. *)
Definition store_token (ce : motor -> Z) (part : string) : motor -> Z :=
  match well_formed_token part with
  | Some (m, v) => upd ce m v
  | None => ce
  end.

(** The state entry and the controller that one pass of the global
    toggle leaves for a motor, from the mode [z] being switched to. *)
Definition zero_mode_state (z : bool) (st : pid_state) : pid_state :=
  if Bool.eqb (enabled st) z then st
  else mkState z (if z then 0 else target st).

Definition zero_mode_pid (z : bool) (st : pid_state) (p : PID.PIDController)
  : PID.PIDController :=
  if Bool.eqb (enabled st) z then p
  else if z then PID.set_setpoint p 0 else p.

Definition zero_mode_out (z : bool) (a : App) (m : motor) : list string :=
  if serial_open a && enabled (pid_states a m) && negb z then [stop_cmd m] else [].

(** ** Vocabulary of the further properties *)

(** The setpoint after a sequence of calls: the argument of the last
    [set_setpoint], or the one the controller had. *)
Fixpoint last_setpoint (sp : Q) (cs : list PID.call) : Q :=
  match cs with
  | [] => sp
  | PID.SetSetpoint sp' :: cs' => last_setpoint sp' cs'
  | PID.Update _ _ :: cs' => last_setpoint sp cs'
  end.

(** The inputs [i] with another reading of one joystick axis. *)
Definition with_axis (i : inputs) (axis : Z) (v : Q) : inputs :=
  mkInputs (current_time i) (events i) (pid_time i)
           (fun a => if a =? axis then v else get_axis i a) (get_button i).

(** A command as the firmware expects it: a channel from 1 to 7, a
    direction letter and a speed from 0 to 255. *)
Definition well_formed_command (c : string) : Prop :=
  exists (m : motor) (d : string) (n : Z),
    c = fmt_cmd (MOTOR_MAP m) d n /\
    (d = "f" \/ d = "b" \/ d = "s")%string /\ 0 <= n <= 255.

(** One of the operations that a button or the d-pad applies to the
    hold mode of axis [m]. *)
Definition is_toggle (m : motor) (op : App -> App) : Prop :=
  op = (fun a => _toggle_save_pos_pid a m) \/
  exists set_to_zero, op = (fun a => _toggle_pid a m set_to_zero).

(** The controls handled by the [JOYBUTTONDOWN] block, each with its
    debounce window and its button index. *)
Definition debounced_buttons : list (control * Q * Z) :=
  [(Y, BUTTON_DEBOUNCE_DELAY, 3); (B, BUTTON_DEBOUNCE_DELAY, 1);
   (X, BUTTON_DEBOUNCE_DELAY, 2); (A, BUTTON_DEBOUNCE_DELAY, 0);
   (R_STICK, BUTTON_DEBOUNCE_DELAY, 9); (L_STICK, BUTTON_DEBOUNCE_DELAY, 8);
   (BACK, DPAD_DEBOUNCE_DELAY, 6)].

(** What a press of the control does once it has passed the debounce
    test. *)
Definition button_action (c : control) (a : App) : App :=
  match c with
  | Y => _toggle_save_pos_pid a M2
  | B => _toggle_save_pos_pid a S3
  | X => _toggle_save_pos_pid a M3
  | A => _toggle_save_pos_pid a M1
  | R_STICK => _toggle_pid a M2 true
  | L_STICK => _toggle_pid a M1 true
  | BACK => toggle_all_pid_zero_mode a
  | _ => a
  end.

(** The events for which the event loop has no action: button releases,
    presses of a button other than the seven handled ones (the bumpers and
    unmapped indices among them), motions of a hat other than hat 0, hat
    positions other than the four directions, and any other event. *)
Definition inert (e : event) : bool :=
  match e with
  | QUIT => false
  | JOYBUTTONDOWN b => negb (existsb (Z.eqb b) [0; 1; 2; 3; 6; 8; 9])
  | JOYBUTTONUP _ => true
  | JOYHATMOTION hat (x, y) =>
      negb (hat =? 0)
      || negb (existsb (fun d => (x =? fst d) && (y =? snd d))
                       [(1, 0); (-1, 0); (0, 1); (0, -1)])
  | OTHER => true
  end.

(** The motors that a stick axis drives. *)
Definition stick_motors (axis : Z) : list motor :=
  if axis =? AXIS_LY then [M1]
  else if axis =? AXIS_LX then [M4; S2]
  else if axis =? AXIS_RY then [M2]
  else if axis =? AXIS_RX then [M3; S3]
  else [].

(** The hold block of the dispatch runs for motor [m]. *)
Definition held (s : loop) (m : motor) : bool :=
  existsb (motor_eqb m) pid_motors && enabled (pid_states (self s) m).

(** Every character of the string satisfies [p]. *)
Fixpoint all_chars (p : ascii -> bool) (s : string) : bool :=
  match s with
  | EmptyString => true
  | String c t => p c && all_chars p t
  end.

(** A digit or the minus sign. *)
Definition numeric_char (c : ascii) : bool :=
  match Py.digit_value c with Some _ => true | None => Ascii.eqb c "-" end.

(** The telemetry line that carries six readings under the keys [E1]
    to [E6]. *)
Definition encoder_frame (v1 v2 v3 v4 v5 v6 : Z) : string :=
  ("E1:" ++ Py.str v1 ++ "|E2:" ++ Py.str v2 ++ "|E3:" ++ Py.str v3 ++
   "|E4:" ++ Py.str v4 ++ "|E5:" ++ Py.str v5 ++ "|E6:" ++ Py.str v6)%string.

(** The keys of [encoder_map] with their number and their axis. *)
Definition encoder_keys : list (string * Z * motor) :=
  [("E1", 1, M1); ("E2", 2, M2); ("E3", 3, M3);
   ("E4", 4, M4); ("E5", 5, S2); ("E6", 6, S3)]%string.

(** The time axis of a window: the last steps, consecutive. *)
Definition steps (time_step : Z) (n : nat) : list Z :=
  map (fun k => time_step - Z.of_nat n + Z.of_nat k) (seq 0 n).

(** * Properties *)

(** ** Python primitives *)

Lemma ltb_lt (a b : Q) : Py.ltb a b = true <-> (a < b)%Q.
Proof.
  unfold Py.ltb. rewrite negb_true_iff, <- not_true_iff_false, Qle_bool_iff.
  split; [apply Qnot_le_lt | apply Qlt_not_le].
Qed.

Lemma ltb_ge (a b : Q) : Py.ltb a b = false <-> (b <= a)%Q.
Proof.
  unfold Py.ltb. rewrite negb_false_iff. apply Qle_bool_iff.
Qed.

Lemma min_spec (a b : Q) : (Py.min a b <= a)%Q /\ (Py.min a b <= b)%Q.
Proof.
  unfold Py.min. destruct (Py.ltb b a) eqn:E.
  - apply ltb_lt in E. split; lra.
  - apply ltb_ge in E. split; lra.
Qed.

Lemma max_spec (a b : Q) : (a <= Py.max a b)%Q /\ (b <= Py.max a b)%Q.
Proof.
  unfold Py.max. destruct (Py.ltb a b) eqn:E.
  - apply ltb_lt in E. split; lra.
  - apply ltb_ge in E. split; lra.
Qed.

(** The clamp [max(lo, min(hi, x))] of [PIDController.update]. *)
Lemma clamp_bounds (lo hi x : Q) :
  (lo <= hi)%Q -> (lo <= Py.max lo (Py.min hi x) <= hi)%Q.
Proof.
  intros Hlh. split; [apply max_spec|].
  unfold Py.max. destruct (Py.ltb lo (Py.min hi x)); [apply min_spec | exact Hlh].
Qed.

(** Truncation of a non-negative float is its floor. *)
Lemma int_of_float_nonneg (x : Q) :
  (0 <= x)%Q ->
  0 <= Py.int_of_float x /\
  (inject_Z (Py.int_of_float x) <= x)%Q /\ (x < inject_Z (Py.int_of_float x + 1))%Q.
Proof.
  destruct x as [n d]. unfold Py.int_of_float, Qle, Qlt, inject_Z. simpl.
  intros Hn. rewrite Z.mul_1_r in Hn.
  rewrite Z.quot_div_nonneg by lia.
  pose proof (Z.div_mod n (Zpos d) ltac:(lia)) as Hdm.
  pose proof (Z.mod_pos_bound n (Zpos d) ltac:(lia)) as Hb.
  pose proof (Z.div_pos n (Zpos d) Hn ltac:(lia)) as Hq.
  repeat split; nia.
Qed.


(** ** The PID controller *)

Lemma run_app rnd (p : PID.PIDController) (cs ds : list PID.call) :
  PID.run rnd p (cs ++ ds) =
  (fst (PID.run rnd (fst (PID.run rnd p cs)) ds),
   snd (PID.run rnd p cs) ++ snd (PID.run rnd (fst (PID.run rnd p cs)) ds)).
Proof.
  revert p. induction cs as [|c cs IH]; intros p; simpl.
  - now destruct (PID.run rnd p ds).
  - destruct c as [sp|t v].
    + apply IH.
    + destruct (PID.update rnd p t v) as [p' y]. rewrite IH.
      destruct (PID.run rnd p' cs) as [p'' ys]. reflexivity.
Qed.

Lemma update_last_time rnd (p : PID.PIDController) (t v : Q) :
  PID.last_time (fst (PID.update rnd p t v)) <> None.
Proof.
  unfold PID.update. destruct (PID.last_time p) as [lt|] eqn:E; simpl.
  - destruct (Qeq_bool _ _); simpl; congruence.
  - discriminate.
Qed.

Lemma update_limits rnd (p : PID.PIDController) (t v : Q) :
  PID.output_limits (fst (PID.update rnd p t v)) = PID.output_limits p.
Proof.
  unfold PID.update. destruct (PID.last_time p) as [lt|]; simpl; [|reflexivity].
  now destruct (Qeq_bool _ _).
Qed.

(** What one [update] can return: the literal [0] of the two early
    returns, or a clamped value. *)
Lemma update_output rnd (p : PID.PIDController) (t v : Q) :
  snd (PID.update rnd p t v) = 0%Q \/
  exists x, snd (PID.update rnd p t v) =
            Py.max (fst (PID.output_limits p)) (Py.min (snd (PID.output_limits p)) x).
Proof.
  unfold PID.update. destruct (PID.last_time p) as [lt|]; simpl; [|now left].
  destruct (Qeq_bool _ _); simpl; [now left|].
  right. eexists. reflexivity.
Qed.

Lemma fresh_last_time rnd (cs : list PID.call) (p : PID.PIDController) :
  PID.last_time p = None ->
  (PID.last_time (fst (PID.run rnd p cs)) = None <-> PID.fresh cs = true).
Proof.
  intros Hp. induction cs as [|c cs IH] using rev_ind.
  - simpl. now split.
  - rewrite run_app. unfold PID.fresh. rewrite last_last. simpl.
    destruct c as [sp|t v]; simpl.
    + now split.
    + pose proof (update_last_time rnd (fst (PID.run rnd p cs)) t v) as Hu.
      destruct (PID.update rnd (fst (PID.run rnd p cs)) t v) as [p' y].
      simpl in *. split; [contradiction | discriminate].
Qed.

(** C6: on a controller that has received any sequence of calls since
    its construction, [last_time] is [None] exactly when no [update] came
    after the construction or after the last [set_setpoint]; in that state
    the next [update] returns [0], whatever the clock and the measured
    value, and changes nothing but the stored timestamp. *)
Theorem first_update_returns_zero :
  forall rnd kp ki kd limits (cs : list PID.call),
    let p := fst (PID.run rnd (PID.init kp ki kd limits) cs) in
    (PID.last_time p = None <-> PID.fresh cs = true) /\
    (PID.fresh cs = true ->
     forall t v, PID.update rnd p t v = (PID.prime p t, 0%Q)).
Proof.
  intros rnd kp ki kd limits cs p.
  assert (Hiff : PID.last_time p = None <-> PID.fresh cs = true)
    by (apply fresh_last_time; reflexivity).
  split; [exact Hiff|].
  intros Hf t v. apply Hiff in Hf. unfold PID.update. now rewrite Hf.
Qed.

Lemma first_update_returns_zero_witness :
  let rnd := fun q : Q => q in
  let cs := [PID.Update 10 0; PID.Update (101 # 10) 0; PID.SetSetpoint 100] in
  let p := fst (PID.run rnd (PID.init (6 # 10) (5 # 1000) (1 # 10000) PID.default_limits) cs) in
  PID.fresh cs = true /\
  PID.update rnd p 11 0 = (PID.prime p 11, 0%Q).
Proof.
  split; [reflexivity|].
  apply (first_update_returns_zero (fun q : Q => q)); reflexivity.
Defined.

Lemma run_limits rnd (cs : list PID.call) (p : PID.PIDController) :
  PID.output_limits (fst (PID.run rnd p cs)) = PID.output_limits p.
Proof.
  revert p. induction cs as [|c cs IH]; intros p; simpl; [reflexivity|].
  destruct c as [sp|t v].
  - now rewrite IH.
  - pose proof (update_limits rnd p t v) as Hu.
    destruct (PID.update rnd p t v) as [p' y]. specialize (IH p').
    destruct (PID.run rnd p' cs) as [p'' ys]. simpl in *. congruence.
Qed.

(** Every returned value is the literal [0] of an early return or lies
    within the limits, provided the limits are ordered. *)
Lemma run_outputs rnd (cs : list PID.call) (p : PID.PIDController) :
  (fst (PID.output_limits p) <= snd (PID.output_limits p))%Q ->
  Forall (fun y => y = 0%Q \/ PID.within (PID.output_limits p) y)
         (snd (PID.run rnd p cs)).
Proof.
  revert p. induction cs as [|c cs IH]; intros p Hlh; simpl; [constructor|].
  destruct c as [sp|t v].
  - apply (IH (PID.set_setpoint p sp)). exact Hlh.
  - pose proof (update_limits rnd p t v) as Hu.
    pose proof (update_output rnd p t v) as Ho.
    destruct (PID.update rnd p t v) as [p' y]. specialize (IH p').
    destruct (PID.run rnd p' cs) as [p'' ys]. simpl in *.
    rewrite Hu in IH. constructor; [|apply IH; exact Hlh].
    destruct Ho as [-> | [x ->]]; [now left|right].
    apply clamp_bounds. exact Hlh.
Qed.

(** C7 as stated fails: with limits [(10, 20)] the priming call
    returns [0], which is below the lower limit. *)
Lemma update_outside_limits :
  ~ (forall rnd (p : PID.PIDController) (cs : list PID.call),
        Forall (PID.within (PID.output_limits p)) (snd (PID.run rnd p cs))).
Proof.
  intros H.
  specialize (H (fun q => q) (PID.init 1 0 0 (10, 20)%Q) [PID.Update 0 0]).
  simpl in H. inversion H as [|y ys [Hlo _] _]. simpl in Hlo.
  revert Hlo. unfold Qle. simpl. lia.
Qed.

(** C7 (amended): when the limits enclose [0], as the default
    [(-255, 255)] does, every value returned by any sequence of calls lies
    within the limits. *)
Theorem update_within_limits :
  forall rnd (p : PID.PIDController) (cs : list PID.call),
    (fst (PID.output_limits p) <= 0)%Q ->
    (0 <= snd (PID.output_limits p))%Q ->
    Forall (PID.within (PID.output_limits p)) (snd (PID.run rnd p cs)).
Proof.
  intros rnd p cs Hlo Hhi.
  eapply Forall_impl; [|apply run_outputs; lra].
  intros y [-> | Hy]; [split; assumption | exact Hy].
Qed.

Lemma update_within_limits_witness :
  Forall (PID.within PID.default_limits)
    (snd (PID.run (fun q => q)
            (PID.init (6 # 10) (5 # 1000) (1 # 10000) PID.default_limits)
            [PID.SetSetpoint 100; PID.Update 10 0; PID.Update (101 # 10) 0;
             PID.Update (102 # 10) (-(5000 # 1))])).
Proof.
  apply (update_within_limits (fun q => q)
           (PID.init (6 # 10) (5 # 1000) (1 # 10000) PID.default_limits));
    simpl; unfold Qle; simpl; lia.
Defined.

(** ** Hold-mode toggles *)

Lemma motor_eqb_eq (a b : motor) : motor_eqb a b = true <-> a = b.
Proof. destruct a, b; simpl; split; congruence. Qed.

Lemma motor_eqb_refl (a : motor) : motor_eqb a a = true.
Proof. now destruct a. Qed.

Lemma upd_same {T : Type} (d : motor -> T) (m : motor) (v : T) : upd d m v m = v.
Proof. unfold upd. now rewrite motor_eqb_refl. Qed.

Lemma upd_other {T : Type} (d : motor -> T) (m m' : motor) (v : T) :
  m' <> m -> upd d m v m' = d m'.
Proof.
  intros Hne. unfold upd. destruct (motor_eqb m' m) eqn:E; [|reflexivity].
  apply motor_eqb_eq in E. contradiction.
Qed.

Lemma toggle_all_body_spec (a : App) (m : motor) :
  let z := all_motors_zero_active a in
  let a' := toggle_all_body a m in
  all_motors_zero_active a' = z /\
  serial_open a' = serial_open a /\
  current_encoders a' = current_encoders a /\
  last_press_times a' = last_press_times a /\
  (forall m', pid_states a' m' =
              upd (pid_states a) m (zero_mode_state z (pid_states a m)) m') /\
  (forall m', pid_controllers a' m' =
              upd (pid_controllers a) m
                (zero_mode_pid z (pid_states a m) (pid_controllers a m)) m') /\
  serial_out a' = serial_out a ++ zero_mode_out z a m.
Proof.
  destruct a as [pc ps ce lp z so out].
  unfold toggle_all_body, zero_mode_state, zero_mode_pid, zero_mode_out,
    _update_pid_ui, send_command, set_pid_state, set_pid_controller, stop_cmd.
  cbn [pid_states pid_controllers all_motors_zero_active serial_open serial_out
       current_encoders last_press_times].
  destruct (ps m) as [en tg] eqn:Hps.
  destruct en, z, so;
    repeat (cbn [Bool.eqb negb andb enabled target pid_states pid_controllers
                 all_motors_zero_active serial_open serial_out
                 current_encoders last_press_times];
            rewrite ?upd_same);
    rewrite ?app_nil_r; repeat split; auto;
    try (intros m'; unfold upd; destruct (motor_eqb m' m) eqn:E; auto;
         apply motor_eqb_eq in E; subst; auto).
Qed.

Lemma zero_mode_state_idem (z : bool) (st : pid_state) :
  zero_mode_state z (zero_mode_state z st) = zero_mode_state z st.
Proof. destruct st as [[] tg], z; reflexivity. Qed.

Lemma toggle_all_fold (l : list motor) :
  NoDup l ->
  forall a : App,
    let z := all_motors_zero_active a in
    let a' := fold_left toggle_all_body l a in
    all_motors_zero_active a' = z /\
    serial_open a' = serial_open a /\
    (forall m, pid_states a' m =
               if existsb (motor_eqb m) l
               then zero_mode_state z (pid_states a m) else pid_states a m) /\
    (forall m, pid_controllers a' m =
               if existsb (motor_eqb m) l
               then zero_mode_pid z (pid_states a m) (pid_controllers a m)
               else pid_controllers a m) /\
    serial_out a' = serial_out a ++ concat (map (zero_mode_out z a) l).
Proof.
  induction 1 as [|x l Hx Hnd IH]; intros a; cbn zeta.
  - simpl. rewrite app_nil_r. repeat split; reflexivity.
  - cbn [fold_left].
    destruct (toggle_all_body_spec a x) as (Hz & Ho & _ & _ & Hs & Hp & Hw).
    destruct (IH (toggle_all_body a x)) as (Hz' & Ho' & Hs' & Hp' & Hw').
    rewrite Hz in Hz', Hs', Hp', Hw'.
    assert (Hnot : forall m, existsb (motor_eqb m) l = true -> m <> x).
    { intros m Hm ->. apply Hx. apply existsb_exists in Hm.
      destruct Hm as (y & Hy & E). apply motor_eqb_eq in E. now subst. }
    split; [exact Hz'|]. split; [congruence|].
    split; [|split].
    + intros m. rewrite Hs', Hs. cbn [existsb].
      destruct (motor_eqb m x) eqn:E.
      * apply motor_eqb_eq in E. subst m. rewrite upd_same, zero_mode_state_idem.
        cbn [orb]. now destruct (existsb (motor_eqb x) l).
      * cbn [orb]. rewrite upd_other; [reflexivity|].
        intros ->. now rewrite motor_eqb_refl in E.
    + intros m. rewrite Hp', Hp, Hs. cbn [existsb].
      destruct (motor_eqb m x) eqn:E.
      * apply motor_eqb_eq in E. subst m. rewrite !upd_same. cbn [orb].
        destruct (existsb (motor_eqb x) l) eqn:El; [|reflexivity].
        now apply Hnot in El.
      * cbn [orb]. rewrite !upd_other; [reflexivity| |];
          intros ->; now rewrite motor_eqb_refl in E.
    + rewrite Hw', Hw. cbn [map concat]. rewrite <- app_assoc.
      apply (f_equal (app (serial_out a))), (f_equal (app _)), (f_equal (@concat _)).
      apply map_ext_in. intros m Hm. unfold zero_mode_out.
      rewrite Ho, Hs, upd_other; [reflexivity|].
      intros ->. contradiction.
Qed.

Lemma pid_motors_nodup : NoDup pid_motors.
Proof.
  unfold pid_motors. repeat constructor; simpl; intuition discriminate.
Qed.

(** The failing input of C3: an axis already holding a non-zero target
    keeps it when the global-zero mode is activated.  Here M2 holds
    position 50 (captured with the Y button) before the BACK button is
    pressed. *)
Lemma global_zero_keeps_held_target :
  ~ (forall a : App,
        all_motors_zero_active a = false ->
        Forall (fun m => enabled (pid_states (toggle_all_pid_zero_mode a) m) = true /\
                         target (pid_states (toggle_all_pid_zero_mode a) m) = 0)
               pid_motors).
Proof.
  intros H.
  specialize (H (_toggle_save_pos_pid (set_current_encoder (init_app true) M2 50) M2)
                eq_refl).
  apply Forall_inv_tail, Forall_inv in H. destruct H as [_ H].
  vm_compute in H. discriminate.
Qed.

(** C3: what [toggle_all_pid_zero_mode] does, and where it departs from
    the claim.  Activating the mode leaves every holdable axis enabled and
    gives an axis that was disabled the target 0 and a controller re-primed
    at setpoint 0, as claimed; but the guard of the loop compares the
    [enabled] flags only, so an axis that was already in hold mode is
    skipped: it keeps its target and its controller, whatever that target
    is, although the function announces a reset of all motors to zero (its
    log line, the action text of the BACK button and the name of its flag).
    Deactivating leaves every holdable axis disabled, with targets and
    controllers untouched. *)
Theorem toggle_all_pid_zero_mode_effect :
  forall a : App,
    let a' := toggle_all_pid_zero_mode a in
    all_motors_zero_active a' = negb (all_motors_zero_active a) /\
    Forall (fun m =>
      if all_motors_zero_active a' then
        enabled (pid_states a' m) = true /\
        (if enabled (pid_states a m)
         then pid_states a' m = pid_states a m /\
              pid_controllers a' m = pid_controllers a m
         else target (pid_states a' m) = 0 /\
              pid_controllers a' m = PID.set_setpoint (pid_controllers a m) 0)
      else
        enabled (pid_states a' m) = false /\
        target (pid_states a' m) = target (pid_states a m) /\
        pid_controllers a' m = pid_controllers a m) pid_motors.
Proof.
  intros a a'. subst a'. unfold toggle_all_pid_zero_mode.
  set (a0 := set_all_motors_zero_active a (negb (all_motors_zero_active a))).
  destruct (toggle_all_fold pid_motors pid_motors_nodup a0)
    as (Hz & _ & Hs & Hp & _).
  cbn zeta in *. rewrite Hz. split; [reflexivity|].
  apply Forall_forall. intros m Hm.
  assert (He : existsb (motor_eqb m) pid_motors = true).
  { apply existsb_exists. exists m. split; [exact Hm | apply motor_eqb_refl]. }
  rewrite Hs, Hp, He.
  unfold a0, zero_mode_state, zero_mode_pid. destruct a as [pc ps ce lp z so out].
  cbn [set_all_motors_zero_active all_motors_zero_active pid_states pid_controllers].
  destruct (ps m) as [en tg]. destruct en, z; cbn; auto.
Qed.

Lemma concat_map_if {T U : Type} (f : T -> bool) (g : T -> U) (l : list T) :
  concat (map (fun x => if f x then [g x] else []) l) = map g (filter f l).
Proof.
  induction l as [|x l IH]; simpl; [reflexivity|].
  destruct (f x); simpl; now rewrite IH.
Qed.

Lemma toggle_pid_out (a : App) (m : motor) (set_to_zero : bool) :
  serial_open a = true ->
  enabled (pid_states (_toggle_pid a m set_to_zero) m) = negb (enabled (pid_states a m)) /\
  serial_out (_toggle_pid a m set_to_zero) =
    serial_out a ++ (if enabled (pid_states a m) then [stop_cmd m] else []).
Proof.
  destruct a as [pc ps ce lp z so out]. cbn [serial_open]. intros ->.
  unfold _toggle_pid, _update_pid_ui, send_command, set_pid_state,
    set_pid_controller, stop_cmd.
  cbn [pid_states]. destruct (ps m) as [en tg].
  destruct en;
    repeat (cbn [negb enabled target pid_states pid_controllers serial_open serial_out];
            rewrite ?upd_same);
    rewrite ?app_nil_r; split; reflexivity.
Qed.

Lemma toggle_save_pos_pid_out (a : App) (m : motor) :
  serial_open a = true ->
  enabled (pid_states (_toggle_save_pos_pid a m) m) = negb (enabled (pid_states a m)) /\
  serial_out (_toggle_save_pos_pid a m) =
    serial_out a ++ (if enabled (pid_states a m) then [stop_cmd m] else []).
Proof.
  destruct a as [pc ps ce lp z so out]. cbn [serial_open]. intros ->.
  unfold _toggle_save_pos_pid, _update_pid_ui, send_command, set_pid_state,
    set_pid_controller, stop_cmd.
  cbn [pid_states]. destruct (ps m) as [en tg].
  destruct en;
    repeat (cbn [negb enabled target pid_states pid_controllers serial_open serial_out];
            rewrite ?upd_same);
    rewrite ?app_nil_r; split; reflexivity.
Qed.

Lemma toggle_all_out (a : App) :
  serial_open a = true ->
  serial_out (toggle_all_pid_zero_mode a) =
    serial_out a ++
    (if all_motors_zero_active a
     then map stop_cmd (filter (fun m => enabled (pid_states a m)) pid_motors)
     else []).
Proof.
  intros Ho. unfold toggle_all_pid_zero_mode.
  set (a0 := set_all_motors_zero_active a (negb (all_motors_zero_active a))).
  destruct (toggle_all_fold pid_motors pid_motors_nodup a0) as (_ & _ & _ & _ & Hw).
  cbn zeta in Hw. rewrite Hw. unfold zero_mode_out, a0.
  destruct a as [pc ps ce lp z so out]. cbn [serial_open] in Ho. subst so.
  cbn [set_all_motors_zero_active serial_out serial_open pid_states
       all_motors_zero_active andb].
  f_equal. destruct z; cbn [negb].
  - rewrite <- concat_map_if. f_equal. apply map_ext. intros m.
    now rewrite andb_true_r.
  - rewrite (map_ext _ (fun _ => [])).
    + reflexivity.
    + intros m. now rewrite andb_false_r.
Qed.

(** C10: with the port open, each of the three operations that can take
    an axis out of hold mode ([_toggle_pid], [_toggle_save_pos_pid] and
    the global toggle) writes the stop command ["<channel>:s:0\n"] of every
    axis it disables, and writes nothing when it enables an axis. *)
Theorem leaving_hold_sends_stop :
  forall (a : App) (m : motor) (set_to_zero : bool),
    serial_open a = true ->
    stop_cmd m = (Py.str (MOTOR_MAP m) ++ ":s:0" ++ LF)%string /\
    (enabled (pid_states (_toggle_pid a m set_to_zero) m)
       = negb (enabled (pid_states a m)) /\
     serial_out (_toggle_pid a m set_to_zero) =
       serial_out a ++ (if enabled (pid_states a m) then [stop_cmd m] else [])) /\
    (enabled (pid_states (_toggle_save_pos_pid a m) m)
       = negb (enabled (pid_states a m)) /\
     serial_out (_toggle_save_pos_pid a m) =
       serial_out a ++ (if enabled (pid_states a m) then [stop_cmd m] else [])) /\
    serial_out (toggle_all_pid_zero_mode a) =
      serial_out a ++
      (if all_motors_zero_active a
       then map stop_cmd (filter (fun m' => enabled (pid_states a m')) pid_motors)
       else []).
Proof.
  intros a m set_to_zero Ho. split; [now destruct m|].
  split; [now apply toggle_pid_out|].
  split; [now apply toggle_save_pos_pid_out | now apply toggle_all_out].
Qed.

Lemma leaving_hold_sends_stop_witness :
  let a := _toggle_pid (init_app true) S2 true in
  enabled (pid_states a S2) = true /\
  serial_out a = [] /\
  serial_out (_toggle_pid a S2 true) = [("6:s:0" ++ LF)%string].
Proof.
  split; [reflexivity|]. split; [reflexivity|].
  destruct (leaving_hold_sends_stop (_toggle_pid (init_app true) S2 true) S2 true eq_refl)
    as (_ & (_ & H) & _).
  exact H.
Defined.

(** ** Debounce of the discrete controls *)

(** The seven buttons that the [JOYBUTTONDOWN] block handles, with their
    index, window and action: the press fires exactly when the time since
    the stored timestamp exceeds the window; a firing press stores the
    timestamp, a rejected one leaves the state as it was. *)
Lemma button_debounce rnd (a : App) (now : Q) :
  let fire (c : control) (window : Q) (act : App -> App) (button : Z) :=
    on_button_down rnd a now button =
    if Py.ltb window (rnd (now - last_press_times a c)%Q)
    then act (set_last_press_time a c now) else a in
  fire A BUTTON_DEBOUNCE_DELAY (fun a' => _toggle_save_pos_pid a' M1) 0 /\
  fire B BUTTON_DEBOUNCE_DELAY (fun a' => _toggle_save_pos_pid a' S3) 1 /\
  fire X BUTTON_DEBOUNCE_DELAY (fun a' => _toggle_save_pos_pid a' M3) 2 /\
  fire Y BUTTON_DEBOUNCE_DELAY (fun a' => _toggle_save_pos_pid a' M2) 3 /\
  fire L_STICK BUTTON_DEBOUNCE_DELAY (fun a' => _toggle_pid a' M1 true) 8 /\
  fire R_STICK BUTTON_DEBOUNCE_DELAY (fun a' => _toggle_pid a' M2 true) 9 /\
  fire BACK DPAD_DEBOUNCE_DELAY toggle_all_pid_zero_mode 6.
Proof.
  cbn zeta. unfold on_button_down, debounced, is_button.
  cbn [BTN_MAP Z.eqb Pos.eqb andb]. repeat split; reflexivity.
Qed.

(** C4: the directional pad is not debounced.  A hat event toggles its
    axis whatever the clock and the stored timestamps are, and leaves the
    [dpad_*] timestamps untouched; two presses of d-pad right 100 ms apart
    (a release in between) both fire, so that S2 ends up disabled again
    with its stop command written. *)
Theorem dpad_fires_without_debounce :
  (forall rnd (a : App) (now : Q),
      on_event rnd a now (JOYHATMOTION 0 (1, 0)) = _toggle_pid a S2 true /\
      on_event rnd a now (JOYHATMOTION 0 (-1, 0)) = _toggle_pid a M4 true /\
      on_event rnd a now (JOYHATMOTION 0 (0, 1)) = _toggle_pid a S3 true /\
      on_event rnd a now (JOYHATMOTION 0 (0, -1)) = _toggle_pid a M3 true) /\
  let rnd := fun q : Q => q in
  let a1 := fst (process_events rnd (init_app true) 1000 [JOYHATMOTION 0 (1, 0)]) in
  let a2 := fst (process_events rnd a1 (100005 # 100) [JOYHATMOTION 0 (0, 0)]) in
  let a3 := fst (process_events rnd a2 (10001 # 10) [JOYHATMOTION 0 (1, 0)]) in
  enabled (pid_states a1 S2) = true /\
  enabled (pid_states a3 S2) = false /\
  serial_out a3 = [("6:s:0" ++ LF)%string] /\
  last_press_times a3 dpad_right = 0%Q.
Proof.
  split; [intros; repeat split; reflexivity|].
  cbn zeta. repeat split; reflexivity.
Qed.

(** ** Commands of the hold mode *)

(** C1 as stated fails: M1 is not one of the two reversed axes, and a
    positive controller output (here 60, target 100 from position 0) is
    dispatched as backward, ["1:b:60\n"]. *)
Lemma hold_positive_output_is_backward :
  ~ (forall (m : motor) (st : pid_state) (cur : Z) (out : Q),
        In m pid_motors ->
        Z.abs (target st - cur) > 5 ->
        (0 < out)%Q ->
        hold_command m st cur out =
        fmt_cmd (MOTOR_MAP m) (claimed_hold_direction m out) (hold_speed out)).
Proof.
  intros H.
  specialize (H M1 (mkState true 100) 0 (60 # 1)%Q).
  assert (Hc : hold_command M1 (mkState true 100) 0 (60 # 1)%Q = ("1:b:60" ++ LF)%string)
    by reflexivity.
  rewrite Hc in H. vm_compute in H.
  assert (Hin : In M1 pid_motors) by (simpl; auto).
  specialize (H Hin eq_refl eq_refl). discriminate.
Qed.

Lemma hold_speed_bounds (out : Q) :
  0 <= hold_speed out <= 255 /\
  (inject_Z (hold_speed out) <= Qabs out)%Q /\
  ((Qabs out < 255)%Q -> (Qabs out < inject_Z (hold_speed out + 1))%Q) /\
  ((255 <= Qabs out)%Q -> hold_speed out = 255).
Proof.
  unfold hold_speed, Py.min. destruct (Py.ltb 255 (Qabs out)) eqn:E.
  - apply ltb_lt in E. change (Py.int_of_float 255) with 255.
    repeat split; try lia.
    + change (inject_Z 255) with 255%Q. lra.
    + intros H. lra.
  - apply ltb_ge in E.
    destruct (int_of_float_nonneg (Qabs out) (Qabs_nonneg out)) as (H0 & Hlo & Hhi).
    repeat split; try assumption.
    + assert (Hq : (inject_Z (Py.int_of_float (Qabs out)) <= inject_Z 255)%Q)
        by (change (inject_Z 255) with 255%Q; lra).
      now rewrite <- Zle_Qle in Hq.
    + intros _. exact Hhi.
    + intros H255.
      assert (Hq : (inject_Z 255 < inject_Z (Py.int_of_float (Qabs out) + 1))%Q)
        by (change (inject_Z 255) with 255%Q; lra).
      rewrite <- Zlt_Qlt in Hq.
      assert (Hq' : (inject_Z (Py.int_of_float (Qabs out)) <= inject_Z 255)%Q)
        by (change (inject_Z 255) with 255%Q; lra).
      rewrite <- Zle_Qle in Hq'. lia.
Qed.

(** C1 (amended): for an axis in hold mode more than 5 counts away from
    its target, the command carries the channel of the axis, the speed
    [min(|output|, 255)] truncated to an integer, and a direction taken
    from the sign of the output: S2 and S3 go forward on a positive output
    and backward otherwise, every other axis goes backward on a positive
    output and forward otherwise. *)
Theorem hold_command_direction_speed :
  forall (m : motor) (st : pid_state) (cur : Z) (out : Q),
    Z.abs (target st - cur) > 5 ->
    hold_command m st cur out =
      fmt_cmd (MOTOR_MAP m) (hold_direction m out) (hold_speed out) /\
    ((0 < out)%Q ->
     hold_direction m out =
       match m with S2 | S3 => "f" | _ => "b" end%string) /\
    ((out <= 0)%Q ->
     hold_direction m out =
       match m with S2 | S3 => "b" | _ => "f" end%string) /\
    0 <= hold_speed out <= 255 /\
    (inject_Z (hold_speed out) <= Qabs out)%Q /\
    ((Qabs out < 255)%Q -> (Qabs out < inject_Z (hold_speed out + 1))%Q) /\
    ((255 <= Qabs out)%Q -> hold_speed out = 255).
Proof.
  intros m st cur out Hfar.
  split.
  { unfold hold_command, PID_TARGET_THRESHOLD.
    destruct (Z.gtb_spec (Z.abs (target st - cur)) 5) as [_|Hle]; [reflexivity|lia]. }
  split.
  { intros Hpos. apply ltb_lt in Hpos. unfold hold_direction. rewrite Hpos.
    now destruct m. }
  split.
  { intros Hneg. apply ltb_ge in Hneg. unfold hold_direction. rewrite Hneg.
    now destruct m. }
  apply hold_speed_bounds.
Qed.

Lemma hold_command_direction_speed_witness :
  hold_command S3 (mkState true 0) 40 (-(3015 # 100))%Q = ("7:b:30" ++ LF)%string /\
  hold_command M1 (mkState true 100) 0 (6015 # 100)%Q = ("1:b:60" ++ LF)%string.
Proof.
  split.
  - destruct (hold_command_direction_speed S3 (mkState true 0) 40 (-(3015 # 100))%Q eq_refl)
      as (H & _).
    rewrite H. reflexivity.
  - destruct (hold_command_direction_speed M1 (mkState true 100) 0 (6015 # 100)%Q eq_refl)
      as (H & _).
    rewrite H. reflexivity.
Defined.

(** ** Manual commands *)

(** C2 as stated fails: a deflection of 0.5 gives speed 127, not the
    rounded 128, because [int()] truncates 127.5. *)
Lemma manual_speed_truncates :
  ~ (forall rnd (m : motor) (v : Q),
        (JOYSTICK_DEADZONE <= Qabs v)%Q ->
        manual_command rnd m v =
        fmt_cmd (MOTOR_MAP m) (manual_direction v) (claimed_round (Qabs v * 255))).
Proof.
  intros H. specialize (H (fun q => q) M1 (1 # 2)%Q).
  assert (Hc : manual_command (fun q => q) M1 (1 # 2)%Q = ("1:f:127" ++ LF)%string)
    by reflexivity.
  assert (Hs : fmt_cmd (MOTOR_MAP M1) (manual_direction (1 # 2)%Q)
                 (claimed_round (Qabs (1 # 2) * 255)) = ("1:f:128" ++ LF)%string)
    by reflexivity.
  rewrite Hc, Hs in H.
  assert (Hd : (JOYSTICK_DEADZONE <= Qabs (1 # 2))%Q) by (vm_compute; discriminate).
  specialize (H Hd). discriminate.
Qed.

Lemma manual_direction_cases (v : Q) :
  ((JOYSTICK_DEADZONE < v)%Q -> manual_direction v = "f"%string) /\
  ((v < - JOYSTICK_DEADZONE)%Q -> manual_direction v = "b"%string) /\
  ((Qabs v <= JOYSTICK_DEADZONE)%Q -> manual_direction v = "s"%string).
Proof.
  unfold manual_direction. repeat split.
  - intros H. apply ltb_lt in H. now rewrite H.
  - intros H.
    assert (Hn : Py.ltb JOYSTICK_DEADZONE v = false).
    { apply ltb_ge. unfold JOYSTICK_DEADZONE in *. lra. }
    apply ltb_lt in H. now rewrite Hn, H.
  - intros H. apply Qabs_Qle_condition in H. destruct H as [Hlo Hhi].
    assert (Hn : Py.ltb JOYSTICK_DEADZONE v = false) by now apply ltb_ge.
    assert (Hm : Py.ltb v (- JOYSTICK_DEADZONE) = false) by now apply ltb_ge.
    now rewrite Hn, Hm.
Qed.

(** C2 (amended): for M1 (driven by LY) and M2 (driven by RY) out of
    hold mode the block resolves a command on the channel of the motor:
    a stop when the value is within the deadzone 0.15; otherwise forward
    for a positive value and backward for a negative one, at speed
    [int(|value| * 255)], which, when the product is exact (as it is for
    the readings k/32768 of a 16-bit axis), is the product truncated to an
    integer. *)
Theorem manual_command_direction_speed :
  forall rnd (s : loop) (m : motor) (v : Q),
    (enabled (pid_states (self s) m) = false ->
     manual_motor rnd s m v = send_if_new s m (manual_command rnd m v)) /\
    ((Qabs v <= JOYSTICK_DEADZONE)%Q ->
     exists speed, manual_command rnd m v = fmt_cmd (MOTOR_MAP m) "s" speed) /\
    ((JOYSTICK_DEADZONE < v)%Q ->
     manual_command rnd m v = fmt_cmd (MOTOR_MAP m) "f" (manual_speed rnd v)) /\
    ((v < - JOYSTICK_DEADZONE)%Q ->
     manual_command rnd m v = fmt_cmd (MOTOR_MAP m) "b" (manual_speed rnd v)) /\
    (rnd (Qabs v * 255)%Q == Qabs v * 255 ->
     0 <= manual_speed rnd v /\
     (inject_Z (manual_speed rnd v) <= Qabs v * 255)%Q /\
     (Qabs v * 255 < inject_Z (manual_speed rnd v + 1))%Q).
Proof.
  intros rnd s m v. split.
  { intros He. unfold manual_motor. now rewrite He. }
  destruct (manual_direction_cases v) as (Hf & Hb & Hs).
  unfold manual_command.
  split; [intros H; rewrite (Hs H); eexists; reflexivity|].
  split; [intros H; now rewrite (Hf H)|].
  split; [intros H; now rewrite (Hb H)|].
  intros H. unfold manual_speed.
  assert (H0 : (0 <= rnd (Qabs v * 255))%Q)
    by (rewrite H; pose proof (Qabs_nonneg v); nra).
  destruct (int_of_float_nonneg _ H0) as (Hz & Hlo & Hhi).
  split; [exact Hz|]. split.
  - eapply Qle_trans; [exact Hlo|]. rewrite H. apply Qle_refl.
  - eapply Qle_lt_trans; [|exact Hhi]. rewrite H. apply Qle_refl.
Qed.

Lemma manual_command_direction_speed_witness :
  manual_command (fun q => q) M1 (1 # 2)%Q = ("1:f:127" ++ LF)%string /\
  manual_command (fun q => q) M2 (-(1 # 2))%Q = ("2:b:127" ++ LF)%string /\
  (exists speed, manual_command (fun q => q) M1 (1 # 10)%Q
                 = fmt_cmd (MOTOR_MAP M1) "s" speed) /\
  manual_speed (fun q => q) (1 # 2)%Q = 127.
Proof.
  pose proof (manual_command_direction_speed
                (fun q => q) (init_loop (init_app true)) M1 (1 # 2)%Q)
    as (_ & _ & Hf & _ & Hsp).
  pose proof (manual_command_direction_speed
                (fun q => q) (init_loop (init_app true)) M2 (-(1 # 2))%Q)
    as (_ & _ & _ & Hb & _).
  pose proof (manual_command_direction_speed
                (fun q => q) (init_loop (init_app true)) M1 (1 # 10)%Q)
    as (_ & Hs & _).
  split; [rewrite Hf; reflexivity|].
  split; [rewrite Hb; reflexivity|].
  split; [apply Hs; vm_compute; discriminate|].
  destruct (Hsp ltac:(reflexivity)) as (_ & Hlo & Hhi).
  clear - Hlo Hhi. revert Hlo Hhi.
  generalize (manual_speed (fun q => q) (1 # 2)%Q). intros z.
  unfold Qle, Qlt. simpl. lia.
Defined.

(** ** The blocks of the dispatch *)

Lemma send_command_out (a : App) (c : string) :
  serial_out (send_command a c) = serial_out a ++ (if serial_open a then [c] else []).
Proof.
  unfold send_command. destruct (serial_open a); simpl; [reflexivity|].
  now rewrite app_nil_r.
Qed.

Lemma send_command_frame (a : App) (c : string) :
  pid_controllers (send_command a c) = pid_controllers a /\
  pid_states (send_command a c) = pid_states a /\
  current_encoders (send_command a c) = current_encoders a /\
  serial_open (send_command a c) = serial_open a.
Proof. unfold send_command. destruct (serial_open a) eqn:E; simpl; auto. Qed.

(** A forward command is never a stop command. *)
Lemma drive_not_stop (m m' : motor) (speed : Z) :
  fmt_cmd (MOTOR_MAP m) "f" speed <> stop_cmd m'.
Proof. destruct m, m'; unfold stop_cmd, fmt_cmd; simpl; discriminate. Qed.

Lemma send_if_new_out (s : loop) (m : motor) (cmd : string) :
  serial_out (self (send_if_new s m cmd)) =
  serial_out (self s) ++
  (if serial_open (self s) && negb (String.eqb cmd (last_commands s m))
   then [cmd] else []).
Proof.
  unfold send_if_new. destruct (String.eqb cmd (last_commands s m)); simpl.
  - now rewrite andb_false_r, app_nil_r.
  - now rewrite send_command_out, andb_true_r.
Qed.

Lemma send_if_new_last (s : loop) (m : motor) (cmd : string) :
  last_commands (send_if_new s m cmd) m = cmd.
Proof.
  unfold send_if_new. destruct (String.eqb cmd (last_commands s m)) eqn:E; simpl.
  - apply String.eqb_eq in E. now symmetry.
  - apply upd_same.
Qed.

Lemma send_if_new_twice (s : loop) (m : motor) (cmd : string) :
  send_if_new (send_if_new s m cmd) m cmd = send_if_new s m cmd.
Proof.
  unfold send_if_new at 1. now rewrite send_if_new_last, String.eqb_refl.
Qed.

Lemma pair_drive_out (s : loop) (mt other : motor) (cmd : string) :
  serial_out (self (pair_drive s mt other cmd)) =
  serial_out (self s) ++
  (if serial_open (self s) && negb (String.eqb cmd (last_commands s mt))
   then [stop_cmd other; cmd] else []).
Proof.
  unfold pair_drive. destruct (String.eqb cmd (last_commands s mt)); simpl.
  - now rewrite andb_false_r, app_nil_r.
  - rewrite !send_command_out.
    destruct (send_command_frame (self s) (stop_cmd other)) as (_ & _ & _ & ->).
    rewrite andb_true_r, <- app_assoc. now destruct (serial_open (self s)).
Qed.

Lemma pair_stop_out (s : loop) (neg pos : motor) :
  serial_out (self (pair_stop s neg pos)) =
  serial_out (self s) ++
  (if serial_open (self s) &&
      (negb (String.eqb (last_commands s neg) (stop_cmd neg))
       || negb (String.eqb (last_commands s pos) (stop_cmd pos)))
   then [stop_cmd neg; stop_cmd pos] else []).
Proof.
  unfold pair_stop.
  destruct (negb (String.eqb (last_commands s neg) (stop_cmd neg))
            || negb (String.eqb (last_commands s pos) (stop_cmd pos))); simpl.
  - rewrite !send_command_out.
    destruct (send_command_frame (self s) (stop_cmd neg)) as (_ & _ & _ & ->).
    rewrite andb_true_r, <- app_assoc. now destruct (serial_open (self s)).
  - now rewrite andb_false_r, app_nil_r.
Qed.

Lemma exclusive_pair_out rnd (s : loop) (neg pos : motor) (x : Q) :
  serial_out (self (exclusive_pair rnd s neg pos x)) =
  serial_out (self s) ++ pair_writes rnd s neg pos x.
Proof.
  unfold exclusive_pair, pair_writes.
  destruct (enabled (pid_states (self s) neg)), (enabled (pid_states (self s) pos));
    cbn [negb andb]; rewrite ?andb_false_r, ?app_nil_r; try reflexivity.
  rewrite andb_true_r.
  destruct (Py.ltb JOYSTICK_DEADZONE x).
  { rewrite pair_drive_out. destruct (serial_open (self s)); cbn [andb]; [reflexivity|].
    reflexivity. }
  destruct (Py.ltb x (- JOYSTICK_DEADZONE)).
  { rewrite pair_drive_out. destruct (serial_open (self s)); reflexivity. }
  rewrite pair_stop_out. destruct (serial_open (self s)); reflexivity.
Qed.

(** ** Telemetry *)

Lemma encoder_map_key (key : string) (m : motor) :
  encoder_map key = Some m ->
  exists n, Py.int_of_str (Py.tail key) = Some n /\ 1 <= n <= 6.
Proof.
  unfold encoder_map. intros H.
  repeat match type of H with
         | context [String.eqb key ?k] =>
             destruct (String.eqb_spec key k) as [->|_];
             [eexists; split; [vm_compute; reflexivity|lia]|]
         end.
  discriminate.
Qed.

Lemma list_set_length (l l' : list Z) (i v : Z) :
  Py.list_set l i v = Some l' -> length l' = length l.
Proof.
  unfold Py.list_set. cbv zeta.
  set (j := if i <? 0 then i + Z.of_nat (length l) else i).
  destruct ((0 <=? j) && (j <? Z.of_nat (length l))) eqn:E; [|discriminate].
  intros [= <-]. apply andb_true_iff in E. destruct E as [H0 H1].
  apply Z.leb_le in H0. apply Z.ltb_lt in H1.
  rewrite length_app. cbn [length].
  change (match l with [] => [] | _ :: l0 => skipn (Z.to_nat j) l0 end)
    with (skipn (S (Z.to_nat j)) l).
  rewrite length_firstn, length_skipn. lia.
Qed.

Lemma list_set_in_range (l : list Z) (i v : Z) :
  0 <= i < Z.of_nat (length l) -> exists l', Py.list_set l i v = Some l'.
Proof.
  intros Hi. unfold Py.list_set. cbv zeta.
  destruct (Z.ltb_spec i 0) as [?|_]; [lia|].
  destruct (Z.leb_spec 0 i) as [_|?]; [|lia].
  destruct (Z.ltb_spec i (Z.of_nat (length l))) as [_|?]; [|lia].
  eexists. reflexivity.
Qed.

(** On the axis table a part acts as the specification says: a
    well-formed token stores its value, any other token is skipped. *)
Lemma update_encoders_part_spec (ev : list Z) (ce : motor -> Z) (part : string) :
  length ev = 6%nat ->
  length (fst (update_encoders_part (ev, ce) part)) = 6%nat /\
  snd (update_encoders_part (ev, ce) part) =
    match well_formed_token part with
    | Some (m, v) => upd ce m v
    | None => ce
    end.
Proof.
  intros Hlen. unfold update_encoders_part, well_formed_token.
  destruct (Py.split ":" part) as [|key [|val_str [|? ?]]]; auto.
  destruct (encoder_map key) as [m|] eqn:Hk.
  - destruct (encoder_map_key key m Hk) as (n & -> & Hn).
    destruct (Py.int_of_str val_str) as [v|]; auto.
    destruct (list_set_in_range ev (n - 1) v ltac:(rewrite Hlen; simpl; lia)) as (ev' & Hset).
    rewrite Hset. apply list_set_length in Hset. simpl. split; congruence.
  - destruct (Py.int_of_str (Py.tail key)) as [n|]; auto.
    destruct (Py.int_of_str val_str) as [v|]; auto.
    destruct (Py.list_set ev (n - 1) v) as [ev'|] eqn:Hset; auto.
    apply list_set_length in Hset. simpl. split; congruence.
Qed.

Lemma update_encoders_fold (parts : list string) (ev : list Z) (ce : motor -> Z) :
  length ev = 6%nat ->
  snd (fold_left update_encoders_part parts (ev, ce)) = fold_left store_token parts ce.
Proof.
  revert ev ce. induction parts as [|part parts IH]; intros ev ce Hlen; [reflexivity|].
  cbn [fold_left].
  destruct (update_encoders_part_spec ev ce part Hlen) as [Hl Hs].
  destruct (update_encoders_part (ev, ce) part) as [ev' ce'].
  cbn [fst snd] in *. rewrite (IH ev' ce' Hl). now subst ce'.
Qed.

(** C9: the parts of a frame are taken one by one, and a malformed part
    (wrong number of fields, unknown key, or non-numeric value) is skipped:
    the axis table ends as if the part were not in the frame, the parts
    before and after it being stored as usual.  On the frame
    ["E1:10|Ex:bad|E3:30|E4:40|E5:50|E6:60"] every axis but M2 gets its
    value. *)
Theorem malformed_token_skipped :
  (forall (pre post : list string) (bad : string) (ce : motor -> Z),
      well_formed_token bad = None ->
      snd (update_encoders_parts (pre ++ bad :: post) ce) =
      snd (update_encoders_parts (pre ++ post) ce)) /\
  (forall (parts : list string) (ce : motor -> Z),
      snd (update_encoders_parts parts ce) = fold_left store_token parts ce) /\
  let a := read_line (init_app true) "E1:10|Ex:bad|E3:30|E4:40|E5:50|E6:60" in
  map (current_encoders a) pid_motors = [10; 0; 30; 40; 50; 60].
Proof.
  assert (Hfold : forall parts ce,
             snd (update_encoders_parts parts ce) = fold_left store_token parts ce).
  { intros parts ce. unfold update_encoders_parts. now apply update_encoders_fold. }
  split; [|split; [exact Hfold | reflexivity]].
  intros pre post bad ce Hbad. rewrite !Hfold, !fold_left_app. cbn [fold_left].
  unfold store_token at 2. now rewrite Hbad.
Qed.

Lemma malformed_token_skipped_witness :
  snd (update_encoders_parts ["E1:10"; "Ex:bad"; "E3:30"]%string (fun _ => 0)) =
  snd (update_encoders_parts ["E1:10"; "E3:30"]%string (fun _ => 0)).
Proof.
  destruct malformed_token_skipped as (H & _).
  exact (H ["E1:10"%string] ["E3:30"%string] "Ex:bad"%string (fun _ => 0) eq_refl).
Defined.

(** ** The dispatch as a whole *)

Lemma untouched_refl (C : motor -> Prop) (s : loop) : untouched C s s.
Proof. repeat split; reflexivity. Qed.

Lemma untouched_trans (C1 C2 : motor -> Prop) (s s' s'' : loop) :
  untouched C1 s s' -> untouched C2 s' s'' ->
  untouched (fun m => C1 m \/ C2 m) s s''.
Proof.
  intros (Hs1 & He1 & Ho1 & H1) (Hs2 & He2 & Ho2 & H2).
  repeat split; try congruence.
  - destruct (H2 m) as [-> _]; [tauto|]. destruct (H1 m) as [-> _]; tauto.
  - destruct (H2 m) as [_ ->]; [tauto|]. destruct (H1 m) as [_ ->]; tauto.
Qed.

Lemma untouched_weaken (C C' : motor -> Prop) (s s' : loop) :
  (forall m, C m -> C' m) -> untouched C s s' -> untouched C' s s'.
Proof.
  intros HC (Hs & He & Ho & H). repeat split; try assumption; apply H; auto.
Qed.

Lemma untouched_last (C : motor -> Prop) (s s' : loop) (m : motor) :
  untouched C s s' -> ~ C m -> last_commands s' m = last_commands s m.
Proof. intros (_ & _ & _ & H) Hm. now apply H. Qed.

Lemma send_if_new_untouched (s : loop) (m : motor) (cmd : string) :
  untouched (eq m) s (send_if_new s m cmd).
Proof.
  unfold send_if_new. destruct (String.eqb cmd (last_commands s m)); cbn [negb];
    [apply untouched_refl|].
  destruct (send_command_frame (self s) cmd) as (Hp & Hs & He & Ho).
  repeat split; simpl; try assumption.
  - apply upd_other. congruence.
  - now rewrite Hp.
Qed.

Lemma hold_motor_untouched rnd clock (s : loop) (m : motor) :
  untouched (fun m' => m' = m /\ enabled (pid_states (self s) m) = true)
            s (hold_motor rnd clock s m).
Proof.
  unfold hold_motor. destruct (enabled (pid_states (self s) m)) eqn:En;
    [|apply untouched_refl].
  destruct (PID.update rnd _ _ _) as [p out].
  eapply untouched_weaken;
    [|eapply untouched_trans; [|apply send_if_new_untouched]].
  2: { instantiate (1 := eq m). repeat split; simpl; try reflexivity.
       apply upd_other. congruence. }
  simpl. intros m' [<-|<-]; auto.
Qed.

Lemma hold_motor_out rnd clock (s : loop) (m : motor) :
  serial_out (self (hold_motor rnd clock s m)) =
  serial_out (self s) ++ hold_writes rnd clock s m.
Proof.
  unfold hold_motor, hold_writes, hold_resolved.
  destruct (enabled (pid_states (self s) m)) eqn:En.
  - destruct (PID.update rnd _ _ _) as [p out]. rewrite send_if_new_out. simpl.
    now rewrite andb_true_r.
  - now rewrite andb_false_r, app_nil_r.
Qed.

Lemma manual_motor_untouched rnd (s : loop) (m : motor) (v : Q) :
  untouched (fun m' => m' = m /\ enabled (pid_states (self s) m) = false)
            s (manual_motor rnd s m v).
Proof.
  unfold manual_motor. destruct (enabled (pid_states (self s) m)) eqn:En; simpl;
    [apply untouched_refl|].
  eapply untouched_weaken; [|apply send_if_new_untouched].
  simpl. intros m' <-. auto.
Qed.

Lemma manual_motor_out rnd (s : loop) (m : motor) (v : Q) :
  serial_out (self (manual_motor rnd s m v)) =
  serial_out (self s) ++ manual_writes rnd s m v.
Proof.
  unfold manual_motor, manual_writes.
  destruct (enabled (pid_states (self s) m)); simpl.
  - now rewrite andb_false_r, app_nil_r.
  - rewrite send_if_new_out. now rewrite andb_true_r.
Qed.

Lemma pair_drive_untouched (s : loop) (mt other : motor) (cmd : string) :
  untouched (fun m => m = mt \/ m = other) s (pair_drive s mt other cmd).
Proof.
  unfold pair_drive. destruct (String.eqb cmd (last_commands s mt)); cbn [negb];
    [apply untouched_refl|]. simpl.
  destruct (send_command_frame (self s) (stop_cmd other)) as (Hp & Hs & He & Ho).
  destruct (send_command_frame (send_command (self s) (stop_cmd other)) cmd)
    as (Hp' & Hs' & He' & Ho').
  repeat split; simpl; try congruence.
  rewrite !upd_other; [reflexivity| |]; intros ->; tauto.
Qed.

Lemma pair_stop_untouched (s : loop) (neg pos : motor) :
  untouched (fun m => m = neg \/ m = pos) s (pair_stop s neg pos).
Proof.
  unfold pair_stop.
  destruct (negb (String.eqb (last_commands s neg) (stop_cmd neg))
            || negb (String.eqb (last_commands s pos) (stop_cmd pos)));
    [|apply untouched_refl]. simpl.
  destruct (send_command_frame (self s) (stop_cmd neg)) as (Hp & Hs & He & Ho).
  destruct (send_command_frame (send_command (self s) (stop_cmd neg)) (stop_cmd pos))
    as (Hp' & Hs' & He' & Ho').
  repeat split; simpl; try congruence.
  rewrite !upd_other; [reflexivity| |]; intros ->; tauto.
Qed.

Lemma exclusive_pair_untouched rnd (s : loop) (neg pos : motor) (x : Q) :
  untouched (fun m => (m = neg \/ m = pos) /\
                      enabled (pid_states (self s) neg) = false /\
                      enabled (pid_states (self s) pos) = false)
            s (exclusive_pair rnd s neg pos x).
Proof.
  unfold exclusive_pair.
  destruct (enabled (pid_states (self s) neg)), (enabled (pid_states (self s) pos));
    simpl; try apply untouched_refl.
  destruct (Py.ltb JOYSTICK_DEADZONE x);
    [|destruct (Py.ltb x (- JOYSTICK_DEADZONE))].
  - eapply untouched_weaken; [|apply pair_drive_untouched]. simpl. tauto.
  - eapply untouched_weaken; [|apply pair_drive_untouched]. simpl. tauto.
  - eapply untouched_weaken; [|apply pair_stop_untouched]. simpl. tauto.
Qed.

Lemma actuator_out (s : loop) (b1 b2 : bool) :
  serial_out (self (actuator s b1 b2)) = serial_out (self s) ++ actuator_writes s b1 b2.
Proof. unfold actuator, actuator_writes. now rewrite send_if_new_out. Qed.

(** The closed forms read only the fields that [untouched] keeps. *)
Lemma hold_writes_ext rnd clock (C : motor -> Prop) (s s' : loop) (m : motor) :
  untouched C s s' -> ~ C m ->
  hold_writes rnd clock s' m = hold_writes rnd clock s m.
Proof.
  intros (Hs & He & Ho & H) Hm. destruct (H m Hm) as [Hl Hp].
  unfold hold_writes, hold_resolved. now rewrite Hs, He, Ho, Hl, Hp.
Qed.

Lemma manual_writes_ext rnd (C : motor -> Prop) (s s' : loop) (m : motor) (v : Q) :
  untouched C s s' ->
  (enabled (pid_states (self s) m) = false -> ~ C m) ->
  manual_writes rnd s' m v = manual_writes rnd s m v.
Proof.
  intros (Hs & He & Ho & H) Hm. unfold manual_writes. rewrite Hs, Ho.
  destruct (enabled (pid_states (self s) m)) eqn:En.
  - now rewrite !andb_false_r.
  - destruct (H m (Hm eq_refl)) as [-> _]. reflexivity.
Qed.

Lemma pair_writes_ext rnd (C : motor -> Prop) (s s' : loop) (neg pos : motor) (x : Q) :
  untouched C s s' ->
  (enabled (pid_states (self s) neg) = false ->
   enabled (pid_states (self s) pos) = false -> ~ C neg /\ ~ C pos) ->
  pair_writes rnd s' neg pos x = pair_writes rnd s neg pos x.
Proof.
  intros (Hs & He & Ho & H) Hm. unfold pair_writes. rewrite Hs, Ho.
  destruct (enabled (pid_states (self s) neg)) eqn:En;
    [now rewrite !andb_false_r|].
  destruct (enabled (pid_states (self s) pos)) eqn:Ep;
    [now rewrite !andb_false_r|].
  destruct (Hm eq_refl eq_refl) as [Hn Hp].
  destruct (H neg Hn) as [-> _]. destruct (H pos Hp) as [-> _]. reflexivity.
Qed.

Lemma actuator_writes_ext (C : motor -> Prop) (s s' : loop) (b1 b2 : bool) :
  untouched C s s' -> ~ C S1 ->
  actuator_writes s' b1 b2 = actuator_writes s b1 b2.
Proof.
  intros (Hs & He & Ho & H) Hm. unfold actuator_writes.
  destruct (H S1 Hm) as [-> _]. now rewrite Ho.
Qed.

Lemma hold_fold rnd clock (l : list motor) :
  NoDup l ->
  forall s : loop,
    let s' := fold_left (hold_motor rnd clock) l s in
    untouched (fun m => In m l /\ enabled (pid_states (self s) m) = true) s s' /\
    serial_out (self s') =
      serial_out (self s) ++ concat (map (hold_writes rnd clock s) l).
Proof.
  induction 1 as [|x l Hx Hnd IH]; intros s; cbn zeta.
  - simpl. rewrite app_nil_r. split; [apply untouched_refl | reflexivity].
  - cbn [fold_left map concat].
    pose proof (hold_motor_untouched rnd clock s x) as Hu.
    destruct (IH (hold_motor rnd clock s x)) as [Hu' Ho'].
    split.
    + eapply untouched_weaken; [|eapply untouched_trans; [exact Hu | exact Hu']].
      simpl. destruct Hu as (Hs & _).
      intros m [[-> En]|[Hin En]]; [tauto|]. rewrite Hs in En. tauto.
    + rewrite Ho', hold_motor_out, <- app_assoc.
      apply (f_equal (fun t => serial_out (self s) ++ hold_writes rnd clock s x ++ concat t)).
      apply map_ext_in. intros m Hm.
      eapply hold_writes_ext; [exact Hu|]. intros [-> _]. contradiction.
Qed.

(** The steps of a dispatch, named, with what each leaves untouched. *)
Ltac dispatch_steps rnd i s :=
  unfold dispatch;
  let U1 := fresh "U1" in
  destruct (hold_fold rnd (pid_time i) pid_motors pid_motors_nodup s) as [U1 _];
  cbn zeta in U1;
  set (s1 := fold_left (hold_motor rnd (pid_time i)) pid_motors s) in *;
  fold (lx i) (ly i) (rx i) (ry i);
  change (match BTN_MAP LB with Some b => get_button i b | None => false end) with (lb i);
  change (match BTN_MAP RB with Some b => get_button i b | None => false end) with (rb i);
  pose proof (manual_motor_untouched rnd s1 M1 (ly i)) as U2;
  set (s2 := manual_motor rnd s1 M1 (ly i)) in *;
  pose proof (exclusive_pair_untouched rnd s2 M4 S2 (lx i)) as U3;
  set (s3 := exclusive_pair rnd s2 M4 S2 (lx i)) in *;
  pose proof (manual_motor_untouched rnd s3 M2 (ry i)) as U4;
  set (s4 := manual_motor rnd s3 M2 (ry i)) in *;
  pose proof (exclusive_pair_untouched rnd s4 M3 S3 (rx i)) as U5;
  set (s5 := exclusive_pair rnd s4 M3 S3 (rx i)) in *;
  pose proof (send_if_new_untouched s5 S1 (actuator_command (lb i) (rb i))) as U6;
  change (send_if_new s5 S1 (actuator_command (lb i) (rb i)))
    with (actuator s5 (lb i) (rb i)) in U6;
  set (s6 := actuator s5 (lb i) (rb i)) in *;
  assert (P1 : pid_states (self s1) = pid_states (self s)) by apply U1;
  assert (P2 : pid_states (self s2) = pid_states (self s))
    by (destruct U2 as [-> _]; exact P1);
  assert (P3 : pid_states (self s3) = pid_states (self s))
    by (destruct U3 as [-> _]; exact P2);
  assert (P4 : pid_states (self s4) = pid_states (self s))
    by (destruct U4 as [-> _]; exact P3);
  assert (P5 : pid_states (self s5) = pid_states (self s))
    by (destruct U5 as [-> _]; exact P4);
  assert (P6 : pid_states (self s6) = pid_states (self s))
    by (destruct U6 as [-> _]; exact P5);
  rewrite P1 in U2; rewrite P2 in U3; rewrite P3 in U4; rewrite P4 in U5.

(** The dispatch writes what its blocks write, each block read off the
    state at the start: no block disturbs what a later block reads. *)
Lemma dispatch_out rnd (i : inputs) (s : loop) :
  serial_out (self (dispatch rnd i s)) = serial_out (self s) ++ dispatch_writes rnd i s.
Proof.
  pose proof (proj2 (hold_fold rnd (pid_time i) pid_motors pid_motors_nodup s)) as O1.
  cbn zeta in O1. unfold dispatch_writes. dispatch_steps rnd i s.
  pose proof (untouched_trans _ _ _ _ _ U1 U2) as V2.
  pose proof (untouched_trans _ _ _ _ _ V2 U3) as V3.
  pose proof (untouched_trans _ _ _ _ _ V3 U4) as V4.
  pose proof (untouched_trans _ _ _ _ _ V4 U5) as V5.
  cbv beta in V2, V3, V4, V5.
  unfold s6. rewrite actuator_out. unfold s5 at 1. rewrite exclusive_pair_out.
  unfold s4 at 1. rewrite manual_motor_out.
  unfold s3 at 1. rewrite exclusive_pair_out.
  unfold s2 at 1. rewrite manual_motor_out. rewrite O1.
  rewrite (manual_writes_ext rnd _ s s1 M1 (ly i) U1).
  2: { intros En [_ En']. congruence. }
  rewrite (pair_writes_ext rnd _ s s2 M4 S2 (lx i) V2).
  2: { intros En Ep. split; intros [[_ E]|[E _]]; congruence. }
  rewrite (manual_writes_ext rnd _ s s3 M2 (ry i) V3).
  2: { intros En. intros [[[_ E]|[E _]]|[[E|E] _]]; congruence. }
  rewrite (pair_writes_ext rnd _ s s4 M3 S3 (rx i) V4).
  2: { intros En Ep.
       split; intros [[[[_ E]|[E _]]|[[E|E] _]]|[E _]]; congruence. }
  rewrite (actuator_writes_ext _ s s5 (lb i) (rb i) V5).
  2: { intros [[[[[Hin _]|[E _]]|[[E|E] _]]|[E _]]|[[E|E] _]]; try discriminate.
       simpl in Hin. intuition discriminate. }
  now rewrite <- !app_assoc.
Qed.

Lemma hold_resolved_ext rnd clock (C : motor -> Prop) (s s' : loop) (m : motor) :
  untouched C s s' -> ~ C m ->
  hold_resolved rnd clock s' m = hold_resolved rnd clock s m.
Proof.
  intros (Hs & He & Ho & H) Hm. destruct (H m Hm) as [_ Hp].
  unfold hold_resolved. now rewrite Hs, He, Hp.
Qed.

Lemma hold_motor_last rnd clock (s : loop) (m : motor) :
  enabled (pid_states (self s) m) = true ->
  last_commands (hold_motor rnd clock s m) m = hold_resolved rnd clock s m.
Proof.
  intros En. unfold hold_motor, hold_resolved. rewrite En.
  destruct (PID.update rnd _ _ _) as [p out]. now rewrite send_if_new_last.
Qed.

Lemma hold_fold_last rnd clock (l : list motor) :
  NoDup l ->
  forall (s : loop) (m : motor),
    In m l -> enabled (pid_states (self s) m) = true ->
    last_commands (fold_left (hold_motor rnd clock) l s) m = hold_resolved rnd clock s m.
Proof.
  induction 1 as [|x l Hx Hnd IH]; intros s m Hin En; [contradiction|].
  cbn [fold_left].
  pose proof (hold_motor_untouched rnd clock s x) as Hu.
  destruct Hin as [->|Hin].
  - destruct (hold_fold rnd clock l Hnd (hold_motor rnd clock s m)) as [Hu' _].
    cbn zeta in Hu'. rewrite (untouched_last _ _ _ m Hu'); [|tauto].
    now apply hold_motor_last.
  - assert (Hne : ~ (m = x /\ enabled (pid_states (self s) x) = true))
      by (intros [-> _]; contradiction).
    rewrite IH; [|assumption|].
    + now apply (hold_resolved_ext rnd clock _ s _ m Hu).
    + destruct Hu as (-> & _). exact En.
Qed.

Lemma manual_motor_last rnd (s : loop) (m : motor) (v : Q) :
  enabled (pid_states (self s) m) = false ->
  last_commands (manual_motor rnd s m v) m = manual_command rnd m v.
Proof. intros En. unfold manual_motor. rewrite En. apply send_if_new_last. Qed.

Lemma actuator_last (s : loop) (b1 b2 : bool) :
  last_commands (actuator s b1 b2) S1 = actuator_command b1 b2.
Proof. unfold actuator. apply send_if_new_last. Qed.

Lemma pair_drive_last (s : loop) (mt other : motor) (cmd : string) :
  mt <> other -> last_commands (pair_drive s mt other cmd) mt = cmd.
Proof.
  intros Hne. unfold pair_drive.
  destruct (String.eqb_spec cmd (last_commands s mt)) as [E|E]; cbn [negb].
  - now symmetry.
  - cbn [last_commands]. rewrite upd_other by assumption. apply upd_same.
Qed.

Lemma pair_stop_last (s : loop) (neg pos : motor) :
  last_commands (pair_stop s neg pos) neg = stop_cmd neg /\
  last_commands (pair_stop s neg pos) pos = stop_cmd pos.
Proof.
  unfold pair_stop.
  destruct (String.eqb_spec (last_commands s neg) (stop_cmd neg)) as [En|En];
    destruct (String.eqb_spec (last_commands s pos) (stop_cmd pos)) as [Ep|Ep];
    cbn [negb orb last_commands]; auto.
  all: split; [|apply upd_same].
  all: unfold upd; destruct (motor_eqb neg pos) eqn:E;
    [apply motor_eqb_eq in E; now subst | now rewrite motor_eqb_refl].
Qed.

(** The records of a pair in manual mode after its block. *)
Lemma exclusive_pair_last rnd (s : loop) (neg pos : motor) (x : Q) :
  neg <> pos ->
  enabled (pid_states (self s) neg) = false ->
  enabled (pid_states (self s) pos) = false ->
  let s' := exclusive_pair rnd s neg pos x in
  if Py.ltb JOYSTICK_DEADZONE x then
    last_commands s' pos = fmt_cmd (MOTOR_MAP pos) "f" (manual_speed rnd x)
  else if Py.ltb x (- JOYSTICK_DEADZONE) then
    last_commands s' neg = fmt_cmd (MOTOR_MAP neg) "f" (manual_speed rnd x)
  else
    last_commands s' neg = stop_cmd neg /\ last_commands s' pos = stop_cmd pos.
Proof.
  intros Hne En Ep. cbn zeta. unfold exclusive_pair. rewrite En, Ep. cbn [negb andb].
  destruct (Py.ltb JOYSTICK_DEADZONE x); [apply pair_drive_last; congruence|].
  destruct (Py.ltb x (- JOYSTICK_DEADZONE)); [now apply pair_drive_last|].
  apply pair_stop_last.
Qed.

(** ** Mutual exclusion of the pairs *)

Lemma on_channel_fmt (m m' : motor) (d : string) (n : Z) :
  on_channel m' (fmt_cmd (MOTOR_MAP m) d n) = motor_eqb m' m.
Proof. destruct m, m'; reflexivity. Qed.

Lemma on_channel_stop (m m' : motor) : on_channel m' (stop_cmd m) = motor_eqb m' m.
Proof. apply on_channel_fmt. Qed.

Lemma hold_command_fmt (m : motor) (st : pid_state) (cur : Z) (out : Q) :
  exists d n, hold_command m st cur out = fmt_cmd (MOTOR_MAP m) d n.
Proof.
  unfold hold_command.
  destruct (Z.abs (target st - cur) >? PID_TARGET_THRESHOLD); eexists; eexists; reflexivity.
Qed.

Lemma motor_eqb_neq (a b : motor) : a <> b -> motor_eqb a b = false.
Proof.
  intros H. destruct (motor_eqb a b) eqn:E; [|reflexivity].
  apply motor_eqb_eq in E. contradiction.
Qed.

(** The shapes of what the block of a pair writes. *)
Lemma pair_writes_cases rnd (s : loop) (neg pos : motor) (x : Q) :
  let w := pair_writes rnd s neg pos x in
  let drive m := fmt_cmd (MOTOR_MAP m) "f" (manual_speed rnd x) in
  w = [] \/ w = [stop_cmd neg; stop_cmd pos] \/
  w = [stop_cmd neg; drive pos] \/ w = [stop_cmd pos; drive neg].
Proof.
  cbn zeta. unfold pair_writes.
  destruct (serial_open (self s) && negb (enabled (pid_states (self s) neg))
            && negb (enabled (pid_states (self s) pos))); [|now left].
  destruct (Py.ltb JOYSTICK_DEADZONE x).
  { destruct (negb _); [right; right; left; reflexivity | now left]. }
  destruct (Py.ltb x (- JOYSTICK_DEADZONE)).
  { destruct (negb _); [right; right; right; reflexivity | now left]. }
  destruct (_ || _); [right; left; reflexivity | now left].
Qed.

(** A pair in manual mode is addressed by its own block only: the
    commands for its two channels among everything that the dispatch writes
    are those of the block. *)
Lemma dispatch_writes_pair rnd (i : inputs) (s : loop) (neg pos : motor) (x : Q) :
  (neg, pos, x) = (M4, S2, lx i) \/ (neg, pos, x) = (M3, S3, rx i) ->
  enabled (pid_states (self s) neg) = false ->
  enabled (pid_states (self s) pos) = false ->
  filter (fun c => on_channel neg c || on_channel pos c) (dispatch_writes rnd i s) =
  pair_writes rnd s neg pos x.
Proof.
  intros Hpair En Ep.
  set (f := fun c => on_channel neg c || on_channel pos c).
  assert (Hhold : forall m, filter f (hold_writes rnd (pid_time i) s m) = []).
  { intros m. unfold hold_writes, hold_resolved.
    destruct (enabled (pid_states (self s) m)) eqn:Em;
      [|now rewrite andb_false_r].
    destruct (hold_command_fmt m (pid_states (self s) m) (current_encoders (self s) m)
                (snd (PID.update rnd (pid_controllers (self s) m) (pid_time i m)
                        (inject_Z (current_encoders (self s) m))))) as (d & n & ->).
    destruct (_ && _ && _); [|reflexivity].
    cbn [filter]. unfold f. rewrite !on_channel_fmt.
    rewrite (motor_eqb_neq neg m), (motor_eqb_neq pos m); [reflexivity| |];
      intros ->; congruence. }
  assert (Hman : forall m v, m <> neg -> m <> pos ->
                             filter f (manual_writes rnd s m v) = []).
  { intros m v Hn Hp. unfold manual_writes, manual_command.
    destruct (_ && _ && _); [|reflexivity].
    cbn [filter]. unfold f. rewrite !on_channel_fmt.
    rewrite (motor_eqb_neq neg m), (motor_eqb_neq pos m); [reflexivity| |]; congruence. }
  assert (Hact : filter f (actuator_writes s (lb i) (rb i)) = []).
  { unfold actuator_writes, actuator_command.
    destruct (_ && _); [|reflexivity].
    cbn [filter]. unfold f.
    destruct Hpair as [[= -> -> _]|[= -> -> _]]; destruct (lb i), (rb i); reflexivity. }
  assert (Hself : filter f (pair_writes rnd s neg pos x) = pair_writes rnd s neg pos x).
  { destruct (pair_writes_cases rnd s neg pos x) as [-> | [-> | [-> | ->]]];
      cbn [filter]; unfold f; rewrite ?on_channel_fmt, ?on_channel_stop,
        ?motor_eqb_refl, ?orb_true_r; reflexivity. }
  assert (Hother : forall neg' pos' x', neg' <> neg -> neg' <> pos -> pos' <> neg ->
                                        pos' <> pos ->
                                        filter f (pair_writes rnd s neg' pos' x') = []).
  { intros neg' pos' x' H1 H2 H3 H4.
    destruct (pair_writes_cases rnd s neg' pos' x') as [-> | [-> | [-> | ->]]];
      cbn [filter]; unfold f; rewrite ?on_channel_fmt, ?on_channel_stop;
      rewrite ?(motor_eqb_neq neg neg'), ?(motor_eqb_neq pos neg'),
        ?(motor_eqb_neq neg pos'), ?(motor_eqb_neq pos pos') by congruence;
      reflexivity. }
  unfold dispatch_writes. rewrite !filter_app, Hact, app_nil_r.
  assert (Hc : filter f (concat (map (hold_writes rnd (pid_time i) s) pid_motors)) = []).
  { induction pid_motors as [|m l IH]; [reflexivity|].
    cbn [map concat]. now rewrite filter_app, Hhold, IH. }
  rewrite Hc. cbn [List.app].
  destruct Hpair as [[= -> -> ->]|[= -> -> ->]].
  - rewrite !Hman, Hself, Hother by discriminate. now rewrite app_nil_r.
  - rewrite !Hman, Hself, Hother by discriminate. reflexivity.
Qed.

Lemma pair_settled_ext (C : motor -> Prop) (s s' : loop) (neg pos : motor) :
  untouched C s s' -> ~ C neg -> ~ C pos ->
  pair_settled s neg pos -> pair_settled s' neg pos.
Proof.
  intros U Hn Hp. unfold pair_settled.
  now rewrite (untouched_last _ _ _ neg U Hn), (untouched_last _ _ _ pos U Hp).
Qed.

(** The block of a pair keeps one member at rest by the records. *)
Lemma exclusive_pair_settled rnd (s : loop) (neg pos : motor) (x : Q) :
  neg <> pos ->
  pair_settled s neg pos -> pair_settled (exclusive_pair rnd s neg pos x) neg pos.
Proof.
  intros Hne Hs.
  assert (Hdrive : forall mt other cmd,
             mt <> other ->
             pair_settled (pair_drive s mt other cmd) other mt \/
             pair_drive s mt other cmd = s).
  { intros mt other cmd H. unfold pair_drive.
    destruct (String.eqb cmd (last_commands s mt)); cbn [negb]; [now right|].
    left. left. left. cbn [last_commands]. apply upd_same. }
  unfold exclusive_pair.
  destruct (_ && _); [|exact Hs].
  destruct (Py.ltb JOYSTICK_DEADZONE x).
  { destruct (Hdrive pos neg (fmt_cmd (MOTOR_MAP pos) "f" (manual_speed rnd x)))
      as [H| ->]; [congruence | exact H | exact Hs]. }
  destruct (Py.ltb x (- JOYSTICK_DEADZONE)).
  { destruct (Hdrive neg pos (fmt_cmd (MOTOR_MAP neg) "f" (manual_speed rnd x)))
      as [[H|H]| ->]; [exact Hne | now right | now left | exact Hs]. }
  destruct (pair_stop_last s neg pos) as [Hl _]. left. left. exact Hl.
Qed.

(** A dispatch keeps one member of a pair in manual mode at rest by the
    records, and so does a run of dispatches. *)
Lemma dispatch_settled rnd (i : inputs) (s : loop) (neg pos : motor) :
  (neg, pos) = (M4, S2) \/ (neg, pos) = (M3, S3) ->
  enabled (pid_states (self s) neg) = false ->
  enabled (pid_states (self s) pos) = false ->
  pair_settled s neg pos -> pair_settled (dispatch rnd i s) neg pos.
Proof.
  intros Hp En Ep Hs. dispatch_steps rnd i s.
  pose proof (untouched_trans _ _ _ _ _ U1 U2) as V2.
  pose proof (untouched_trans _ _ _ _ _ V2 U3) as V3.
  pose proof (untouched_trans _ _ _ _ _ V3 U4) as V4.
  pose proof (untouched_trans _ _ _ _ _ U4 (untouched_trans _ _ _ _ _ U5 U6)) as W4.
  cbv beta in V2, V4, W4.
  destruct Hp as [[= -> ->]|[= -> ->]].
  - apply (pair_settled_ext _ s3 s6 M4 S2 W4).
    1,2: intros [[E _]|[[[E|E] _]|E]]; discriminate.
    apply exclusive_pair_settled; [discriminate|].
    apply (pair_settled_ext _ s s2 M4 S2 V2); [| |exact Hs].
    all: intros [[_ E]|[E _]]; congruence.
  - apply (pair_settled_ext _ s5 s6 M3 S3 U6); try discriminate.
    apply exclusive_pair_settled; [discriminate|].
    apply (pair_settled_ext _ s s4 M3 S3 V4); [| |exact Hs].
    all: intros [[[[_ E]|[E _]]|[[E|E] _]]|[E _]]; congruence.
Qed.

Lemma dispatch_states rnd (i : inputs) (s : loop) :
  pid_states (self (dispatch rnd i s)) = pid_states (self s).
Proof. dispatch_steps rnd i s. exact P6. Qed.

Lemma dispatches_settled rnd (ins : list inputs) (s : loop) (neg pos : motor) :
  (neg, pos) = (M4, S2) \/ (neg, pos) = (M3, S3) ->
  enabled (pid_states (self s) neg) = false ->
  enabled (pid_states (self s) pos) = false ->
  pair_settled s neg pos ->
  let s' := dispatches rnd ins s in
  pid_states (self s') = pid_states (self s) /\ pair_settled s' neg pos.
Proof.
  intros Hp. revert s. induction ins as [|i ins IH]; intros s En Ep Hs; cbn zeta.
  - split; [reflexivity | exact Hs].
  - unfold dispatches. cbn [fold_left]. fold (dispatches rnd ins (dispatch rnd i s)).
    pose proof (dispatch_states rnd i s) as Hst.
    destruct (IH (dispatch rnd i s)) as [H1 H2].
    + now rewrite Hst.
    + now rewrite Hst.
    + now apply dispatch_settled.
    + split; [congruence | exact H2].
Qed.

(** What one dispatch writes to the channels of a pair in manual mode. *)
Lemma pair_writes_of_dispatch :
  forall rnd (i : inputs) (s : loop) (neg pos : motor) (x : Q),
    (neg, pos, x) = (M4, S2, lx i) \/ (neg, pos, x) = (M3, S3, rx i) ->
    enabled (pid_states (self s) neg) = false ->
    enabled (pid_states (self s) pos) = false ->
    let w := filter (fun c => on_channel neg c || on_channel pos c)
                    (dispatch_writes rnd i s) in
    let drive m := fmt_cmd (MOTOR_MAP m) "f" (manual_speed rnd x) in
    serial_out (self (dispatch rnd i s)) = serial_out (self s) ++ dispatch_writes rnd i s /\
    (w = [] \/ w = [stop_cmd neg; stop_cmd pos] \/
     w = [stop_cmd neg; drive pos] \/ w = [stop_cmd pos; drive neg]) /\
    (serial_open (self s) = true ->
     (JOYSTICK_DEADZONE < x)%Q ->
     last_commands s pos <> drive pos ->
     w = [stop_cmd neg; drive pos]) /\
    (serial_open (self s) = true ->
     (x < - JOYSTICK_DEADZONE)%Q ->
     last_commands s neg <> drive neg ->
     w = [stop_cmd pos; drive neg]) /\
    (forall m m', drive m <> stop_cmd m').
Proof.
  intros rnd i s neg pos x Hpair En Ep. cbn zeta.
  rewrite (dispatch_writes_pair rnd i s neg pos x Hpair En Ep).
  split; [apply dispatch_out|].
  split; [apply pair_writes_cases|].
  assert (Hneq : forall c l, c <> l -> negb (String.eqb c l) = true).
  { intros c l H. destruct (String.eqb_spec c l); [contradiction | reflexivity]. }
  split; [|split].
  - intros Ho Hx Hl. unfold pair_writes. rewrite Ho, En, Ep. cbn [negb andb].
    apply ltb_lt in Hx. rewrite Hx, Hneq; [reflexivity | congruence].
  - intros Ho Hx Hl. unfold pair_writes. rewrite Ho, En, Ep. cbn [negb andb].
    assert (Hd : Py.ltb JOYSTICK_DEADZONE x = false).
    { apply ltb_ge. unfold JOYSTICK_DEADZONE in *. lra. }
    apply ltb_lt in Hx. rewrite Hd, Hx, Hneq; [reflexivity | congruence].
  - intros m m'. apply drive_not_stop.
Qed.

Lemma drive_not_empty (m : motor) (speed : Z) :
  fmt_cmd (MOTOR_MAP m) "f" speed <> EmptyString.
Proof. destruct m; discriminate. Qed.

(** The block of a pair while its records are sound.  Take a pair
    (M4/S2 on the left stick, M3/S3 on the right stick) in manual mode,
    with at least one member at rest by the records, as at the start of
    the loop, and let any number of dispatches run without events.  Then the
    commands that the next dispatch writes to the two channels of the pair
    are: nothing, or both stops, or the stop of one member followed by a
    forward command of the other.  So a drive command to one member always
    comes right after the stop of the other, and at most one member is
    driven in a tick.  When one member is the active one by the records and
    the stick selects the other, the stop of the first and then the command
    of the second are written. *)
Theorem pair_switch_stops_previous :
  forall rnd (ins : list inputs) (i : inputs) (s : loop) (neg pos : motor) (x : Q),
    (neg, pos, x) = (M4, S2, lx i) \/ (neg, pos, x) = (M3, S3, rx i) ->
    enabled (pid_states (self s) neg) = false ->
    enabled (pid_states (self s) pos) = false ->
    pair_settled s neg pos ->
    let s' := dispatches rnd ins s in
    let w := filter (fun c => on_channel neg c || on_channel pos c)
                    (dispatch_writes rnd i s') in
    let drive m := fmt_cmd (MOTOR_MAP m) "f" (manual_speed rnd x) in
    serial_out (self (dispatch rnd i s')) = serial_out (self s') ++ dispatch_writes rnd i s' /\
    (w = [] \/ w = [stop_cmd neg; stop_cmd pos] \/
     w = [stop_cmd neg; drive pos] \/ w = [stop_cmd pos; drive neg]) /\
    (serial_open (self s') = true ->
     ~ idle neg (last_commands s' neg) ->
     (JOYSTICK_DEADZONE < x)%Q ->
     w = [stop_cmd neg; drive pos]) /\
    (serial_open (self s') = true ->
     ~ idle pos (last_commands s' pos) ->
     (x < - JOYSTICK_DEADZONE)%Q ->
     w = [stop_cmd pos; drive neg]) /\
    (forall m m', drive m <> stop_cmd m').
Proof.
  intros rnd ins i s neg pos x Hpair En Ep Hs. cbn zeta.
  assert (Hp : (neg, pos) = (M4, S2) \/ (neg, pos) = (M3, S3))
    by (destruct Hpair as [[= -> -> _]|[= -> -> _]]; auto).
  destruct (dispatches_settled rnd ins s neg pos Hp En Ep Hs) as [Hst Hs'].
  cbn zeta in Hst, Hs'. rewrite <- Hst in En, Ep.
  destruct (pair_writes_of_dispatch rnd i (dispatches rnd ins s) neg pos x Hpair En Ep)
    as (Hout & Hshape & Hpos & Hneg & Hd).
  split; [exact Hout|]. split; [exact Hshape|].
  split; [|split; [|exact Hd]].
  - intros Ho Hact Hx. apply Hpos; try assumption.
    destruct Hs' as [Hi|[Hi|Hi]]; [contradiction| |]; rewrite Hi; intros E; symmetry in E.
    + now apply drive_not_stop in E.
    + now apply drive_not_empty in E.
  - intros Ho Hact Hx. apply Hneg; try assumption.
    destruct Hs' as [[Hi|Hi]|Hi]; [| |contradiction]; rewrite Hi; intros E; symmetry in E.
    + now apply drive_not_stop in E.
    + now apply drive_not_empty in E.
Qed.

Lemma pair_switch_stops_previous_witness :
  let rnd := fun q : Q => q in
  let stick (v : Q) :=
    mkInputs 1000 [] (fun _ => 1000%Q)
             (fun axis => if axis =? AXIS_LX then v else 0%Q) (fun _ => false) in
  let s1 := dispatches rnd [stick (-(1 # 2))%Q] (init_loop (init_app true)) in
  last_commands s1 M4 = ("4:f:127" ++ LF)%string /\
  filter (fun c => on_channel M4 c || on_channel S2 c)
         (dispatch_writes rnd (stick (1 # 2)%Q) s1) =
  [("4:s:0" ++ LF)%string; ("6:f:127" ++ LF)%string].
Proof.
  cbn zeta. split; [reflexivity|].
  set (i1 := mkInputs 1000 [] (fun _ => 1000%Q)
               (fun axis => if axis =? AXIS_LX then (-(1 # 2))%Q else 0%Q) (fun _ => false)).
  set (i2 := mkInputs 1000 [] (fun _ => 1000%Q)
               (fun axis => if axis =? AXIS_LX then (1 # 2)%Q else 0%Q) (fun _ => false)).
  destruct (pair_switch_stops_previous (fun q : Q => q) [i1] i2
              (init_loop (init_app true)) M4 S2 (lx i2)
              (or_introl eq_refl) eq_refl eq_refl (or_introl (or_intror eq_refl)))
    as (_ & _ & H & _).
  rewrite H; [reflexivity | reflexivity | | reflexivity].
  intros [E|E]; vm_compute in E; discriminate.
Defined.

(** C5: the stop of the previously active member can be missing.  The
    block of a pair compares the command of the selected member with
    [last_commands], and writes nothing, not even the stop of the other
    member, when the two are equal, whatever the record of the other
    member says.  The records are not what was last written: hold mode
    records its commands in [last_commands] too, and the stop that
    [_update_pid_ui] writes when hold mode is left is not recorded.  In the
    run below S2 is driven from the stick at 0.5, M4 is put in hold mode
    from the d-pad with its encoder at 1000 (S2 is not stopped and the
    controller of M4 saturates at ["4:f:255\n"]), hold mode is switched off
    (["4:s:0\n"]), and then the stick goes fully left.  Both members are in
    manual mode, the last command written to S2 is ["6:f:127\n"], the stick
    selects M4 with ["4:f:255\n"], which is the stale record of M4: the
    iteration writes nothing, so that S2 keeps running and M4 stays
    stopped. *)
Theorem pair_switch_suppressed_by_stale_record :
  (forall rnd (i : inputs) (s : loop) (neg pos : motor) (x : Q),
      (neg, pos, x) = (M4, S2, lx i) \/ (neg, pos, x) = (M3, S3, rx i) ->
      enabled (pid_states (self s) neg) = false ->
      enabled (pid_states (self s) pos) = false ->
      let drive m := fmt_cmd (MOTOR_MAP m) "f" (manual_speed rnd x) in
      ((x < - JOYSTICK_DEADZONE)%Q /\ last_commands s neg = drive neg) \/
      ((JOYSTICK_DEADZONE < x)%Q /\ last_commands s pos = drive pos) ->
      filter (fun c => on_channel neg c || on_channel pos c) (dispatch_writes rnd i s) = []) /\
  let rnd := fun q : Q => q in
  let inp (t : Q) (ev : list event) (x : Q) :=
    mkInputs t ev (fun _ => t) (fun axis => if axis =? AXIS_LX then x else 0%Q)
             (fun _ => false) in
  let s0 := init_loop (set_current_encoder (init_app true) M4 1000) in
  let s1 := fst (tick rnd (inp 1000%Q [] (1 # 2)%Q) s0) in
  let s2 := fst (tick rnd (inp (100002 # 100)%Q [JOYHATMOTION 0 (-1, 0)] (1 # 2)%Q) s1) in
  let s3 := fst (tick rnd (inp (100004 # 100)%Q [] (1 # 2)%Q) s2) in
  let s4 := fst (tick rnd (inp (100006 # 100)%Q [JOYHATMOTION 0 (0, 0)] (1 # 2)%Q) s3) in
  let s5 := fst (tick rnd (inp (100008 # 100)%Q [JOYHATMOTION 0 (-1, 0)] (1 # 2)%Q) s4) in
  let i6 := inp (100010 # 100)%Q [] (-1)%Q in
  let s6 := fst (tick rnd i6 s5) in
  let pair_stream (s : loop) :=
    filter (fun c => on_channel M4 c || on_channel S2 c) (serial_out (self s)) in
  enabled (pid_states (self s5) M4) = false /\
  enabled (pid_states (self s5) S2) = false /\
  pair_stream s5 =
    [("4:s:0" ++ LF)%string; ("6:f:127" ++ LF)%string; ("4:f:0" ++ LF)%string;
     ("4:f:255" ++ LF)%string; ("4:s:0" ++ LF)%string] /\
  last_commands s5 M4 = ("4:f:255" ++ LF)%string /\
  last_commands s5 S2 = ("6:f:127" ++ LF)%string /\
  resolved rnd i6 s5 M4 = Some ("4:f:255" ++ LF)%string /\
  serial_out (self s6) = serial_out (self s5).
Proof.
  split.
  - intros rnd i s neg pos x Hpair En Ep drive Hrec.
    rewrite (dispatch_writes_pair rnd i s neg pos x Hpair En Ep).
    unfold pair_writes. rewrite En, Ep. cbn [negb]. rewrite !andb_true_r.
    destruct (serial_open (self s)); [|reflexivity].
    destruct Hrec as [[Hx Hl]|[Hx Hl]].
    + assert (Hd : Py.ltb JOYSTICK_DEADZONE x = false).
      { apply ltb_ge. unfold JOYSTICK_DEADZONE in *. lra. }
      apply ltb_lt in Hx. rewrite Hd, Hx, Hl. unfold drive.
      now rewrite String.eqb_refl.
    + apply ltb_lt in Hx. rewrite Hx, Hl. unfold drive.
      now rewrite String.eqb_refl.
  - vm_compute. repeat split; reflexivity.
Qed.

(** ** De-duplication *)

(** The records after a dispatch, channel by channel. *)
Lemma dispatch_last rnd (i : inputs) (s : loop) :
  let s' := dispatch rnd i s in
  let en m := enabled (pid_states (self s) m) in
  pid_states (self s') = pid_states (self s) /\
  last_commands s' S1 = actuator_command (lb i) (rb i) /\
  (en M1 = false -> last_commands s' M1 = manual_command rnd M1 (ly i)) /\
  (en M2 = false -> last_commands s' M2 = manual_command rnd M2 (ry i)) /\
  (forall m, In m pid_motors -> en m = true ->
             last_commands s' m = hold_resolved rnd (pid_time i) s m) /\
  (en M4 = false -> en S2 = false ->
   if Py.ltb JOYSTICK_DEADZONE (lx i) then
     last_commands s' S2 = fmt_cmd (MOTOR_MAP S2) "f" (manual_speed rnd (lx i))
   else if Py.ltb (lx i) (- JOYSTICK_DEADZONE) then
     last_commands s' M4 = fmt_cmd (MOTOR_MAP M4) "f" (manual_speed rnd (lx i))
   else last_commands s' M4 = stop_cmd M4 /\ last_commands s' S2 = stop_cmd S2) /\
  (en M3 = false -> en S3 = false ->
   if Py.ltb JOYSTICK_DEADZONE (rx i) then
     last_commands s' S3 = fmt_cmd (MOTOR_MAP S3) "f" (manual_speed rnd (rx i))
   else if Py.ltb (rx i) (- JOYSTICK_DEADZONE) then
     last_commands s' M3 = fmt_cmd (MOTOR_MAP M3) "f" (manual_speed rnd (rx i))
   else last_commands s' M3 = stop_cmd M3 /\ last_commands s' S3 = stop_cmd S3).
Proof.
  cbn zeta.
  pose proof (hold_fold_last rnd (pid_time i) pid_motors pid_motors_nodup s) as L1.
  dispatch_steps rnd i s.
  pose proof (manual_motor_last rnd s1 M1 (ly i)) as L2. fold s2 in L2.
  pose proof (exclusive_pair_last rnd s2 M4 S2 (lx i) ltac:(discriminate)) as L3.
  cbn zeta in L3. fold s3 in L3.
  pose proof (manual_motor_last rnd s3 M2 (ry i)) as L4. fold s4 in L4.
  pose proof (exclusive_pair_last rnd s4 M3 S3 (rx i) ltac:(discriminate)) as L5.
  cbn zeta in L5. fold s5 in L5.
  pose proof (actuator_last s5 (lb i) (rb i)) as L6. fold s6 in L6.
  rewrite P1 in L2. rewrite P2 in L3. rewrite P3 in L4. rewrite P4 in L5.
  pose proof (untouched_trans _ _ _ _ _ U5 U6) as V5.
  pose proof (untouched_trans _ _ _ _ _ U4 V5) as V4.
  pose proof (untouched_trans _ _ _ _ _ U3 V4) as V3.
  pose proof (untouched_trans _ _ _ _ _ U2 V3) as V2.
  cbv beta in V2, V3, V4, V5.
  split; [exact P6|]. split; [exact L6|].
  split; [|split; [|split; [|split]]].
  - intros En. rewrite (untouched_last _ _ _ M1 V3); [now apply L2|].
    intros [[[E|E] _]|[[E _]|[[[E|E] _]|E]]]; discriminate.
  - intros En. rewrite (untouched_last _ _ _ M2 V5); [now apply L4|].
    intros [[[E|E] _]|E]; discriminate.
  - intros m Hin En. rewrite (untouched_last _ _ _ m V2); [now apply L1|].
    intros [[-> E]|[[[-> | ->] [E1 E2]]|[[-> E]|[[[-> | ->] [E1 E2]]|<-]]]];
      try congruence.
    simpl in Hin. intuition discriminate.
  - intros En Ep. specialize (L3 En Ep).
    rewrite (untouched_last _ _ _ M4 V4), (untouched_last _ _ _ S2 V4); [exact L3| |].
    all: intros [[E _]|[[[E|E] _]|E]]; discriminate.
  - intros En Ep. specialize (L5 En Ep).
    rewrite (untouched_last _ _ _ M3 U6), (untouched_last _ _ _ S3 U6); [exact L5| |];
      discriminate.
Qed.

Lemma on_channel_inj (m m' : motor) (c : string) :
  on_channel m c = true -> on_channel m' c = true -> m = m'.
Proof.
  unfold on_channel. intros H H'. apply String.eqb_eq in H, H'. rewrite H in H'.
  destruct m, m'; try reflexivity; discriminate.
Qed.

Lemma pair_resolved_some rnd (s : loop) (neg pos : motor) (x : Q) (m : motor) (c : string) :
  pair_resolved rnd s neg pos x m = Some c ->
  enabled (pid_states (self s) neg) = false /\
  enabled (pid_states (self s) pos) = false /\
  c = fmt_cmd (MOTOR_MAP m) "f" (manual_speed rnd x) /\
  (if Py.ltb JOYSTICK_DEADZONE x then m = pos
   else Py.ltb x (- JOYSTICK_DEADZONE) = true /\ m = neg).
Proof.
  unfold pair_resolved.
  destruct (enabled (pid_states (self s) neg)), (enabled (pid_states (self s) pos));
    cbn [orb]; try discriminate.
  destruct (Py.ltb JOYSTICK_DEADZONE x).
  - destruct (motor_eqb m pos) eqn:E; [|discriminate].
    apply motor_eqb_eq in E. subst. intros [= <-]. auto.
  - destruct (Py.ltb x (- JOYSTICK_DEADZONE)); [|discriminate].
    destruct (motor_eqb m neg) eqn:E; [|discriminate].
    apply motor_eqb_eq in E. subst. intros [= <-]. auto.
Qed.

Lemma resolved_channel rnd (i : inputs) (s : loop) (m : motor) (c : string) :
  resolved rnd i s m = Some c -> on_channel m c = true.
Proof.
  unfold resolved. destruct (_ && _).
  - intros [= <-]. unfold hold_resolved.
    destruct (hold_command_fmt m (pid_states (self s) m) (current_encoders (self s) m)
                (snd (PID.update rnd (pid_controllers (self s) m) (pid_time i m)
                        (inject_Z (current_encoders (self s) m))))) as (d & n & ->).
    rewrite on_channel_fmt. apply motor_eqb_refl.
  - destruct m;
      try (intros [= <-]; unfold manual_command; rewrite on_channel_fmt; reflexivity);
      try (intros H; apply pair_resolved_some in H; destruct H as (_ & _ & -> & _);
           rewrite on_channel_fmt; reflexivity).
    intros [= <-]. unfold actuator_command. now destruct (lb i), (rb i).
Qed.

(** After a dispatch the record of a channel is the command resolved for
    it. *)
Lemma resolved_recorded rnd (i : inputs) (s : loop) (m : motor) (c : string) :
  resolved rnd i s m = Some c -> last_commands (dispatch rnd i s) m = c.
Proof.
  destruct (dispatch_last rnd i s) as (_ & LS1 & LM1 & LM2 & LH & LP1 & LP2).
  cbn beta in *. unfold resolved.
  destruct (existsb (motor_eqb m) pid_motors && enabled (pid_states (self s) m)) eqn:E.
  - apply andb_true_iff in E. destruct E as [Hin En]. intros [= <-].
    apply LH; [|exact En]. apply existsb_exists in Hin.
    destruct Hin as (m' & Hin & Heq). apply motor_eqb_eq in Heq. now subst.
  - assert (En : m <> S1 -> enabled (pid_states (self s) m) = false).
    { intros Hne. destruct m; try contradiction; exact E. }
    destruct m.
    + intros [= <-]. apply LM1, En. discriminate.
    + intros [= <-]. apply LM2, En. discriminate.
    + intros H. apply pair_resolved_some in H. destruct H as (E3 & E3' & -> & Hsel).
      specialize (LP2 E3 E3').
      destruct (Py.ltb JOYSTICK_DEADZONE (rx i)); [discriminate|].
      destruct Hsel as [Hsel _]. now rewrite Hsel in LP2.
    + intros H. apply pair_resolved_some in H. destruct H as (E3 & E3' & -> & Hsel).
      specialize (LP1 E3 E3').
      destruct (Py.ltb JOYSTICK_DEADZONE (lx i)); [discriminate|].
      destruct Hsel as [Hsel _]. now rewrite Hsel in LP1.
    + intros [= <-]. exact LS1.
    + intros H. apply pair_resolved_some in H. destruct H as (E3 & E3' & -> & Hsel).
      specialize (LP1 E3 E3').
      destruct (Py.ltb JOYSTICK_DEADZONE (lx i)); [exact LP1|].
      destruct Hsel as [_ Hsel]. discriminate.
    + intros H. apply pair_resolved_some in H. destruct H as (E3 & E3' & -> & Hsel).
      specialize (LP2 E3 E3').
      destruct (Py.ltb JOYSTICK_DEADZONE (rx i)); [exact LP2|].
      destruct Hsel as [_ Hsel]. discriminate.
Qed.

Lemma eqb_false_neq (c l : string) : negb (String.eqb c l) = true -> c <> l.
Proof. destruct (String.eqb_spec c l); [discriminate | auto]. Qed.

(** What the block of a pair writes, command by command. *)
Lemma pair_writes_in rnd (s : loop) (neg pos : motor) (x : Q) (c : string) :
  In c (pair_writes rnd s neg pos x) ->
  enabled (pid_states (self s) neg) = false /\
  enabled (pid_states (self s) pos) = false /\
  (c = stop_cmd neg \/ c = stop_cmd pos \/
   (pair_resolved rnd s neg pos x pos = Some c /\ c <> last_commands s pos) \/
   (pair_resolved rnd s neg pos x neg = Some c /\ c <> last_commands s neg)).
Proof.
  unfold pair_writes, pair_resolved.
  destruct (serial_open (self s)); [|contradiction].
  destruct (enabled (pid_states (self s) neg)); [contradiction|].
  destruct (enabled (pid_states (self s) pos)); [contradiction|].
  cbn [negb andb orb]. intros Hin. split; [reflexivity|]. split; [reflexivity|].
  destruct (Py.ltb JOYSTICK_DEADZONE x).
  { destruct (negb _) eqn:E; [|contradiction]. apply eqb_false_neq in E.
    destruct Hin as [<-|[<-|[]]]; [now left|].
    right; right; left. now rewrite motor_eqb_refl. }
  destruct (Py.ltb x (- JOYSTICK_DEADZONE)).
  { destruct (negb _) eqn:E; [|contradiction]. apply eqb_false_neq in E.
    destruct Hin as [<-|[<-|[]]]; [now right; left|].
    right; right; right. now rewrite motor_eqb_refl. }
  destruct (_ || _); [|contradiction].
  destruct Hin as [<-|[<-|[]]]; auto.
Qed.

(** Every command that a dispatch writes is the command resolved for its
    channel, different from the record of that channel, or a stop sent to a
    member of a pair in manual mode. *)
Lemma dispatch_writes_in rnd (i : inputs) (s : loop) (c : string) :
  In c (dispatch_writes rnd i s) ->
  exists m, on_channel m c = true /\
            ((resolved rnd i s m = Some c /\ c <> last_commands s m) \/
             (c = stop_cmd m /\ In m pair_motors /\
              enabled (pid_states (self s) m) = false)).
Proof.
  assert (Hres : forall m, resolved rnd i s m = Some c -> c <> last_commands s m ->
                           exists m, on_channel m c = true /\
                                     ((resolved rnd i s m = Some c /\ c <> last_commands s m) \/
                                      (c = stop_cmd m /\ In m pair_motors /\
                                       enabled (pid_states (self s) m) = false))).
  { intros m Hr Hl. exists m. split; [now apply resolved_channel in Hr | now left]. }
  assert (Hstop : forall m, In m pair_motors -> enabled (pid_states (self s) m) = false ->
                            exists m', on_channel m' (stop_cmd m) = true /\
                                       ((resolved rnd i s m' = Some (stop_cmd m) /\
                                         stop_cmd m <> last_commands s m') \/
                                        (stop_cmd m = stop_cmd m' /\ In m' pair_motors /\
                                         enabled (pid_states (self s) m') = false))).
  { intros m Hin En. exists m. split; [|now right].
    rewrite on_channel_stop. apply motor_eqb_refl. }
  assert (Hman : forall m v, (m = M1 /\ v = ly i) \/ (m = M2 /\ v = ry i) ->
                             In c (manual_writes rnd s m v) ->
                             resolved rnd i s m = Some c /\ c <> last_commands s m).
  { intros m v Hm. unfold manual_writes.
    destruct (serial_open (self s)); [|contradiction].
    destruct (enabled (pid_states (self s) m)) eqn:En; [contradiction|].
    cbn [negb andb]. destruct (negb _) eqn:E; [|contradiction].
    apply eqb_false_neq in E. intros [<-|[]]. split; [|exact E].
    unfold resolved. rewrite En, andb_false_r.
    now destruct Hm as [[-> ->]|[-> ->]]. }
  assert (Hpair : forall neg pos x,
             (neg = M4 /\ pos = S2 /\ x = lx i) \/ (neg = M3 /\ pos = S3 /\ x = rx i) ->
             In c (pair_writes rnd s neg pos x) ->
             exists m, on_channel m c = true /\
                       ((resolved rnd i s m = Some c /\ c <> last_commands s m) \/
                        (c = stop_cmd m /\ In m pair_motors /\
                         enabled (pid_states (self s) m) = false))).
  { intros neg pos x Hp Hin. apply pair_writes_in in Hin.
    destruct Hin as (En & Ep & [-> | [-> | [[Hr Hl] | [Hr Hl]]]]).
    - apply Hstop; [|exact En].
      destruct Hp as [(-> & _)|(-> & _)]; simpl; auto.
    - apply Hstop; [|exact Ep].
      destruct Hp as [(_ & -> & _)|(_ & -> & _)]; simpl; auto.
    - apply (Hres pos); [|exact Hl]. unfold resolved. rewrite Ep, andb_false_r.
      now destruct Hp as [(-> & -> & ->)|(-> & -> & ->)].
    - apply (Hres neg); [|exact Hl]. unfold resolved. rewrite En, andb_false_r.
      now destruct Hp as [(-> & -> & ->)|(-> & -> & ->)]. }
  unfold dispatch_writes. rewrite !in_app_iff.
  intros [Hin | [Hin | [Hin | [Hin | [Hin | Hin]]]]].
  - apply in_concat in Hin. destruct Hin as (l & Hl & Hc).
    apply in_map_iff in Hl. destruct Hl as (m & <- & Hm).
    unfold hold_writes in Hc.
    destruct (serial_open (self s)); [|contradiction].
    destruct (enabled (pid_states (self s) m)) eqn:En; [|contradiction].
    cbn [andb] in Hc. destruct (negb _) eqn:E; [|contradiction].
    apply eqb_false_neq in E. destruct Hc as [<-|[]].
    apply (Hres m); [|exact E]. unfold resolved. rewrite En, andb_true_r.
    replace (existsb (motor_eqb m) pid_motors) with true; [reflexivity|].
    symmetry. apply existsb_exists. exists m. split; [exact Hm | apply motor_eqb_refl].
  - destruct (Hman M1 (ly i)) as [Hr Hl]; auto. now apply (Hres M1).
  - apply (Hpair M4 S2 (lx i)); auto.
  - destruct (Hman M2 (ry i)) as [Hr Hl]; auto. now apply (Hres M2).
  - apply (Hpair M3 S3 (rx i)); auto.
  - unfold actuator_writes in Hin.
    destruct (serial_open (self s)); [|contradiction].
    cbn [andb] in Hin. destruct (negb _) eqn:E; [|contradiction].
    apply eqb_false_neq in E. destruct Hin as [<-|[]].
    now apply (Hres S1).
Qed.

(** C8 as stated fails: with the left stick pushed right at 0.5 and
    then at 0.75, the second dispatch writes ["4:s:0\n"] again, although it
    was the last command written on channel 4. *)
Lemma pair_stop_written_again :
  ~ (forall rnd (i1 i2 : inputs),
        deduplicated
          (serial_out (self (dispatch rnd i2
                               (dispatch rnd i1 (init_loop (init_app true)))))) = true).
Proof.
  intros H.
  specialize (H (fun q => q)
                (mkInputs 1000 [] (fun _ => 1000%Q)
                   (fun axis => if axis =? AXIS_LX then (1 # 2)%Q else 0%Q)
                   (fun _ => false))
                (mkInputs (100002 # 100) [] (fun _ => (100002 # 100)%Q)
                   (fun axis => if axis =? AXIS_LX then (3 # 4)%Q else 0%Q)
                   (fun _ => false))).
  vm_compute in H. discriminate.
Qed.

(** C8 (amended): what a dispatch writes is what its blocks resolve from
    the state at its start.  Every command written is either the command
    resolved for its channel (hold mode, M1 or M2 manual, S1, or the member
    of a pair that the stick selects), and then it differs from the last
    command recorded for that channel, or a stop sent to a member of a pair
    in manual mode.  After the dispatch the record of a channel is the
    command resolved for it, so a command resolved again for the same
    channel by the next dispatch is not written a second time; and a pair
    whose stick stays neutral for two dispatches gets nothing from the
    second. *)
Theorem dispatch_deduplicates :
  forall rnd (i1 i2 : inputs) (s : loop),
    let s1 := dispatch rnd i1 s in
    serial_out (self s1) = serial_out (self s) ++ dispatch_writes rnd i1 s /\
    (forall c, In c (dispatch_writes rnd i1 s) ->
       exists m, on_channel m c = true /\
                 ((resolved rnd i1 s m = Some c /\ c <> last_commands s m) \/
                  (c = stop_cmd m /\ In m pair_motors /\
                   enabled (pid_states (self s) m) = false))) /\
    (forall m c, resolved rnd i1 s m = Some c -> last_commands s1 m = c) /\
    (forall m c, resolved rnd i1 s m = Some c ->
                 resolved rnd i2 s1 m = Some c ->
                 ~ In c (dispatch_writes rnd i2 s1)) /\
    (forall neg pos x1 x2,
        (neg, pos, x1, x2) = (M4, S2, lx i1, lx i2) \/
        (neg, pos, x1, x2) = (M3, S3, rx i1, rx i2) ->
        enabled (pid_states (self s) neg) = false ->
        enabled (pid_states (self s) pos) = false ->
        (Qabs x1 <= JOYSTICK_DEADZONE)%Q -> (Qabs x2 <= JOYSTICK_DEADZONE)%Q ->
        pair_writes rnd s1 neg pos x2 = []).
Proof.
  intros rnd i1 i2 s s1. subst s1.
  split; [apply dispatch_out|].
  split; [intros c; apply dispatch_writes_in|].
  split; [intros m c; apply resolved_recorded|].
  split.
  - intros m c Hr1 Hr2 Hin.
    apply dispatch_writes_in in Hin. destruct Hin as (m' & Hch & Hcase).
    pose proof (resolved_channel _ _ _ _ _ Hr2) as Hch'.
    assert (m' = m) by (eapply on_channel_inj; eassumption). subst m'.
    destruct Hcase as [[_ Hne] | (Hstop & Hin & En)].
    + apply Hne. symmetry. now apply resolved_recorded.
    + unfold resolved in Hr2. rewrite En, andb_false_r in Hr2.
      simpl in Hin.
      destruct Hin as [<-|[<-|[<-|[<-|[]]]]];
        apply pair_resolved_some in Hr2; destruct Hr2 as (_ & _ & Hd & _);
        rewrite Hd in Hstop; now apply drive_not_stop in Hstop.
  - intros neg pos x1 x2 Hp En Ep Hx1 Hx2.
    destruct (dispatch_last rnd i1 s) as (Hs & _ & _ & _ & _ & LP1 & LP2).
    cbn beta in LP1, LP2.
    assert (Hdz : forall x, (Qabs x <= JOYSTICK_DEADZONE)%Q ->
                            Py.ltb JOYSTICK_DEADZONE x = false /\
                            Py.ltb x (- JOYSTICK_DEADZONE) = false).
    { intros x Hx. apply Qabs_Qle_condition in Hx. destruct Hx.
      split; now apply ltb_ge. }
    destruct (Hdz x1 Hx1) as [Ha1 Hb1]. destruct (Hdz x2 Hx2) as [Ha2 Hb2].
    unfold pair_writes. rewrite Hs, En, Ep, Ha2, Hb2. cbn [negb andb].
    destruct Hp as [[= -> -> -> ->]|[= -> -> -> ->]].
    + specialize (LP1 En Ep). rewrite Ha1, Hb1 in LP1. destruct LP1 as [-> ->].
      rewrite !String.eqb_refl. now destruct (serial_open _).
    + specialize (LP2 En Ep). rewrite Ha1, Hb1 in LP2. destruct LP2 as [-> ->].
      rewrite !String.eqb_refl. now destruct (serial_open _).
Qed.

Lemma dispatch_deduplicates_witness :
  let rnd := fun q : Q => q in
  let i := mkInputs 1000 [] (fun _ => 1000%Q)
             (fun axis => if axis =? AXIS_LY then (-(1 # 2))%Q else 0%Q)
             (fun _ => false) in
  let s1 := dispatch rnd i (init_loop (init_app true)) in
  In ("1:f:127" ++ LF)%string (serial_out (self s1)) /\
  ~ In ("1:f:127" ++ LF)%string (dispatch_writes rnd i s1) /\
  pair_writes rnd s1 M4 S2 (lx i) = [].
Proof.
  cbn zeta.
  set (i := mkInputs 1000 [] (fun _ => 1000%Q)
              (fun axis => if axis =? AXIS_LY then (-(1 # 2))%Q else 0%Q)
              (fun _ => false)).
  destruct (dispatch_deduplicates (fun q : Q => q) i i (init_loop (init_app true)))
    as (_ & _ & _ & H & Hn).
  split; [vm_compute; auto|]. split.
  - apply (H M1); reflexivity.
  - apply (Hn M4 S2 (lx i) (lx i) (or_introl eq_refl) eq_refl eq_refl);
      vm_compute; discriminate.
Defined.

(** ** Worked examples *)

(** Gains of M1, setpoint 100: the first [update] returns 0, the second,
    0.1 s later at position 0, returns 60.15 in exact arithmetic. *)
Example pid_second_update :
  let rnd := fun q : Q => q in
  let p0 := PID.set_setpoint (PID.init (6 # 10) (5 # 1000) (1 # 10000) PID.default_limits) 100 in
  let '(p1, y1) := PID.update rnd p0 1000 0 in
  let '(_, y2) := PID.update rnd p1 (10001 # 10) 0 in
  y1 = 0%Q /\ (y2 == 6015 # 100)%Q.
Proof. cbn zeta. split; reflexivity. Qed.

(** The Y button at [t], [t + 0.1 s] and [t + 0.35 s]: the first press
    puts M2 in hold mode, the second is rejected, the third fires. *)
Example debounce_face_button :
  let rnd := fun q : Q => q in
  let a1 := on_event rnd (init_app true) 1000 (JOYBUTTONDOWN 3) in
  let a2 := on_event rnd a1 (10001 # 10) (JOYBUTTONDOWN 3) in
  let a3 := on_event rnd a2 (100035 # 100) (JOYBUTTONDOWN 3) in
  enabled (pid_states a1 M2) = true /\
  enabled (pid_states a2 M2) = true /\
  last_press_times a2 Y = 1000%Q /\
  enabled (pid_states a3 M2) = false /\
  last_press_times a3 Y = (100035 # 100)%Q.
Proof. cbn zeta. repeat split; reflexivity. Qed.

Example command_serialization : fmt_cmd (MOTOR_MAP M1) "b" 120 = ("1:b:120" ++ LF)%string.
Proof. reflexivity. Qed.

Example telemetry_frame :
  map (current_encoders (read_line (init_app true) "E1:10|E2:20|E3:30|E4:40|E5:50|E6:60"))
      pid_motors = [10; 20; 30; 40; 50; 60].
Proof. reflexivity. Qed.

(** Inside the deadzone the M1 block still formats the truncated
    deflection as the speed of its stop command. *)
Example manual_stop_keeps_speed :
  manual_command (fun q => q) M1 (1 # 10)%Q = ("1:s:25" ++ LF)%string.
Proof. reflexivity. Qed.

(** An iteration without events is the dispatch alone; at rest the first
    iteration writes the stop of every channel and the second nothing. *)
Example first_iterations_at_rest :
  let rnd := fun q : Q => q in
  let i := mkInputs 1000 [] (fun _ => 1000%Q) (fun _ => 0%Q) (fun _ => false) in
  let s1 := fst (tick rnd i (init_loop (init_app true))) in
  let s2 := fst (tick rnd i s1) in
  serial_out (self s1) =
    [("1:s:0" ++ LF); ("4:s:0" ++ LF); ("6:s:0" ++ LF); ("2:s:0" ++ LF);
     ("3:s:0" ++ LF); ("7:s:0" ++ LF); ("5:s:0" ++ LF)]%string /\
  serial_out (self s2) = serial_out (self s1).
Proof. cbn zeta. split; reflexivity. Qed.

(** The records compared by the dispatch are those of [last_commands],
    which hold mode writes too and which the stop of [_update_pid_ui] does
    not update.  Here S2 is driven from the stick, M4 is put in hold mode
    from the d-pad with its encoder at 1000 (its controller saturates at
    ["4:f:255\n"]), hold mode is switched off again and the stick goes
    fully left: the resolved ["4:f:255\n"] equals the record of M4, so the
    last iteration writes only the stop of [_update_pid_ui]. *)
Example stale_record_after_hold :
  let rnd := fun q : Q => q in
  let inp (t : Q) (ev : list event) (x : Q) :=
    mkInputs t ev (fun _ => t) (fun axis => if axis =? AXIS_LX then x else 0%Q)
             (fun _ => false) in
  let s0 := init_loop (set_current_encoder (init_app true) M4 1000) in
  let s1 := fst (tick rnd (inp 1000%Q [] (1 # 2)%Q) s0) in
  let s2 := fst (tick rnd (inp (100002 # 100)%Q [JOYHATMOTION 0 (-1, 0)] (1 # 2)%Q) s1) in
  let s3 := fst (tick rnd (inp (100004 # 100)%Q [] (1 # 2)%Q) s2) in
  let s4 := fst (tick rnd (inp (100006 # 100)%Q [JOYHATMOTION 0 (0, 0)] (1 # 2)%Q) s3) in
  let s5 := fst (tick rnd (inp (100008 # 100)%Q [JOYHATMOTION 0 (-1, 0)] (-1)%Q) s4) in
  serial_out (self s4) =
    serial_out (self s1) ++ [("4:f:0" ++ LF)%string; ("4:f:255" ++ LF)%string] /\
  serial_out (self s5) = serial_out (self s4) ++ [("4:s:0" ++ LF)%string] /\
  last_commands s5 M4 = ("4:f:255" ++ LF)%string /\
  last_commands s5 S2 = ("6:f:127" ++ LF)%string.
Proof. vm_compute. repeat split; reflexivity. Qed.

(** * Further properties of the code *)

(** ** The PID controller *)

(** X1: a second [update] at the same clock reading returns 0 and leaves
    the controller as the first call left it, whatever the two measured
    values (the [dt == 0] guard), provided the float difference of a time
    with itself is zero. *)
Theorem update_same_instant :
  forall rnd (p : PID.PIDController) (t v1 v2 : Q),
    (forall x y, x == y -> rnd (x - y) == 0)%Q ->
    let p1 := fst (PID.update rnd p t v1) in
    PID.update rnd p1 t v2 = (p1, 0%Q).
Proof.
  intros rnd p t v1 v2 Hr. cbn zeta.
  assert (Hz : forall q lt, PID.last_time q = Some lt -> (t == lt)%Q ->
                            PID.update rnd q t v2 = (q, 0%Q)).
  { intros q lt Hq Ht. unfold PID.update. rewrite Hq.
    replace (Qeq_bool (rnd (t - lt)%Q) 0) with true; [reflexivity|].
    symmetry. apply Qeq_bool_iff. now apply Hr. }
  assert (Hp1 : PID.last_time (fst (PID.update rnd p t v1)) = Some t \/
               exists lt, PID.last_time p = Some lt /\
                          Qeq_bool (rnd (t - lt)%Q) 0 = true /\
                          fst (PID.update rnd p t v1) = p).
  { unfold PID.update. destruct (PID.last_time p) as [lt|] eqn:E; [|now left].
    destruct (Qeq_bool (rnd (t - lt)%Q) 0) eqn:Ed; [|now left].
    right. exists lt. auto. }
  destruct Hp1 as [H|(lt & E & Ed & ->)].
  - apply (Hz _ t); [exact H | apply Qeq_refl].
  - unfold PID.update. now rewrite E, Ed.
Qed.

Lemma update_same_instant_witness :
  let rnd := fun q : Q => q in
  let p := PID.set_setpoint (PID.init (6 # 10) (5 # 1000) (1 # 10000) PID.default_limits) 100 in
  let p1 := fst (PID.update rnd (fst (PID.update rnd p 10 0)) 11 3) in
  PID.update rnd p1 11 50 = (p1, 0%Q).
Proof.
  apply (update_same_instant (fun q : Q => q)).
  intros x y H. rewrite H. ring.
Defined.

(** X2: no sequence of calls changes the gains or the output limits, and
    the setpoint is always the argument of the last [set_setpoint] (or the
    initial one): [update] never moves the setpoint. *)
Theorem run_keeps_parameters :
  forall rnd (p : PID.PIDController) (cs : list PID.call),
    let p' := fst (PID.run rnd p cs) in
    PID.kp p' = PID.kp p /\ PID.ki p' = PID.ki p /\ PID.kd p' = PID.kd p /\
    PID.output_limits p' = PID.output_limits p /\
    PID.setpoint p' = last_setpoint (PID.setpoint p) cs.
Proof.
  intros rnd p cs. revert p. induction cs as [|c cs IH]; intros p; cbn zeta.
  - repeat split; reflexivity.
  - cbn [PID.run last_setpoint]. destruct c as [sp|t v].
    + destruct (IH (PID.set_setpoint p sp)) as (H1 & H2 & H3 & H4 & H5).
      cbn zeta in *. now rewrite H1, H2, H3, H4, H5.
    + assert (Hu : let q := fst (PID.update rnd p t v) in
                   PID.kp q = PID.kp p /\ PID.ki q = PID.ki p /\ PID.kd q = PID.kd p /\
                   PID.output_limits q = PID.output_limits p /\
                   PID.setpoint q = PID.setpoint p).
      { unfold PID.update. destruct (PID.last_time p) as [lt|]; cbn.
        - destruct (Qeq_bool _ _); cbn; repeat split; reflexivity.
        - repeat split; reflexivity. }
      destruct (PID.update rnd p t v) as [q y]. cbn zeta in Hu. cbn [fst] in Hu.
      destruct Hu as (U1 & U2 & U3 & U4 & U5).
      destruct (IH q) as (H1 & H2 & H3 & H4 & H5). cbn zeta in *.
      destruct (PID.run rnd q cs) as [q' ys]. cbn [fst] in *.
      rewrite H1, H2, H3, H4, H5, U1, U2, U3, U4, U5. repeat split; reflexivity.
Qed.

(** ** Hold-mode toggles *)

Lemma update_pid_ui_frame (a : App) (m : motor) :
  pid_controllers (_update_pid_ui a m) = pid_controllers a /\
  pid_states (_update_pid_ui a m) = pid_states a /\
  current_encoders (_update_pid_ui a m) = current_encoders a /\
  last_press_times (_update_pid_ui a m) = last_press_times a /\
  all_motors_zero_active (_update_pid_ui a m) = all_motors_zero_active a /\
  serial_open (_update_pid_ui a m) = serial_open a.
Proof.
  unfold _update_pid_ui, send_command.
  destruct (enabled (pid_states a m)), (serial_open a) eqn:E; cbn; auto 10.
Qed.

Lemma toggle_frame :
  forall (a : App) (m : motor) (op : App -> App),
    is_toggle m op ->
    (forall m', m' <> m ->
                pid_states (op a) m' = pid_states a m' /\
                pid_controllers (op a) m' = pid_controllers a m') /\
    current_encoders (op a) = current_encoders a /\
    last_press_times (op a) = last_press_times a /\
    all_motors_zero_active (op a) = all_motors_zero_active a /\
    serial_open (op a) = serial_open a.
Proof.
  intros a m op [-> | [z ->]].
  - unfold _toggle_save_pos_pid.
    destruct (enabled (pid_states a m));
      match goal with
      | |- context [_update_pid_ui ?x m] =>
          destruct (update_pid_ui_frame x m) as (-> & -> & -> & -> & -> & ->)
      end; cbn; repeat split; auto; now rewrite ?upd_other.
  - unfold _toggle_pid.
    destruct (enabled (pid_states a m)); cbn [negb];
      match goal with
      | |- context [_update_pid_ui ?x m] =>
          destruct (update_pid_ui_frame x m) as (-> & -> & -> & -> & -> & ->)
      end; cbn; repeat split; auto; now rewrite ?upd_other.
Qed.

(** X3: a toggle of axis [m] (from a face button, a stick click or the
    d-pad) changes the mode and the controller of [m] only: the other axes,
    the encoder readings, the debounce timestamps, the global-zero flag and
    the state of the port are as before. *)
Theorem toggle_touches_one_axis :
  forall (a : App) (m : motor) (op : App -> App),
    is_toggle m op ->
    (forall m', m' <> m ->
                pid_states (op a) m' = pid_states a m' /\
                pid_controllers (op a) m' = pid_controllers a m') /\
    current_encoders (op a) = current_encoders a /\
    last_press_times (op a) = last_press_times a /\
    all_motors_zero_active (op a) = all_motors_zero_active a /\
    serial_open (op a) = serial_open a.
Proof. exact toggle_frame. Qed.

Lemma toggle_touches_one_axis_witness :
  let a := _toggle_pid (init_app true) S2 true in
  enabled (pid_states a S2) = true /\ pid_states a M4 = pid_states (init_app true) M4.
Proof.
  split; [reflexivity|].
  destruct (toggle_touches_one_axis (init_app true) S2 (fun a => _toggle_pid a S2 true))
    as (H & _).
  - right. exists true. reflexivity.
  - apply H. discriminate.
Defined.

Lemma toggle_out (a : App) (m : motor) (op : App -> App) :
  is_toggle m op -> serial_open a = true ->
  enabled (pid_states (op a) m) = negb (enabled (pid_states a m)) /\
  serial_out (op a) = serial_out a ++ (if enabled (pid_states a m) then [stop_cmd m] else []).
Proof.
  intros [-> | [z ->]] Ho.
  - now apply toggle_save_pos_pid_out.
  - now apply toggle_pid_out.
Qed.

(** X4: with the port open, any two successive toggles of the same axis
    (the same control twice, or a face button and then the d-pad) bring the
    axis back to the mode it had and write its stop command exactly
    once. *)
Theorem two_toggles_one_stop :
  forall (a : App) (m : motor) (op1 op2 : App -> App),
    is_toggle m op1 -> is_toggle m op2 ->
    serial_open a = true ->
    enabled (pid_states (op2 (op1 a)) m) = enabled (pid_states a m) /\
    serial_out (op2 (op1 a)) = serial_out a ++ [stop_cmd m].
Proof.
  intros a m op1 op2 H1 H2 Ho.
  destruct (toggle_out a m op1 H1 Ho) as [E1 O1].
  destruct (toggle_frame a m op1 H1) as (_ & _ & _ & _ & Ho1).
  destruct (toggle_out (op1 a) m op2 H2 ltac:(congruence)) as [E2 O2].
  rewrite E2, E1, O2, O1, E1, negb_involutive. split; [reflexivity|].
  destruct (enabled (pid_states a m)); cbn [negb]; now rewrite <- ?app_assoc, ?app_nil_r.
Qed.

Lemma two_toggles_one_stop_witness :
  serial_out (_toggle_pid (_toggle_save_pos_pid (init_app true) M3) M3 true)
  = [("3:s:0" ++ LF)%string].
Proof.
  destruct (two_toggles_one_stop (init_app true) M3
              (fun a => _toggle_save_pos_pid a M3) (fun a => _toggle_pid a M3 true))
    as [_ H].
  - now left.
  - right. now exists true.
  - reflexivity.
  - exact H.
Defined.

(** X5: holding an axis at its current position freezes it.  When a
    disabled axis is toggled from its face button, its target is the
    encoder reading of that moment and its controller is re-primed at that
    setpoint; as long as the reading stays within 5 counts of it, the
    dispatch resolves the stop command of the axis, whatever the controller
    computes. *)
Theorem hold_at_current_position_stops :
  forall rnd clock (a : App) (lc : motor -> string) (m : motor) (reading : Z),
    enabled (pid_states a m) = false ->
    Z.abs (current_encoders a m - reading) <= 5 ->
    let a1 := _toggle_save_pos_pid a m in
    pid_states a1 m = mkState true (current_encoders a m) /\
    pid_controllers a1 m =
      PID.set_setpoint (pid_controllers a m) (inject_Z (current_encoders a m)) /\
    hold_resolved rnd clock (mkLoop (set_current_encoder a1 m reading) lc) m = stop_cmd m.
Proof.
  intros rnd clock a lc m reading En Hr. cbn zeta.
  assert (Hst : pid_states (_toggle_save_pos_pid a m) m = mkState true (current_encoders a m) /\
                pid_controllers (_toggle_save_pos_pid a m) m =
                PID.set_setpoint (pid_controllers a m) (inject_Z (current_encoders a m))).
  { unfold _toggle_save_pos_pid. rewrite En.
    match goal with
    | |- context [_update_pid_ui ?x m] =>
        destruct (update_pid_ui_frame x m) as (-> & -> & _)
    end.
    cbn. now rewrite !upd_same. }
  destruct Hst as [Hs Hp]. split; [exact Hs|]. split; [exact Hp|].
  unfold hold_resolved, hold_command, PID_TARGET_THRESHOLD.
  cbn [self set_current_encoder pid_states current_encoders].
  rewrite Hs, upd_same. cbn [target].
  destruct (Z.gtb_spec (Z.abs (current_encoders a m - reading)) 5); [lia | reflexivity].
Qed.

Lemma hold_at_current_position_stops_witness :
  let a := set_current_encoder (init_app true) M2 1200 in
  hold_resolved (fun q => q) (fun _ => 7%Q)
    (mkLoop (set_current_encoder (_toggle_save_pos_pid a M2) M2 1203) (fun _ => EmptyString)) M2
  = ("2:s:0" ++ LF)%string.
Proof.
  destruct (hold_at_current_position_stops (fun q => q) (fun _ => 7%Q)
              (set_current_encoder (init_app true) M2 1200) (fun _ => EmptyString) M2 1203
              eq_refl ltac:(vm_compute; discriminate)) as (_ & _ & H).
  exact H.
Defined.

(** X6: pressing BACK twice from the inactive mode, with the port open,
    always ends with the mode inactive again, every holdable axis disabled
    and one stop command written to each of the six channels, in the order
    of the controllers: the first press enables every axis and writes
    nothing. *)
Theorem global_toggle_twice :
  forall a : App,
    serial_open a = true ->
    all_motors_zero_active a = false ->
    let a2 := toggle_all_pid_zero_mode (toggle_all_pid_zero_mode a) in
    all_motors_zero_active a2 = false /\
    Forall (fun m => enabled (pid_states a2 m) = false) pid_motors /\
    serial_out a2 = serial_out a ++ map stop_cmd pid_motors.
Proof.
  intros a Ho Hz. cbn zeta.
  assert (Hin : forall m, In m pid_motors -> existsb (motor_eqb m) pid_motors = true).
  { intros m Hm. apply existsb_exists. exists m. split; [exact Hm | apply motor_eqb_refl]. }
  set (a1 := toggle_all_pid_zero_mode a).
  assert (H1 : all_motors_zero_active a1 = true /\ serial_open a1 = true /\
               (forall m, In m pid_motors -> enabled (pid_states a1 m) = true) /\
               serial_out a1 = serial_out a).
  { split; [|split; [|split]].
    4: { unfold a1. now rewrite (toggle_all_out a Ho), Hz, app_nil_r. }
    all: unfold a1, toggle_all_pid_zero_mode; rewrite Hz; cbn [negb];
      destruct (toggle_all_fold pid_motors pid_motors_nodup
                  (set_all_motors_zero_active a true)) as (Hz' & Ho' & Hs & _);
      cbn zeta in *.
    - exact Hz'.
    - rewrite Ho'. exact Ho.
    - intros m Hm. rewrite Hs, (Hin m Hm).
      cbn [set_all_motors_zero_active all_motors_zero_active pid_states].
      unfold zero_mode_state. now destruct (pid_states a m) as [[] tg]. }
  destruct H1 as (Hz1 & Ho1 & He1 & Hw1).
  split; [|split].
  3: { rewrite (toggle_all_out a1 Ho1), Hz1, Hw1. f_equal.
       unfold pid_motors in *. cbn [filter].
       rewrite !He1 by (simpl; auto 10). reflexivity. }
  all: unfold toggle_all_pid_zero_mode at 1; rewrite Hz1; cbn [negb];
    destruct (toggle_all_fold pid_motors pid_motors_nodup
                (set_all_motors_zero_active a1 false)) as (Hz' & _ & Hs & _);
    cbn zeta in *.
  - exact Hz'.
  - apply Forall_forall. intros m Hm. rewrite Hs, (Hin m Hm).
    cbn [set_all_motors_zero_active all_motors_zero_active pid_states].
    unfold zero_mode_state. rewrite (He1 m Hm). reflexivity.
Qed.

Lemma global_toggle_twice_witness :
  serial_out (toggle_all_pid_zero_mode (toggle_all_pid_zero_mode
               (_toggle_save_pos_pid (init_app true) M2)))
  = map stop_cmd pid_motors.
Proof.
  destruct (global_toggle_twice (_toggle_save_pos_pid (init_app true) M2) eq_refl eq_refl)
    as (_ & _ & H).
  exact H.
Defined.

(** ** Events *)

Lemma toggle_all_last_press_times (a : App) :
  last_press_times (toggle_all_pid_zero_mode a) = last_press_times a.
Proof.
  unfold toggle_all_pid_zero_mode.
  set (a0 := set_all_motors_zero_active a (negb (all_motors_zero_active a))).
  change (last_press_times a) with (last_press_times a0). clearbody a0.
  revert a0. induction pid_motors as [|m l IH]; intros a0; [reflexivity|].
  cbn [fold_left]. rewrite IH.
  now destruct (toggle_all_body_spec a0 m) as (_ & _ & _ & H & _).
Qed.

Lemma button_action_last_press_times (c : control) (a : App) :
  last_press_times (button_action c a) = last_press_times a.
Proof.
  assert (Hs : forall m, last_press_times (_toggle_save_pos_pid a m) = last_press_times a).
  { intros m. apply (toggle_frame a m (fun a' => _toggle_save_pos_pid a' m)). now left. }
  assert (Hp : forall m z, last_press_times (_toggle_pid a m z) = last_press_times a).
  { intros m z. apply (toggle_frame a m (fun a' => _toggle_pid a' m z)).
    right. now exists z. }
  destruct c; cbn [button_action]; auto using toggle_all_last_press_times.
Qed.

(** A press of one of the seven handled buttons, as one test on the
    time elapsed since the stored timestamp. *)
Lemma on_button_down_spec rnd (a : App) (now : Q) (c : control) (w : Q) (b : Z) :
  In (c, w, b) debounced_buttons ->
  on_button_down rnd a now b =
  if Py.ltb w (rnd (now - last_press_times a c)%Q)
  then button_action c (set_last_press_time a c now) else a.
Proof.
  unfold debounced_buttons. cbn [In].
  intros [H|[H|[H|[H|[H|[H|[H|[]]]]]]]]; injection H as <- <- <-;
    unfold on_button_down, debounced, is_button;
    cbn [BTN_MAP Z.eqb Pos.eqb andb button_action]; reflexivity.
Qed.

(** X7: a press that follows an accepted press of the same button within
    its debounce window (300 ms for the face buttons and the stick clicks,
    500 ms for BACK) is rejected and changes nothing at all, whatever the
    accepted press did. *)
Theorem press_within_window_rejected :
  forall rnd (a : App) (t1 t2 : Q) (c : control) (w : Q) (b : Z),
    In (c, w, b) debounced_buttons ->
    (w < rnd (t1 - last_press_times a c))%Q ->
    (rnd (t2 - t1) <= w)%Q ->
    let a1 := on_button_down rnd a t1 b in
    a1 = button_action c (set_last_press_time a c t1) /\
    on_button_down rnd a1 t2 b = a1.
Proof.
  intros rnd a t1 t2 c w b Hin H1 H2. cbn zeta.
  apply ltb_lt in H1.
  rewrite (on_button_down_spec rnd a t1 c w b Hin), H1. split; [reflexivity|].
  rewrite (on_button_down_spec rnd _ t2 c w b Hin), button_action_last_press_times.
  cbn [set_last_press_time last_press_times].
  replace (control_eqb c c) with true by now destruct c.
  apply ltb_ge in H2. now rewrite H2.
Qed.

Lemma press_within_window_rejected_witness :
  let rnd := fun q : Q => q in
  let a1 := on_button_down rnd (init_app true) 1000 6 in
  Forall (fun m => enabled (pid_states a1 m) = true) pid_motors /\
  on_button_down rnd a1 (10004 # 10) 6 = a1.
Proof.
  cbn zeta. split; [repeat constructor|].
  destruct (press_within_window_rejected (fun q : Q => q) (init_app true) 1000 (10004 # 10)
              BACK DPAD_DEBOUNCE_DELAY 6) as [_ H].
  - simpl. auto 10.
  - reflexivity.
  - vm_compute. discriminate.
  - exact H.
Defined.

(** X8: the events without an action leave the application state as it
    is: button releases, presses of the bumpers or of an unmapped button,
    motions of another hat, and hat positions that are not one of the four
    directions (the centre and the diagonals). *)
Theorem inert_event_changes_nothing :
  forall rnd (a : App) (now : Q) (e : event),
    inert e = true -> on_event rnd a now e = a.
Proof.
  intros rnd a now e He. destruct e as [|b|b|hat [x y]|]; try reflexivity;
    try discriminate; cbn [on_event].
  - cbn [inert existsb] in He. rewrite !negb_orb in He.
    repeat (apply andb_true_iff in He; destruct He as [?H He]).
    repeat match goal with
           | H : negb (_ =? _) = true |- _ => apply negb_true_iff in H
           end.
    unfold on_button_down, is_button. cbn [BTN_MAP].
    repeat match goal with
           | H : (b =? ?k) = false |- _ => rewrite H; clear H
           end.
    reflexivity.
  - cbn [inert] in He. unfold on_hat_motion.
    destruct (hat =? 0); [|reflexivity]. cbn [negb orb] in He.
    destruct x as [|[p|p|]|[p|p|]], y as [|[p'|p'|]|[p'|p'|]];
      try reflexivity; discriminate.
Qed.

Lemma inert_event_changes_nothing_witness :
  on_event (fun q => q) (init_app true) 1000 (JOYHATMOTION 0 (1, 1)) = init_app true /\
  on_event (fun q => q) (init_app true) 1000 (JOYBUTTONDOWN 7) = init_app true.
Proof.
  split; apply inert_event_changes_nothing; reflexivity.
Defined.

Lemma process_events_quit rnd (a : App) (now : Q) (es1 es2 : list event) :
  ~ In QUIT es1 ->
  process_events rnd a now (es1 ++ QUIT :: es2) =
  (fst (process_events rnd a now es1), true).
Proof.
  revert a. induction es1 as [|e es1 IH]; intros a Hn; [reflexivity|].
  cbn [List.app]. destruct e; try (exfalso; apply Hn; now left);
    cbn [process_events]; apply IH; intros H; apply Hn; now right.
Qed.

(** X9: a QUIT event ends the iteration at once: the events queued
    after it are not handled and nothing is dispatched, so the iteration
    leaves [last_commands] as it was and writes only what the events before
    the QUIT wrote. *)
Theorem quit_ends_iteration :
  forall rnd (i : inputs) (s : loop) (es1 es2 : list event),
    events i = es1 ++ QUIT :: es2 ->
    ~ In QUIT es1 ->
    tick rnd i s =
    (mkLoop (fst (process_events rnd (self s) (current_time i) es1)) (last_commands s),
     true).
Proof.
  intros rnd i s es1 es2 He Hn. unfold tick.
  now rewrite He, (process_events_quit rnd _ _ es1 es2 Hn).
Qed.

Lemma quit_ends_iteration_witness :
  let i := mkInputs 1000 [JOYHATMOTION 0 (1, 0); QUIT; JOYHATMOTION 0 (-1, 0)]
             (fun _ => 1000%Q) (fun _ => (1 # 2)%Q) (fun _ => true) in
  let r := tick (fun q => q) i (init_loop (init_app true)) in
  snd r = true /\ serial_out (self (fst r)) = [] /\
  enabled (pid_states (self (fst r)) S2) = true /\
  enabled (pid_states (self (fst r)) M4) = false.
Proof.
  cbn zeta.
  set (i := mkInputs 1000 [JOYHATMOTION 0 (1, 0); QUIT; JOYHATMOTION 0 (-1, 0)]
              (fun _ => 1000%Q) (fun _ => (1 # 2)%Q) (fun _ => true)).
  assert (He : events i = [JOYHATMOTION 0 (1, 0)] ++ QUIT :: [JOYHATMOTION 0 (-1, 0)])
    by reflexivity.
  rewrite (quit_ends_iteration (fun q => q) i (init_loop (init_app true)) _ _ He).
  - repeat split; reflexivity.
  - simpl. intros [H|[]]. discriminate.
Defined.

(** ** The dispatch *)

Lemma int_of_float_byte (x : Q) :
  (0 <= x)%Q -> (x <= 255)%Q -> 0 <= Py.int_of_float x <= 255.
Proof.
  intros H0 H1. destruct (int_of_float_nonneg x H0) as (Hz & Hlo & _).
  split; [exact Hz|].
  assert (Hq : (inject_Z (Py.int_of_float x) <= inject_Z 255)%Q)
    by (change (inject_Z 255) with 255%Q; lra).
  now rewrite <- Zle_Qle in Hq.
Qed.

Lemma hold_command_well_formed (m : motor) (st : pid_state) (cur : Z) (out : Q) :
  well_formed_command (hold_command m st cur out).
Proof.
  unfold hold_command. exists m.
  destruct (Z.abs (target st - cur) >? PID_TARGET_THRESHOLD).
  - exists (hold_direction m out), (hold_speed out). split; [reflexivity|]. split.
    + unfold hold_direction. destruct (_ || _), (Py.ltb 0 out); auto.
    + apply hold_speed_bounds.
  - exists "s"%string, 0. split; [reflexivity|]. split; [auto | lia].
Qed.

Lemma stop_cmd_well_formed (m : motor) : well_formed_command (stop_cmd m).
Proof. exists m, "s"%string, 0. split; [reflexivity|]. split; [auto | lia]. Qed.

Lemma dispatch_writes_forall rnd (i : inputs) (s : loop) :
  (forall x, 0 <= x <= 255 -> 0 <= rnd x <= 255)%Q ->
  (forall axis, Qabs (get_axis i axis) <= 1)%Q ->
  Forall well_formed_command (dispatch_writes rnd i s).
Proof.
  intros Hr Hax.
  assert (Hsp : forall v, (Qabs v <= 1)%Q -> 0 <= manual_speed rnd v <= 255).
  { intros v Hv. unfold manual_speed.
    destruct (Hr (Qabs v * 255)%Q) as [H0 H1].
    - pose proof (Qabs_nonneg v). split; nra.
    - now apply int_of_float_byte. }
  assert (Hneg : forall axis, (Qabs (- get_axis i axis) <= 1)%Q)
    by (intros axis; rewrite Qabs_opp; apply Hax).
  assert (Hman : forall m v, (Qabs v <= 1)%Q -> well_formed_command (manual_command rnd m v)).
  { intros m v Hv. exists m, (manual_direction v), (manual_speed rnd v).
    split; [reflexivity|]. split; [|now apply Hsp].
    unfold manual_direction. destruct (Py.ltb _ _); [|destruct (Py.ltb _ _)]; auto. }
  assert (Hdrive : forall m v, (Qabs v <= 1)%Q ->
                               well_formed_command (fmt_cmd (MOTOR_MAP m) "f" (manual_speed rnd v))).
  { intros m v Hv. exists m, "f"%string, (manual_speed rnd v). auto. }
  assert (Hpair : forall neg pos v, (Qabs v <= 1)%Q ->
                                    Forall well_formed_command (pair_writes rnd s neg pos v)).
  { intros neg pos v Hv.
    pose proof (stop_cmd_well_formed neg) as Hn.
    pose proof (stop_cmd_well_formed pos) as Hp.
    pose proof (Hdrive neg v Hv) as Hdn. pose proof (Hdrive pos v Hv) as Hdp.
    destruct (pair_writes_cases rnd s neg pos v) as [-> | [-> | [-> | ->]]];
      repeat (constructor; [assumption|]); try constructor. }
  assert (Hone : forall c, well_formed_command c -> Forall well_formed_command [c])
    by (intros c Hc; constructor; [exact Hc | constructor]).
  assert (Hmw : forall m v, (Qabs v <= 1)%Q ->
                            Forall well_formed_command (manual_writes rnd s m v)).
  { intros m v Hv. unfold manual_writes.
    destruct (_ && _ && _); [apply Hone, Hman, Hv | constructor]. }
  unfold dispatch_writes.
  apply Forall_app; split; [|apply Forall_app; split; [|apply Forall_app; split;
    [|apply Forall_app; split; [|apply Forall_app; split]]]].
  - apply Forall_concat, Forall_map, Forall_forall. intros m _.
    unfold hold_writes.
    destruct (_ && _ && _); [apply Hone, hold_command_well_formed | constructor].
  - apply Hmw, Hneg.
  - apply Hpair, Hax.
  - apply Hmw, Hneg.
  - apply Hpair, Hax.
  - unfold actuator_writes, actuator_command.
    destruct (_ && _); [apply Hone | constructor].
    exists S1. destruct (lb i); [|destruct (rb i)].
    + exists "f"%string, 255. split; [reflexivity|]. split; [auto | lia].
    + exists "b"%string, 255. split; [reflexivity|]. split; [auto | lia].
    + exists "s"%string, 0. split; [reflexivity|]. split; [auto | lia].
Qed.

(** X10: every command that a dispatch writes to the port has a channel
    from 1 to 7, a direction among [f], [b], [s] and a speed from 0 to 255,
    as long as the four stick readings are within [-1, 1] and rounding
    keeps a value of the interval [0, 255] inside it.  In hold mode the
    speed is bounded whatever the controller returns. *)
Theorem dispatch_writes_well_formed :
  forall rnd (i : inputs) (s : loop),
    (forall x, 0 <= x <= 255 -> 0 <= rnd x <= 255)%Q ->
    (forall axis, Qabs (get_axis i axis) <= 1)%Q ->
    exists w, serial_out (self (dispatch rnd i s)) = serial_out (self s) ++ w /\
              Forall well_formed_command w.
Proof.
  intros rnd i s Hr Hax. exists (dispatch_writes rnd i s).
  split; [apply dispatch_out | now apply dispatch_writes_forall].
Qed.

Lemma dispatch_writes_well_formed_witness :
  exists w,
    serial_out (self (dispatch (fun q => q)
                        (mkInputs 1000 [] (fun _ => 1000%Q) (fun _ => (-1)%Q) (fun _ => false))
                        (init_loop (init_app true)))) = [] ++ w /\
    Forall well_formed_command w.
Proof.
  apply (dispatch_writes_well_formed (fun q => q)
           (mkInputs 1000 [] (fun _ => 1000%Q) (fun _ => (-1)%Q) (fun _ => false))
           (init_loop (init_app true))).
  - intros x H. exact H.
  - intros axis. vm_compute. discriminate.
Defined.

(** ** What the dispatch leaves alone *)

Section Frame.

Context {T : Type} (f : App -> T).
Hypothesis f_send : forall a c, f (send_command a c) = f a.

Lemma send_if_new_keeps (s : loop) (m : motor) (cmd : string) :
  f (self (send_if_new s m cmd)) = f (self s).
Proof. unfold send_if_new. destruct (negb _); [apply f_send | reflexivity]. Qed.

Lemma pair_drive_keeps (s : loop) (mt other : motor) (cmd : string) :
  f (self (pair_drive s mt other cmd)) = f (self s).
Proof.
  unfold pair_drive. destruct (negb _); [|reflexivity].
  cbn [self]. now rewrite !f_send.
Qed.

Lemma pair_stop_keeps (s : loop) (neg pos : motor) :
  f (self (pair_stop s neg pos)) = f (self s).
Proof.
  unfold pair_stop. destruct (_ || _); [|reflexivity].
  cbn [self]. now rewrite !f_send.
Qed.

Lemma manual_motor_keeps rnd (s : loop) (m : motor) (v : Q) :
  f (self (manual_motor rnd s m v)) = f (self s).
Proof.
  unfold manual_motor. destruct (negb _); [apply send_if_new_keeps | reflexivity].
Qed.

Lemma exclusive_pair_keeps rnd (s : loop) (neg pos : motor) (x : Q) :
  f (self (exclusive_pair rnd s neg pos x)) = f (self s).
Proof.
  unfold exclusive_pair. destruct (_ && _); [|reflexivity].
  destruct (Py.ltb _ _); [apply pair_drive_keeps|].
  destruct (Py.ltb _ _); [apply pair_drive_keeps | apply pair_stop_keeps].
Qed.

Lemma manual_blocks_keep rnd (i : inputs) (s : loop) :
  f (self (dispatch rnd i s)) =
  f (self (fold_left (hold_motor rnd (pid_time i)) pid_motors s)).
Proof.
  unfold dispatch, actuator.
  now rewrite send_if_new_keeps, exclusive_pair_keeps, manual_motor_keeps,
    exclusive_pair_keeps, manual_motor_keeps.
Qed.

Hypothesis f_ctrl : forall a m p, f (set_pid_controller a m p) = f a.

Lemma hold_motor_keeps rnd clock (s : loop) (m : motor) :
  f (self (hold_motor rnd clock s m)) = f (self s).
Proof.
  unfold hold_motor. destruct (enabled _); [|reflexivity].
  destruct (PID.update rnd _ _ _) as [p out].
  rewrite send_if_new_keeps. apply f_ctrl.
Qed.

Lemma dispatch_keeps rnd (i : inputs) (s : loop) :
  f (self (dispatch rnd i s)) = f (self s).
Proof.
  rewrite manual_blocks_keep. generalize pid_motors. intros l. revert s.
  induction l as [|m l IH]; intros s; [reflexivity|].
  cbn [fold_left]. rewrite IH. apply hold_motor_keeps.
Qed.

End Frame.

Lemma send_command_controllers (a : App) (c : string) :
  pid_controllers (send_command a c) = pid_controllers a.
Proof. apply send_command_frame. Qed.

Lemma hold_motor_controller rnd clock (s : loop) (m : motor) :
  pid_controllers (self (hold_motor rnd clock s m)) m =
  if enabled (pid_states (self s) m)
  then fst (PID.update rnd (pid_controllers (self s) m) (clock m)
              (inject_Z (current_encoders (self s) m)))
  else pid_controllers (self s) m.
Proof.
  unfold hold_motor. destruct (enabled _); [|reflexivity].
  destruct (PID.update rnd _ _ _) as [p out].
  rewrite (send_if_new_keeps pid_controllers send_command_controllers).
  cbn. apply upd_same.
Qed.

Lemma hold_fold_controllers rnd clock (l : list motor) :
  NoDup l ->
  forall (s : loop) (m : motor),
    pid_controllers (self (fold_left (hold_motor rnd clock) l s)) m =
    if existsb (motor_eqb m) l && enabled (pid_states (self s) m)
    then fst (PID.update rnd (pid_controllers (self s) m) (clock m)
                (inject_Z (current_encoders (self s) m)))
    else pid_controllers (self s) m.
Proof.
  induction 1 as [|x l Hx Hnd IH]; intros s m; [reflexivity|].
  cbn [fold_left existsb]. rewrite IH.
  destruct (hold_motor_untouched rnd clock s x) as (Hs & He & _ & Hc).
  rewrite Hs, He.
  destruct (motor_eqb m x) eqn:E.
  - apply motor_eqb_eq in E. subst x.
    replace (existsb (motor_eqb m) l) with false.
    + cbn [orb andb]. apply hold_motor_controller.
    + symmetry. apply not_true_is_false. intros H. apply existsb_exists in H.
      destruct H as (m' & Hin & Hm). apply motor_eqb_eq in Hm. now subst.
  - assert (Hne : m <> x) by (intros ->; now rewrite motor_eqb_refl in E).
    destruct (Hc m) as [_ ->]; [tauto|]. reflexivity.
Qed.

(** X11: a dispatch changes neither the hold states, the encoder
    readings, the debounce timestamps, the global-zero flag nor the state of
    the port; of the controllers it advances exactly those of the held
    motors, each by one [update] at the reading of its axis. *)
Theorem dispatch_frame :
  forall rnd (i : inputs) (s : loop),
    let a := self s in
    let a' := self (dispatch rnd i s) in
    pid_states a' = pid_states a /\
    current_encoders a' = current_encoders a /\
    last_press_times a' = last_press_times a /\
    all_motors_zero_active a' = all_motors_zero_active a /\
    serial_open a' = serial_open a /\
    forall m, pid_controllers a' m =
              if held s m
              then fst (PID.update rnd (pid_controllers a m) (pid_time i m)
                          (inject_Z (current_encoders a m)))
              else pid_controllers a m.
Proof.
  intros rnd i s. cbn zeta.
  assert (Hsend : forall a c,
             pid_states (send_command a c) = pid_states a /\
             current_encoders (send_command a c) = current_encoders a /\
             last_press_times (send_command a c) = last_press_times a /\
             all_motors_zero_active (send_command a c) = all_motors_zero_active a /\
             serial_open (send_command a c) = serial_open a).
  { intros a c. unfold send_command. destruct (serial_open a) eqn:E; cbn; auto. }
  repeat split.
  - apply dispatch_keeps; [apply Hsend | reflexivity].
  - apply dispatch_keeps; [apply Hsend | reflexivity].
  - apply dispatch_keeps; [apply Hsend | reflexivity].
  - apply dispatch_keeps; [apply Hsend | reflexivity].
  - apply dispatch_keeps; [apply Hsend | reflexivity].
  - intros m. rewrite (manual_blocks_keep pid_controllers send_command_controllers).
    unfold held. apply hold_fold_controllers, pid_motors_nodup.
Qed.

(** ** Hold mode and the sticks *)

Lemma manual_motor_held rnd (s : loop) (m : motor) (v : Q) :
  enabled (pid_states (self s) m) = true -> manual_motor rnd s m v = s.
Proof. intros En. unfold manual_motor. now rewrite En. Qed.

Lemma exclusive_pair_held rnd (s : loop) (neg pos : motor) (x : Q) :
  enabled (pid_states (self s) neg) || enabled (pid_states (self s) pos) = true ->
  exclusive_pair rnd s neg pos x = s.
Proof.
  intros En. unfold exclusive_pair.
  destruct (enabled (pid_states (self s) neg)), (enabled (pid_states (self s) pos));
    try reflexivity; discriminate.
Qed.

Lemma send_command_states (a : App) (c : string) :
  pid_states (send_command a c) = pid_states a.
Proof. apply send_command_frame. Qed.

Lemma hold_fold_states rnd clock (l : list motor) (s : loop) :
  pid_states (self (fold_left (hold_motor rnd clock) l s)) = pid_states (self s).
Proof.
  revert s. induction l as [|m l IH]; intros s; [reflexivity|].
  cbn [fold_left]. rewrite IH.
  apply (hold_motor_keeps pid_states send_command_states). reflexivity.
Qed.

(** X12: a stick whose motor is held is not read: when M1 (or M2) is in
    hold mode the vertical axis of its stick has no effect on the dispatch,
    and when one member of a pair is in hold mode the horizontal axis has
    none, so that the other member cannot be driven by hand. *)
Theorem held_axis_ignores_stick :
  forall rnd (i : inputs) (s : loop) (axis : Z) (v : Q),
    existsb (fun m => enabled (pid_states (self s) m)) (stick_motors axis) = true ->
    dispatch rnd (with_axis i axis v) s = dispatch rnd i s.
Proof.
  intros rnd i s axis v H.
  pose proof (hold_fold_states rnd (pid_time i) pid_motors s) as P1.
  pose proof (manual_motor_keeps pid_states send_command_states rnd) as KM.
  pose proof (exclusive_pair_keeps pid_states send_command_states rnd) as KP.
  unfold stick_motors in H. unfold dispatch, with_axis.
  cbn [pid_time get_axis get_button].
  set (s1 := fold_left (hold_motor rnd (pid_time i)) pid_motors s) in *.
  destruct (Z.eqb_spec axis AXIS_LY) as [->|_]; [|
  destruct (Z.eqb_spec axis AXIS_LX) as [->|_]; [|
  destruct (Z.eqb_spec axis AXIS_RY) as [->|_]; [|
  destruct (Z.eqb_spec axis AXIS_RX) as [->|_]; [|discriminate]]]];
    cbn [existsb orb] in H; rewrite orb_false_r in H;
    change (AXIS_LX =? AXIS_LY) with false; change (AXIS_RX =? AXIS_LY) with false;
    change (AXIS_RY =? AXIS_LY) with false; change (AXIS_LY =? AXIS_LX) with false;
    change (AXIS_RX =? AXIS_LX) with false; change (AXIS_RY =? AXIS_LX) with false;
    change (AXIS_LX =? AXIS_RY) with false; change (AXIS_LY =? AXIS_RY) with false;
    change (AXIS_RX =? AXIS_RY) with false; change (AXIS_LX =? AXIS_RX) with false;
    change (AXIS_LY =? AXIS_RX) with false; change (AXIS_RY =? AXIS_RX) with false;
    rewrite ?Z.eqb_refl.
  - rewrite !(manual_motor_held rnd s1 M1) by (now rewrite P1). reflexivity.
  - rewrite !(exclusive_pair_held rnd (manual_motor rnd s1 M1 _) M4 S2)
      by (now rewrite KM, P1).
    reflexivity.
  - rewrite !(manual_motor_held rnd (exclusive_pair rnd _ M4 S2 _) M2)
      by (now rewrite KP, KM, P1).
    reflexivity.
  - rewrite !(exclusive_pair_held rnd (manual_motor rnd _ M2 _) M3 S3)
      by (now rewrite KM, KP, KM, P1).
    reflexivity.
Qed.

Lemma held_axis_ignores_stick_witness :
  let i := mkInputs 1000 [] (fun _ => 1000%Q) (fun _ => 0%Q) (fun _ => false) in
  let s := init_loop (_toggle_pid (init_app true) S2 true) in
  dispatch (fun q => q) (with_axis i AXIS_LX (-1)) s = dispatch (fun q => q) i s.
Proof.
  apply held_axis_ignores_stick. reflexivity.
Defined.

(** X13: with no motor in hold mode, a dispatch that reads the same
    sticks and bumpers as the dispatch before it writes nothing to the
    port. *)
Theorem steady_inputs_write_nothing :
  forall rnd (i1 i2 : inputs) (s : loop),
    (forall m, In m pid_motors -> enabled (pid_states (self s) m) = false) ->
    (forall axis, get_axis i2 axis = get_axis i1 axis) ->
    (forall button, get_button i2 button = get_button i1 button) ->
    let s1 := dispatch rnd i1 s in
    serial_out (self (dispatch rnd i2 s1)) = serial_out (self s1).
Proof.
  intros rnd i1 i2 s Hen Hax Hbt. cbn zeta.
  destruct (dispatch_last rnd i1 s) as (Hs & LS1 & LM1 & LM2 & _ & LP1 & LP2).
  cbn beta in *.
  assert (E : forall m, In m pid_motors ->
                        enabled (pid_states (self (dispatch rnd i1 s)) m) = false)
    by (intros m Hm; rewrite Hs; now apply Hen).
  rewrite dispatch_out. rewrite <- app_nil_r. f_equal.
  unfold dispatch_writes, lx, ly, rx, ry, lb, rb in *. rewrite !Hax, !Hbt.
  assert (Hh : concat (map (hold_writes rnd (pid_time i2) (dispatch rnd i1 s)) pid_motors) = []).
  { unfold pid_motors, hold_writes in *. cbn [map concat].
    rewrite !E by (simpl; auto 10). now rewrite !andb_false_r. }
  rewrite Hh. cbn [List.app].
  unfold manual_writes, pair_writes, actuator_writes.
  rewrite LS1, LM1, LM2 by (apply Hen; simpl; auto 10).
  rewrite !String.eqb_refl. cbn [negb]. rewrite !andb_false_r. cbn [List.app].
  specialize (LP1 ltac:(apply Hen; simpl; auto 10) ltac:(apply Hen; simpl; auto 10)).
  specialize (LP2 ltac:(apply Hen; simpl; auto 10) ltac:(apply Hen; simpl; auto 10)).
  assert (Hp : forall c : bool, (if c then [] else []) = @nil string)
    by (intros []; reflexivity).
  destruct (Py.ltb JOYSTICK_DEADZONE (get_axis i1 AXIS_LX));
    [|destruct (Py.ltb (get_axis i1 AXIS_LX) (- JOYSTICK_DEADZONE))];
    (destruct (Py.ltb JOYSTICK_DEADZONE (get_axis i1 AXIS_RX));
     [|destruct (Py.ltb (get_axis i1 AXIS_RX) (- JOYSTICK_DEADZONE))]);
    cbn zeta;
    repeat match goal with
           | H : _ /\ _ |- _ => destruct H
           | H : last_commands _ _ = _ |- _ => rewrite H; clear H
           end;
    rewrite ?String.eqb_refl; cbn [negb orb]; now rewrite !Hp.
Qed.

Lemma steady_inputs_write_nothing_witness :
  let i := mkInputs 1000 [] (fun _ => 1000%Q) (fun _ => (1 # 2)%Q) (fun _ => true) in
  let s1 := dispatch (fun q => q) i (init_loop (init_app true)) in
  serial_out (self (dispatch (fun q => q) i s1)) = serial_out (self s1).
Proof.
  apply (steady_inputs_write_nothing (fun q => q)); [|reflexivity|reflexivity].
  intros m _. reflexivity.
Defined.

(** X14: the first hold command after the d-pad or a stick click has
    enabled a motor at target 0 has speed 0: the controller was re-primed by
    [set_setpoint], so its first [update] returns 0.  More than 5 counts away
    from 0 the command is a drive command at speed 0, backward for S2 and
    S3 and forward for the others; within 5 counts it is the stop
    command. *)
Theorem first_hold_command_has_speed_zero :
  forall rnd clock (a : App) (lc : motor -> string) (m : motor),
    enabled (pid_states a m) = false ->
    let s := mkLoop (_toggle_pid a m true) lc in
    enabled (pid_states (self s) m) = true /\
    hold_resolved rnd clock s m =
      if Z.abs (current_encoders a m) >? PID_TARGET_THRESHOLD
      then fmt_cmd (MOTOR_MAP m) (if motor_eqb m S2 || motor_eqb m S3 then "b" else "f") 0
      else stop_cmd m.
Proof.
  intros rnd clock a lc m En. cbn zeta.
  assert (Ht : _toggle_pid a m true =
               set_pid_controller (set_pid_state a m (mkState true 0)) m
                 (PID.set_setpoint (pid_controllers a m) 0)).
  { unfold _toggle_pid. rewrite En. cbn [negb]. unfold _update_pid_ui.
    cbn [set_pid_controller set_pid_state pid_states pid_controllers].
    rewrite !upd_same. reflexivity. }
  rewrite Ht. cbn [self set_pid_controller set_pid_state pid_states].
  rewrite upd_same. split; [reflexivity|].
  unfold hold_resolved.
  cbn [self set_pid_controller set_pid_state pid_states pid_controllers current_encoders].
  rewrite !upd_same. unfold PID.update, PID.set_setpoint.
  cbn [PID.last_time snd]. unfold hold_command. cbn [target].
  replace (Z.abs (0 - current_encoders a m)) with (Z.abs (current_encoders a m)) by lia.
  destruct (Z.abs (current_encoders a m) >? PID_TARGET_THRESHOLD); [|reflexivity].
  unfold hold_direction. now destruct (motor_eqb m S2 || motor_eqb m S3).
Qed.

Lemma first_hold_command_has_speed_zero_witness :
  let a := set_current_encoder (init_app true) S3 (-800) in
  hold_resolved (fun q => q) (fun _ => 1000%Q)
    (mkLoop (_toggle_pid a S3 true) (fun _ => EmptyString)) S3
  = ("7:b:0" ++ LF)%string.
Proof.
  cbn zeta.
  destruct (first_hold_command_has_speed_zero (fun q => q) (fun _ => 1000%Q)
              (set_current_encoder (init_app true) S3 (-800)) (fun _ => EmptyString) S3
              eq_refl) as [_ H].
  exact H.
Defined.

(** ** Telemetry frames *)

Lemma all_chars_app (p : ascii -> bool) (s t : string) :
  all_chars p (s ++ t) = all_chars p s && all_chars p t.
Proof.
  induction s as [|c s IH]; [reflexivity|].
  cbn [String.append all_chars]. now rewrite IH, andb_assoc.
Qed.

Lemma all_chars_impl (p q : ascii -> bool) (s : string) :
  (forall c, p c = true -> q c = true) -> all_chars p s = true -> all_chars q s = true.
Proof.
  intros Hpq. induction s as [|c s IH]; [reflexivity|].
  cbn [all_chars]. intros H. apply andb_true_iff in H. destruct H as [Hc Hs].
  now rewrite (Hpq c Hc), IH.
Qed.

Lemma lstrip_all_space (w : string) :
  all_chars Py.is_space w = true -> Py.lstrip w = EmptyString.
Proof.
  induction w as [|c w IH]; [reflexivity|].
  cbn [all_chars Py.lstrip]. intros H. apply andb_true_iff in H.
  destruct H as [-> Hw]. now apply IH.
Qed.

Lemma rstrip_all_space (w : string) :
  all_chars Py.is_space w = true -> Py.rstrip w = EmptyString.
Proof.
  induction w as [|c w IH]; [reflexivity|].
  cbn [all_chars Py.rstrip]. intros H. apply andb_true_iff in H.
  destruct H as [Hc Hw]. now rewrite (IH Hw), Hc.
Qed.

Lemma rstrip_app (s w : string) :
  all_chars (fun c => negb (Py.is_space c)) s = true ->
  all_chars Py.is_space w = true ->
  Py.rstrip (s ++ w) = s.
Proof.
  intros Hs Hw. induction s as [|c s IH]; [now apply rstrip_all_space|].
  cbn [all_chars] in Hs. apply andb_true_iff in Hs. destruct Hs as [Hc Hs].
  cbn [String.append Py.rstrip]. rewrite (IH Hs).
  destruct s; [|reflexivity]. apply negb_true_iff in Hc. now rewrite Hc.
Qed.

(** [strip] removes the trailing whitespace of a line without
    whitespace inside. *)
Lemma strip_app (s w : string) :
  all_chars (fun c => negb (Py.is_space c)) s = true ->
  all_chars Py.is_space w = true ->
  Py.strip (s ++ w) = s.
Proof.
  intros Hs Hw. unfold Py.strip. destruct s as [|c s].
  - cbn [String.append]. now rewrite (lstrip_all_space w Hw).
  - pose proof Hs as Hs'. cbn [all_chars] in Hs'. apply andb_true_iff in Hs'.
    destruct Hs' as [Hc _]. apply negb_true_iff in Hc.
    cbn [String.append Py.lstrip]. rewrite Hc.
    now apply (rstrip_app (String c s) w).
Qed.

Lemma split_none (sep : ascii) (s : string) :
  all_chars (fun c => negb (Ascii.eqb c sep)) s = true -> Py.split sep s = [s].
Proof.
  induction s as [|c s IH]; [reflexivity|].
  cbn [all_chars Py.split]. intros H. apply andb_true_iff in H.
  destruct H as [Hc Hs]. apply negb_true_iff in Hc. now rewrite Hc, (IH Hs).
Qed.

Lemma split_app (sep : ascii) (s t : string) :
  all_chars (fun c => negb (Ascii.eqb c sep)) s = true ->
  Py.split sep (s ++ String sep t) = s :: Py.split sep t.
Proof.
  induction s as [|c s IH].
  - intros _. cbn [String.append Py.split]. now rewrite Ascii.eqb_refl.
  - cbn [all_chars String.append Py.split]. intros H. apply andb_true_iff in H.
    destruct H as [Hc Hs]. apply negb_true_iff in Hc. now rewrite Hc, (IH Hs).
Qed.

(** *** Decimal numerals *)

Lemma digits_uint (u : Decimal.uint) :
  forall (acc : Decimal.uint) (b : bool),
    u <> Decimal.Nil \/ b = true ->
    Py.digits (Z.of_N (DecimalPos.Unsigned.of_lu acc)) b (NilEmpty.string_of_uint u) =
    Some (Z.of_N (DecimalPos.Unsigned.of_lu (Decimal.revapp u acc))).
Proof.
  induction u as [|u IH|u IH|u IH|u IH|u IH|u IH|u IH|u IH|u IH|u IH];
    intros acc b Hb;
    [destruct Hb as [Hb | ->]; [contradiction | reflexivity] | ..];
    cbn [NilEmpty.string_of_uint Py.digits Decimal.revapp];
    match goal with
    | |- context [Py.digit_value ?c] =>
        change (Py.digit_value c) with (Some (Z.of_nat (nat_of_ascii c) - 48))
    end;
    cbv iota;
    match goal with
    | |- Py.digits _ true ?s = Some (Z.of_N (DecimalPos.Unsigned.of_lu (Decimal.revapp u ?a))) =>
        rewrite <- (IH a true (or_intror eq_refl));
        apply (f_equal (fun y => Py.digits y true s))
    end;
    cbn [DecimalPos.Unsigned.of_lu]; simpl (Z.of_nat _); lia.
Qed.

Lemma digits_string_of_uint (u : Decimal.uint) :
  Py.digits 0 false (NilZero.string_of_uint u) = Some (Z.of_N (Pos.of_uint u)).
Proof.
  rewrite DecimalPos.Unsigned.of_uint_alt. unfold Decimal.rev.
  destruct u; [reflexivity | ..];
    apply (digits_uint _ Decimal.Nil false); left; discriminate.
Qed.

Lemma string_of_uint_numeric (u : Decimal.uint) :
  all_chars numeric_char (NilEmpty.string_of_uint u) = true.
Proof. induction u; cbn [NilEmpty.string_of_uint all_chars]; auto. Qed.

Lemma str_numeric (z : Z) : all_chars numeric_char (Py.str z) = true.
Proof.
  unfold Py.str, NilZero.string_of_int, NilZero.string_of_uint.
  destruct (Z.to_int z) as [u|u]; destruct u; try reflexivity;
    apply (string_of_uint_numeric (_ u)) || (cbn [all_chars]; apply (string_of_uint_numeric (_ u))).
Qed.

Lemma numeric_char_plain (c : ascii) :
  numeric_char c = true ->
  negb (Py.is_space c) = true /\ negb (Ascii.eqb c ":") = true /\
  negb (Ascii.eqb c "|") = true.
Proof.
  destruct c as [[] [] [] [] [] [] [] []]; try discriminate; intros _; repeat split.
Qed.

Lemma str_plain (z : Z) :
  all_chars (fun c => negb (Py.is_space c)) (Py.str z) = true /\
  all_chars (fun c => negb (Ascii.eqb c ":")) (Py.str z) = true /\
  all_chars (fun c => negb (Ascii.eqb c "|")) (Py.str z) = true.
Proof.
  pose proof (str_numeric z) as H.
  repeat split; revert H; apply all_chars_impl; intros c Hc;
    apply (numeric_char_plain c Hc).
Qed.

Lemma string_append_empty (s : string) : (s ++ EmptyString)%string = s.
Proof. induction s as [|c s IH]; [reflexivity|]. cbn [String.append]. now rewrite IH. Qed.

Lemma strip_plain (s : string) :
  all_chars (fun c => negb (Py.is_space c)) s = true -> Py.strip s = s.
Proof.
  intros H. rewrite <- (string_append_empty s) at 1. now apply strip_app.
Qed.

Lemma int_of_str_uint (u : Decimal.uint) :
  Py.int_of_str (NilZero.string_of_uint u) = Some (Z.of_N (Pos.of_uint u)).
Proof.
  unfold Py.int_of_str. rewrite strip_plain.
  - destruct u; [reflexivity | ..];
      match goal with
      | |- context [NilZero.string_of_uint ?d] => exact (digits_string_of_uint d)
      end.
  - assert (H : all_chars numeric_char (NilZero.string_of_uint u) = true).
    { destruct u; [reflexivity | ..];
        match goal with
        | |- context [NilZero.string_of_uint ?d] => exact (string_of_uint_numeric d)
        end. }
    revert H. apply all_chars_impl. intros c Hc. apply (numeric_char_plain c Hc).
Qed.

(** [int] reads back what an f-string prints. *)
Lemma int_of_str_str (z : Z) : Py.int_of_str (Py.str z) = Some z.
Proof.
  unfold Py.str. destruct z as [|p|p]; [reflexivity | |].
  - cbn [Z.to_int NilZero.string_of_int]. rewrite int_of_str_uint.
    now rewrite DecimalPos.Unsigned.of_to.
  - cbn [Z.to_int NilZero.string_of_int].
    pose proof (str_plain (Z.neg p)) as (Hs & _). unfold Py.str in Hs.
    cbn [Z.to_int NilZero.string_of_int] in Hs.
    unfold Py.int_of_str. rewrite (strip_plain _ Hs).
    rewrite digits_string_of_uint, DecimalPos.Unsigned.of_to. reflexivity.
Qed.

Lemma int_of_str_str_space (z : Z) (w : string) :
  all_chars Py.is_space w = true -> Py.int_of_str (Py.str z ++ w) = Some z.
Proof.
  intros Hw. destruct (str_plain z) as (Hs & _).
  rewrite <- (int_of_str_str z). unfold Py.int_of_str.
  now rewrite (strip_app _ _ Hs Hw), (strip_plain _ Hs).
Qed.

Lemma split_token (key : string) (z : Z) :
  all_chars (fun c => negb (Ascii.eqb c ":")) key = true ->
  Py.split ":" (key ++ String ":" (Py.str z)) = [key; Py.str z].
Proof.
  intros Hk. rewrite (split_app _ _ _ Hk). f_equal.
  apply split_none. apply str_plain.
Qed.

(** A token [Ek:v] of a frame stores [v] in slot [k - 1] of the values
    handed to the graph and as the reading of the axis of [Ek]. *)
Lemma update_encoders_part_token (ev : list Z) (ce : motor -> Z)
      (key : string) (n : Z) (m : motor) (v : Z) :
  In (key, n, m) encoder_keys ->
  update_encoders_part (ev, ce) (key ++ String ":" (Py.str v)) =
  match Py.list_set ev (n - 1) v with
  | Some ev' => (ev', upd ce m v)
  | None => (ev, ce)
  end.
Proof.
  unfold encoder_keys. cbn [In].
  intros [H|[H|[H|[H|[H|[H|[]]]]]]]; injection H as <- <- <-;
    unfold update_encoders_part; rewrite split_token by reflexivity;
    rewrite int_of_str_str;
    match goal with
    | |- context [Py.int_of_str (Py.tail ?k)] =>
        let r := eval vm_compute in (Py.int_of_str (Py.tail k)) in
        change (Py.int_of_str (Py.tail k)) with r
    end;
    match goal with
    | |- context [encoder_map ?k] =>
        let r := eval vm_compute in (encoder_map k) in
        change (encoder_map k) with r
    end;
    cbv iota zeta; reflexivity.
Qed.

Lemma frame_parts (v1 v2 v3 v4 v5 v6 : Z) :
  Py.split "|" (encoder_frame v1 v2 v3 v4 v5 v6) =
  [("E1" ++ String ":" (Py.str v1))%string; ("E2" ++ String ":" (Py.str v2))%string;
   ("E3" ++ String ":" (Py.str v3))%string; ("E4" ++ String ":" (Py.str v4))%string;
   ("E5" ++ String ":" (Py.str v5))%string; ("E6" ++ String ":" (Py.str v6))%string].
Proof.
  assert (Htok : forall k v, k = "1"%char \/ k = "2"%char \/ k = "3"%char \/
                             k = "4"%char \/ k = "5"%char \/ k = "6"%char ->
             all_chars (fun c => negb (Ascii.eqb c "|"))
                       (String "E" (String k (String ":" (Py.str v)))) = true).
  { intros k v Hk. cbn [all_chars]. destruct (str_plain v) as (_ & _ & ->).
    destruct Hk as [->|[->|[->|[->|[->| ->]]]]]; reflexivity. }
  assert (Hstep : forall k v rest,
             k = "1"%char \/ k = "2"%char \/ k = "3"%char \/
             k = "4"%char \/ k = "5"%char \/ k = "6"%char ->
             Py.split "|" (String "E" (String k (String ":" (Py.str v ++ String "|" rest)))) =
             String "E" (String k (String ":" (Py.str v))) :: Py.split "|" rest).
  { intros k v rest Hk. rewrite <- (split_app "|" _ rest (Htok k v Hk)). reflexivity. }
  unfold encoder_frame. cbn [String.append].
  rewrite !Hstep by auto 10. do 5 f_equal.
  apply (split_none "|" _ (Htok "6"%char v6 ltac:(auto 10))).
Qed.

Lemma frame_plain (v1 v2 v3 v4 v5 v6 : Z) :
  all_chars (fun c => negb (Py.is_space c)) (encoder_frame v1 v2 v3 v4 v5 v6) = true.
Proof.
  unfold encoder_frame. rewrite !all_chars_app.
  destruct (str_plain v1) as [-> _]. destruct (str_plain v2) as [-> _].
  destruct (str_plain v3) as [-> _]. destruct (str_plain v4) as [-> _].
  destruct (str_plain v5) as [-> _]. destruct (str_plain v6) as [-> _].
  reflexivity.
Qed.

Ltac token_step key n m :=
  rewrite (update_encoders_part_token _ _ key n m) by (simpl; auto 10);
  match goal with
  | |- context [Py.list_set ?l ?i ?v] =>
      let r := eval vm_compute in (Py.list_set l i v) in
      change (Py.list_set l i v) with r
  end;
  cbv iota.

Lemma frame_values (v1 v2 v3 v4 v5 v6 : Z) (ce : motor -> Z) :
  update_encoders_parts (Py.split "|" (encoder_frame v1 v2 v3 v4 v5 v6)) ce =
  ([v1; v2; v3; v4; v5; v6],
   upd (upd (upd (upd (upd (upd ce M1 v1) M2 v2) M3 v3) M4 v4) S2 v5) S3 v6).
Proof.
  rewrite frame_parts. unfold update_encoders_parts. cbn [fold_left].
  token_step "E1"%string 1 M1. token_step "E2"%string 2 M2.
  token_step "E3"%string 3 M3. token_step "E4"%string 4 M4.
  token_step "E5"%string 5 S2. token_step "E6"%string 6 S3.
  reflexivity.
Qed.

Lemma frame_marker (v1 v2 v3 v4 v5 v6 : Z) :
  String.prefix "E1:" (encoder_frame v1 v2 v3 v4 v5 v6) = true.
Proof.
  unfold encoder_frame. cbn [String.append String.prefix].
  repeat (destruct (ascii_dec _ _); [|congruence]).
  match goal with |- String.prefix _ ?s = true => destruct s; reflexivity end.
Qed.

(** X15: a line that carries six readings under the keys [E1] to [E6],
    printed as Python prints integers and followed by any whitespace (the
    line end), is decoded in full: the six axes get the six readings, in the
    order M1, M2, M3, M4, S2, S3, and the values handed to the graph are the
    same six. *)
Theorem frame_decoded :
  forall (a : App) (v1 v2 v3 v4 v5 v6 : Z) (trailing : string),
    all_chars Py.is_space trailing = true ->
    let raw := (encoder_frame v1 v2 v3 v4 v5 v6 ++ trailing)%string in
    map (current_encoders (read_line a raw)) pid_motors = [v1; v2; v3; v4; v5; v6] /\
    fst (update_encoders_parts (Py.split "|" (Py.strip raw)) (current_encoders a)) =
      [v1; v2; v3; v4; v5; v6].
Proof.
  intros a v1 v2 v3 v4 v5 v6 trailing Hw. cbn zeta.
  unfold read_line, update_encoders.
  rewrite (strip_app _ _ (frame_plain v1 v2 v3 v4 v5 v6) Hw).
  rewrite frame_marker.
  rewrite frame_values. split; reflexivity.
Qed.

Lemma frame_decoded_witness :
  map (current_encoders
         (read_line (init_app true)
            (String.append "E1:120|E2:-45|E3:0|E4:7|E5:-300|E6:15"
                           (String "013" (String "010" EmptyString)))))
      pid_motors = [120; -45; 0; 7; -300; 15].
Proof.
  apply (frame_decoded (init_app true) 120 (-45) 0 7 (-300) 15
           (String "013" (String "010" EmptyString))).
  reflexivity.
Defined.

Lemma store_token_S1 (ce : motor -> Z) (part : string) :
  store_token ce part S1 = ce S1.
Proof.
  unfold store_token, well_formed_token.
  destruct (Py.split ":" part) as [|key [|val_str [|? ?]]]; try reflexivity.
  destruct (encoder_map key) as [m|] eqn:Hk; [|reflexivity].
  destruct (Py.int_of_str val_str) as [v|]; [|reflexivity].
  apply upd_other. intros E. subst m. unfold encoder_map in Hk.
  repeat match type of Hk with
         | context [String.eqb key ?k] => destruct (String.eqb key k); [discriminate|]
         end.
  discriminate.
Qed.

(** X16: a telemetry line changes nothing but the readings of the six
    encoder axes: the controllers, the hold states, the debounce timestamps,
    the global-zero flag, the port and what was written to it, and the entry
    of S1 are as before; a line that does not start with [E1:] once stripped
    changes nothing at all. *)
Theorem telemetry_moves_readings_only :
  forall (a : App) (raw : string),
    let a' := read_line a raw in
    pid_controllers a' = pid_controllers a /\
    pid_states a' = pid_states a /\
    last_press_times a' = last_press_times a /\
    all_motors_zero_active a' = all_motors_zero_active a /\
    serial_open a' = serial_open a /\
    serial_out a' = serial_out a /\
    current_encoders a' S1 = current_encoders a S1 /\
    (String.prefix "E1:" (Py.strip raw) = false -> a' = a).
Proof.
  intros a raw. cbn zeta. unfold read_line.
  destruct (String.prefix "E1:" (Py.strip raw)); [|repeat split; reflexivity].
  unfold update_encoders.
  pose proof (update_encoders_fold (Py.split "|" (Py.strip raw)) [0; 0; 0; 0; 0; 0]
                (current_encoders a) eq_refl) as Hf.
  fold (update_encoders_parts (Py.split "|" (Py.strip raw)) (current_encoders a)) in Hf.
  destruct (update_encoders_parts _ _) as [ev ce]. cbn [snd] in Hf. subst ce.
  cbn. repeat split; try discriminate.
  generalize (current_encoders a). induction (Py.split "|" (Py.strip raw)) as [|p l IH];
    intros ce; [reflexivity|].
  cbn [fold_left]. rewrite IH. apply store_token_S1.
Qed.

(** X17: a token whose key is not a key of [encoder_map] but ends in a
    number from -5 to 6 still lands in the values handed to the graph, in
    the slot that Python's indexing gives to [number - 1] (a negative index
    counts from the end), while the axis table is left alone: [E0:99] puts
    99 in the slot of E6. *)
Theorem unmapped_key_reaches_graph_only :
  forall (ev : list Z) (ce : motor -> Z) (key : string) (n v : Z),
    length ev = 6%nat ->
    all_chars (fun c => negb (Ascii.eqb c ":")) key = true ->
    encoder_map key = None ->
    Py.int_of_str (Py.tail key) = Some n ->
    -5 <= n <= 6 ->
    let slot := Z.to_nat ((n - 1) mod 6) in
    update_encoders_part (ev, ce) (key ++ String ":" (Py.str v)) =
    (firstn slot ev ++ v :: skipn (S slot) ev, ce).
Proof.
  intros ev ce key n v Hlen Hk Hmap Hn Hr. cbn zeta.
  unfold update_encoders_part. rewrite (split_token key v Hk), Hn, int_of_str_str, Hmap.
  unfold Py.list_set. rewrite Hlen. cbv zeta.
  change (Z.of_nat 6) with 6.
  destruct (Z.ltb_spec (n - 1) 0) as [Hneg|Hpos].
  - replace ((n - 1) mod 6) with (n - 1 + 6)
      by (apply Z.mod_unique with (q := -1); lia).
    destruct (Z.leb_spec 0 (n - 1 + 6)); [|lia].
    destruct (Z.ltb_spec (n - 1 + 6) 6); [|lia]. reflexivity.
  - rewrite Z.mod_small by lia.
    destruct (Z.leb_spec 0 (n - 1)); [|lia].
    destruct (Z.ltb_spec (n - 1) 6); [|lia]. reflexivity.
Qed.

Lemma unmapped_key_reaches_graph_only_witness :
  update_encoders_part ([1; 2; 3; 4; 5; 6], current_encoders (init_app true)) "E0:99" =
  ([1; 2; 3; 4; 5; 99], current_encoders (init_app true)).
Proof.
  apply (unmapped_key_reaches_graph_only [1; 2; 3; 4; 5; 6]
           (current_encoders (init_app true)) "E0" 0 99);
    try reflexivity. lia.
Defined.

(** ** The graph window *)

Lemma deque_append_length (n : nat) (d : list Z) (x : Z) :
  length (Graph.deque_append n d x) = Nat.min (length d + 1) n.
Proof.
  unfold Graph.deque_append. cbv zeta. rewrite length_skipn, length_app. cbn [length]. lia.
Qed.

Lemma append_each_ok (nd : list Z) (n : nat) :
  forall (ds : list (list Z)) (i : nat),
    (i + length ds <= length nd)%nat ->
    Forall (fun d => length d = n) ds ->
    snd (Graph.append_each i ds nd) = true /\
    length (fst (Graph.append_each i ds nd)) = length ds /\
    Forall (fun d => length d = Nat.min (n + 1) Graph.data_points)
           (fst (Graph.append_each i ds nd)).
Proof.
  induction ds as [|d ds IH]; intros i Hi Hn; [repeat split; constructor|].
  cbn [Graph.append_each]. cbn [length] in Hi.
  destruct (nth_error nd i) as [x|] eqn:E.
  2: { apply nth_error_None in E. lia. }
  inversion Hn as [|? ? Hd Hds]; subst.
  destruct (IH (S i) ltac:(lia) Hds) as (Hok & Hlen & Hall).
  destruct (Graph.append_each (S i) ds nd) as [r ok]. cbn [fst snd] in *.
  split; [exact Hok|]. split; [cbn [length]; now rewrite Hlen|].
  constructor; [apply deque_append_length | exact Hall].
Qed.


Lemma steps_append (ts : Z) (n : nat) :
  (n <= Graph.data_points)%nat ->
  Graph.deque_append Graph.data_points (steps ts n) ts =
  steps (ts + 1) (Nat.min (n + 1) Graph.data_points).
Proof.
  intros Hn. unfold Graph.deque_append, steps. cbv zeta.
  rewrite length_app, length_map, length_seq. cbn [length].
  assert (Hs : map (fun k => ts - Z.of_nat n + Z.of_nat k) (seq 0 n) ++ [ts] =
               map (fun k => ts + 1 - Z.of_nat (S n) + Z.of_nat k) (seq 0 (S n))).
  { rewrite seq_S, map_app. cbn [map]. f_equal.
    - apply map_ext. intros k. lia.
    - f_equal. lia. }
  rewrite Hs.
  destruct (Nat.eq_dec n Graph.data_points) as [->|Hne].
  - replace (Graph.data_points + 1 - Graph.data_points)%nat with 1%nat by lia.
    rewrite Nat.min_r by lia. cbn [seq map skipn].
    rewrite <- seq_shift, map_map. apply map_ext. intros k. lia.
  - replace (n + 1 - Graph.data_points)%nat with 0%nat by lia.
    rewrite Nat.min_l by lia. cbn [skipn].
    replace (n + 1)%nat with (S n) by lia. reflexivity.
Qed.

(** X18: whatever the sequence of telemetry values (six or more each)
    and presses of the pause button since the window was opened, no
    [update_data] raises, the window keeps six deques, each as long as the
    time axis, the time axis holds [min(time_step, 200)] entries, and these
    are the last steps counted, consecutive up to [time_step - 1]: a pause
    leaves no gap in the time axis. *)
Theorem graph_window_invariant :
  forall ops : list Graph.op,
    Forall (fun o => match o with
                     | Graph.Data new_data => (6 <= length new_data)%nat
                     | Graph.ToggleRun => True
                     end) ops ->
    let g := fst (Graph.run Graph.init ops) in
    let n := length (Graph.time_data g) in
    snd (Graph.run Graph.init ops) = true /\
    length (Graph.encoder_data g) = 6%nat /\
    Forall (fun d => length d = n) (Graph.encoder_data g) /\
    Z.of_nat n = Z.min (Graph.time_step g) 200 /\
    Graph.time_data g = steps (Graph.time_step g) n.
Proof.
  intros ops Hops. cbn zeta.
  assert (Hgen : forall g,
             length (Graph.encoder_data g) = 6%nat ->
             Forall (fun d => length d = length (Graph.time_data g)) (Graph.encoder_data g) ->
             Z.of_nat (length (Graph.time_data g)) = Z.min (Graph.time_step g) 200 ->
             Graph.time_data g = steps (Graph.time_step g) (length (Graph.time_data g)) ->
             let g' := fst (Graph.run g ops) in
             snd (Graph.run g ops) = true /\
             length (Graph.encoder_data g') = 6%nat /\
             Forall (fun d => length d = length (Graph.time_data g')) (Graph.encoder_data g') /\
             Z.of_nat (length (Graph.time_data g')) = Z.min (Graph.time_step g') 200 /\
             Graph.time_data g' = steps (Graph.time_step g') (length (Graph.time_data g'))).
  { induction Hops as [|o ops Ho Hops IH]; intros g H6 Hall Hlen Htd; cbn zeta.
    - cbn [Graph.run fst snd]. auto.
    - destruct o as [nd|]; cbn [Graph.run].
      + unfold Graph.update_data. destruct (Graph.is_running g); cbn [negb].
        * destruct (append_each_ok nd (length (Graph.time_data g)) (Graph.encoder_data g) 0)
            as (Hok & Hl & Hf); [rewrite H6; lia | exact Hall |].
          destruct (Graph.append_each 0 (Graph.encoder_data g) nd) as [ed ok].
          cbn [fst snd] in Hok, Hl, Hf. subst ok.
          match goal with
          | |- context [Graph.run ?g1 ops] =>
              specialize (IH g1); destruct (Graph.run g1 ops) as [g2 ok2]
          end.
          cbn [fst snd andb Graph.encoder_data Graph.time_data Graph.time_step] in *.
          apply IH.
          -- congruence.
          -- now rewrite deque_append_length.
          -- rewrite deque_append_length. unfold Graph.data_points. lia.
          -- rewrite deque_append_length, Htd at 1.
             apply steps_append. unfold Graph.data_points. lia.
        * specialize (IH g H6 Hall Hlen Htd). cbn zeta in IH.
          destruct (Graph.run g ops) as [g2 ok2]. exact IH.
      + apply (IH (Graph.toggle_run g)); assumption. }
  apply Hgen; try reflexivity. repeat constructor.
Qed.

Lemma graph_window_invariant_witness :
  let ops := [Graph.Data [1; 2; 3; 4; 5; 6]; Graph.ToggleRun; Graph.Data [7; 8; 9; 10; 11; 12];
              Graph.ToggleRun; Graph.Data [13; 14; 15; 16; 17; 18]] in
  Graph.time_data (fst (Graph.run Graph.init ops)) = [0; 1] /\
  Graph.time_data (fst (Graph.run Graph.init ops)) =
    steps (Graph.time_step (fst (Graph.run Graph.init ops)))
          (length (Graph.time_data (fst (Graph.run Graph.init ops)))).
Proof.
  cbn zeta. split; [reflexivity|].
  apply graph_window_invariant. repeat constructor; simpl; lia.
Defined.

Lemma numeric_char_no_comma (c : ascii) :
  numeric_char c = true -> negb (Ascii.eqb c ",") = true.
Proof. destruct c as [[] [] [] [] [] [] [] []]; try discriminate; reflexivity. Qed.

Lemma string_append_assoc (s t u : string) : ((s ++ t) ++ u = s ++ (t ++ u))%string.
Proof. induction s as [|c s IH]; [reflexivity|]. cbn [String.append]. now rewrite IH. Qed.

(** A row of the exported file reads back, field by field. *)
Lemma row_text_fields (x : Z) (row : list Z) :
  map Py.int_of_str (Py.split "," (Graph.row_text (x :: row))) = map Some (x :: row).
Proof.
  unfold Graph.row_text. revert x. induction row as [|y row IH]; intros x.
  - cbn [map String.concat]. rewrite split_none.
    + cbn [map]. f_equal. apply int_of_str_str_space. reflexivity.
    + rewrite all_chars_app. rewrite (all_chars_impl _ _ _ numeric_char_no_comma (str_numeric x)).
      reflexivity.
  - change (String.concat "," (map Py.str (x :: y :: row)))
      with (Py.str x ++ String "," (String.concat "," (map Py.str (y :: row))))%string.
    rewrite string_append_assoc. cbn [String.append].
    rewrite split_app
      by apply (all_chars_impl _ _ _ numeric_char_no_comma (str_numeric x)).
    cbn [map]. rewrite int_of_str_str. f_equal. apply IH.
Qed.

Lemma fold_min_same (n : nat) (l : list nat) :
  Forall (fun k => k = n) l -> fold_left Nat.min l n = n.
Proof.
  induction 1 as [|k l -> _ IH]; [reflexivity|].
  cbn [fold_left]. now rewrite Nat.min_id.
Qed.

(** X19: when every deque is as long as the time axis, an export to a
    chosen file writes the header and one row for each time step, and each
    row reads back: split at the commas and read by [int], its fields are
    the time step and the six readings of that step. *)
Theorem export_reads_back :
  forall (g : Graph.GraphWindow) (filepath : string),
    filepath <> EmptyString ->
    Forall (fun d => length d = length (Graph.time_data g)) (Graph.encoder_data g) ->
    exists rows,
      Graph.export_data g filepath = Some (Graph.header :: rows) /\
      length rows = length (Graph.time_data g) /\
      forall k, (k < length (Graph.time_data g))%nat ->
        map Py.int_of_str (Py.split "," (nth k rows EmptyString)) =
        map Some (nth k (Graph.time_data g) 0 ::
                  map (fun d => nth k d 0) (Graph.encoder_data g)).
Proof.
  intros g filepath Hp Hall. unfold Graph.export_data.
  destruct (String.eqb_spec filepath EmptyString) as [E|_]; [contradiction|].
  eexists. split; [reflexivity|].
  unfold Graph.zip_star.
  rewrite fold_min_same by (apply Forall_map; exact Hall).
  split; [now rewrite !length_map, length_seq|].
  intros k Hk.
  rewrite (nth_indep _ EmptyString (Graph.row_text [])) by (now rewrite !length_map, length_seq).
  rewrite (map_nth Graph.row_text).
  rewrite (nth_indep _ [] ((fun k0 => map (fun row => nth k0 row 0)
                                         (Graph.time_data g :: Graph.encoder_data g)) 0%nat))
    by (now rewrite length_map, length_seq).
  rewrite (map_nth (fun k0 => map (fun row => nth k0 row 0)
                               (Graph.time_data g :: Graph.encoder_data g))).
  rewrite seq_nth by exact Hk. cbn [map Nat.add].
  apply row_text_fields.
Qed.

Lemma export_reads_back_witness :
  let g := fst (Graph.run Graph.init [Graph.Data [10; -20; 30; 40; 50; 60]]) in
  exists rows,
    Graph.export_data g "run.csv" = Some (Graph.header :: rows) /\
    length rows = 1%nat /\
    forall k, (k < 1)%nat ->
      map Py.int_of_str (Py.split "," (nth k rows EmptyString)) =
      map Some (nth k (Graph.time_data g) 0 ::
                map (fun d => nth k d 0) (Graph.encoder_data g)).
Proof.
  cbn zeta.
  apply (export_reads_back (fst (Graph.run Graph.init [Graph.Data [10; -20; 30; 40; 50; 60]]))
           "run.csv").
  - discriminate.
  - repeat constructor.
Defined.

Lemma update_encoders_parts_length (parts : list string) :
  forall (ev : list Z) (ce : motor -> Z),
    length ev = 6%nat ->
    length (fst (fold_left update_encoders_part parts (ev, ce))) = 6%nat.
Proof.
  induction parts as [|part parts IH]; intros ev ce Hlen; [exact Hlen|].
  cbn [fold_left].
  destruct (update_encoders_part_spec ev ce part Hlen) as [Hl _].
  destruct (update_encoders_part (ev, ce) part) as [ev' ce']. now apply IH.
Qed.

(** X20: whatever the telemetry line, the message loop hands six values
    to a window with six deques, so that [update_data] does not raise; the
    axis table is updated as without a window. *)
Theorem telemetry_feeds_graph :
  forall (a : App) (g : Graph.GraphWindow) (data : string),
    length (Graph.encoder_data g) = 6%nat ->
    let values := fst (update_encoders_parts (Py.split "|" data) (current_encoders a)) in
    length values = 6%nat /\
    process_update_encoders a (Some g) data =
      (update_encoders a data, Some (fst (Graph.update_data g values)), true).
Proof.
  intros a g data H6. cbn zeta.
  assert (Hlen : length (fst (update_encoders_parts (Py.split "|" data) (current_encoders a)))
                 = 6%nat)
    by (apply update_encoders_parts_length; reflexivity).
  split; [exact Hlen|].
  unfold process_update_encoders, update_encoders.
  destruct (update_encoders_parts _ _) as [values encoders]. cbn [fst] in *.
  assert (Hok : snd (Graph.update_data g values) = true).
  { unfold Graph.update_data. destruct (Graph.is_running g); [|reflexivity]. cbn [negb].
    assert (Hz : forall ds i, (i + length ds <= length values)%nat ->
                              snd (Graph.append_each i ds values) = true).
    { induction ds as [|d ds IH]; intros i Hi; [reflexivity|].
      cbn [Graph.append_each]. cbn [length] in Hi.
      destruct (nth_error values i) eqn:E.
      - specialize (IH (S i) ltac:(lia)).
        destruct (Graph.append_each (S i) ds values). exact IH.
      - apply nth_error_None in E. lia. }
    specialize (Hz (Graph.encoder_data g) 0%nat ltac:(lia)).
    destruct (Graph.append_each 0 (Graph.encoder_data g) values). exact Hz. }
  destruct (Graph.update_data g values) as [g' ok]. cbn [fst snd] in *. now subst ok.
Qed.

Lemma telemetry_feeds_graph_witness :
  process_update_encoders (init_app true) (Some Graph.init) "E1:5|E2:x|E7:3" =
  (update_encoders (init_app true) "E1:5|E2:x|E7:3",
   Some (fst (Graph.update_data Graph.init [5; 0; 0; 0; 0; 0])), true).
Proof.
  apply (telemetry_feeds_graph (init_app true) Graph.init "E1:5|E2:x|E7:3").
  reflexivity.
Defined.

(** ** The workspace visualization *)

Lemma shorten_in_view rnd (p : Workspace.point) :
  (forall y, -(5) <= y /\ y <= 45 -> -(5) <= rnd (y + 10) /\ rnd (y + 10) <= 55)%Q ->
  Workspace.in_view_extended p -> Workspace.in_view (Workspace.shorten rnd p).
Proof.
  intros Hr. destruct p as [[x y] z]. unfold Workspace.in_view_extended, Workspace.in_view.
  cbn [Workspace.shorten]. intros (Hx1 & Hx2 & Hy1 & Hy2 & Hz1 & Hz2).
  destruct (Hr y (conj Hy1 Hy2)) as [H1 H2]. repeat split; assumption.
Qed.

Lemma in_view_extended_in_view (p : Workspace.point) :
  Workspace.in_view_extended p -> Workspace.in_view p.
Proof.
  destruct p as [[x y] z]. unfold Workspace.in_view_extended, Workspace.in_view.
  intros (Hx1 & Hx2 & Hy1 & Hy2 & Hz1 & Hz2). repeat split; try assumption.
  apply Qle_trans with (1 := Hy2). discriminate.
Qed.

(** X21: the axis limits contain everything that is drawn.  For a table
    of measured positions that lie within the limits with 10 cm to spare
    along y, every joint of every configuration, at maximal and at minimal
    length, is inside the limits of the three axes, and the hull is computed
    from two end-effector positions for each configuration.  The table of
    the file is such a table. *)
Theorem plotted_points_in_view :
  forall rnd (table : list (string * Workspace.config)),
    (forall y, -(5) <= y /\ y <= 45 -> -(5) <= rnd (y + 10) /\ rnd (y + 10) <= 55)%Q ->
    Forall (fun entry => Forall Workspace.in_view_extended (Workspace.joints (snd entry))) table ->
    Forall Workspace.in_view (Workspace.plotted rnd table) /\
    length (Workspace.all_end_effectors rnd table) = (2 * length table)%nat.
Proof.
  intros rnd table Hr Ht. split.
  - unfold Workspace.plotted. rewrite flat_map_app. apply Forall_app. split.
    + apply Forall_flat_map. revert Ht. apply Forall_impl. intros entry.
      apply Forall_impl. exact in_view_extended_in_view.
    + unfold Workspace.min_length_of. apply Forall_flat_map, Forall_map.
      revert Ht. apply Forall_impl. intros [name c]. cbn [snd].
      unfold Workspace.joints. cbn [Workspace.base Workspace.link1 Workspace.end_effector].
      intros H. inversion H as [|? ? Hb H']; subst. inversion H' as [|? ? Hl H'']; subst.
      inversion H'' as [|? ? He _]; subst.
      repeat constructor; now apply shorten_in_view.
  - unfold Workspace.all_end_effectors, Workspace.min_length_of.
    rewrite length_map, length_app, length_map. lia.
Qed.

Lemma plotted_points_in_view_witness :
  Forall Workspace.in_view (Workspace.plotted (fun q => q) Workspace.max_length_points) /\
  length (Workspace.all_end_effectors (fun q => q) Workspace.max_length_points) = 12%nat.
Proof.
  apply (plotted_points_in_view (fun q => q) Workspace.max_length_points).
  - intros y [H1 H2]. split; lra.
  - repeat constructor; vm_compute; discriminate.
Defined.
